(** * placer_repo: raster blending and masking

    A shallow embedding of [blend_wuhan_weights.py] and
    [build_p_terrain_masked_from_dem.py].

    Numeric model.  numpy's float64/float32 cells and Python's floats are
    modelled by [npfloat]: the IEEE special values NaN, +inf and -inf, and
    finite values carried as real numbers.  The special values follow
    IEEE 754 as numpy implements it.  The source functions are given
    twice.  First with exact arithmetic on finite values and casts that
    keep the value: these definitions serve the statements about the
    formula a function computes, about its control flow and about its
    metadata.  Then, in the part on the floating-point formats and with
    the suffix [_fp], with the formats in their places: the cast to
    float32 ([round32]: rounding to nearest, ties to even, gradual
    underflow, overflow to infinity), the conversion of a Python float to
    the element type of the array it is compared with, and the overflow
    and the zero divisor of Python's float subtraction and division.
    These serve the statements about the range, the order and the
    equality of the values a run stores.  The rounding of the binary64
    operations themselves is represented in neither.

    Input and output.  The rasters on disk are a map from paths to
    datasets; a band is a function from column and row to a cell.  A band
    being written maps each cell to the list of the values written to it,
    so that a cell written twice or never shows.  The external hydrology
    toolkit is a parameter: a function from a world and a call to what the
    tool method returns and a new world. *)

From Stdlib Require Import Reals Lra Lia ZArith List String Bool.
Import ListNotations.

Local Open Scope string_scope.
Local Open Scope list_scope.
Local Open Scope Z_scope.

(** ** numpy floating-point values *)

Inductive npfloat : Type :=
| NaN
| PInf
| NInf
| Fin (x : R).

Definition Rltb (x y : R) : bool := if Rlt_dec x y then true else false.
Definition Rleb (x y : R) : bool := if Rle_dec x y then true else false.
Definition Reqb (x y : R) : bool := if Req_dec_T x y then true else false.

Definition np_isfinite (a : npfloat) : bool :=
  match a with
  | Fin _ => true
  | _ => false
  end.

(** [a == b] *)
Definition np_eq (a b : npfloat) : bool :=
  match a, b with
  | Fin x, Fin y => Reqb x y
  | PInf, PInf => true
  | NInf, NInf => true
  | _, _ => false
  end.

(** [a < b] *)
Definition np_lt (a b : npfloat) : bool :=
  match a, b with
  | NaN, _ | _, NaN => false
  | Fin x, Fin y => Rltb x y
  | NInf, NInf => false
  | NInf, _ => true
  | _, NInf => false
  | PInf, _ => false
  | Fin _, PInf => true
  end.

(** [a > b] *)
Definition np_gt (a b : npfloat) : bool := np_lt b a.

(** [a <= b] *)
Definition np_le (a b : npfloat) : bool :=
  match a, b with
  | NaN, _ | _, NaN => false
  | Fin x, Fin y => Rleb x y
  | NInf, _ => true
  | _, PInf => true
  | _, _ => false
  end.

(** [-a] *)
Definition np_neg (a : npfloat) : npfloat :=
  match a with
  | NaN => NaN
  | PInf => NInf
  | NInf => PInf
  | Fin x => Fin (- x)
  end.

(** [a + b] *)
Definition np_add (a b : npfloat) : npfloat :=
  match a, b with
  | NaN, _ | _, NaN => NaN
  | PInf, NInf | NInf, PInf => NaN
  | PInf, _ | _, PInf => PInf
  | NInf, _ | _, NInf => NInf
  | Fin x, Fin y => Fin (x + y)
  end.

(** [a - b] *)
Definition np_sub (a b : npfloat) : npfloat := np_add a (np_neg b).

(** The infinity with the sign of [x * y], for an infinite factor of
    sign [pos] and a finite factor [x]; NaN when [x] is zero. *)
Definition inf_times (pos : bool) (x : R) : npfloat :=
  if Rltb 0 x then (if pos then PInf else NInf)
  else if Rltb x 0 then (if pos then NInf else PInf)
  else NaN.

(** [a * b] *)
Definition np_mul (a b : npfloat) : npfloat :=
  match a, b with
  | NaN, _ | _, NaN => NaN
  | PInf, PInf | NInf, NInf => PInf
  | PInf, NInf | NInf, PInf => NInf
  | PInf, Fin x | Fin x, PInf => inf_times true x
  | NInf, Fin x | Fin x, NInf => inf_times false x
  | Fin x, Fin y => Fin (x * y)
  end.

(** [a / b]; a finite value over zero is an infinity of the sign of the
    numerator (NaN for 0/0), the zero being taken as +0. *)
Definition np_div (a b : npfloat) : npfloat :=
  match a, b with
  | NaN, _ | _, NaN => NaN
  | Fin x, Fin y =>
      if Reqb y 0 then inf_times true x else Fin (x / y)
  | Fin _, _ => Fin 0
  | PInf, Fin y => if Rltb y 0 then NInf else PInf
  | NInf, Fin y => if Rltb y 0 then PInf else NInf
  | _, _ => NaN
  end.

(** [np.log] *)
Definition np_log (a : npfloat) : npfloat :=
  match a with
  | NaN | NInf => NaN
  | PInf => PInf
  | Fin x => if Rltb 0 x then Fin (ln x)
             else if Rltb x 0 then NaN else NInf
  end.

(** [np.exp] *)
Definition np_exp (a : npfloat) : npfloat :=
  match a with
  | NaN => NaN
  | PInf => PInf
  | NInf => Fin 0
  | Fin x => Fin (exp x)
  end.

(** [np.maximum] and [np.minimum] propagate NaN. *)
Definition np_maximum (a b : npfloat) : npfloat :=
  match a, b with
  | NaN, _ | _, NaN => NaN
  | _, _ => if np_lt a b then b else a
  end.

Definition np_minimum (a b : npfloat) : npfloat :=
  match a, b with
  | NaN, _ | _, NaN => NaN
  | _, _ => if np_lt b a then b else a
  end.

(** [np.clip(a, lo, hi)] is [minimum(maximum(a, lo), hi)]. *)
Definition np_clip (a lo hi : npfloat) : npfloat :=
  np_minimum (np_maximum a lo) hi.

(** ** Python values, exceptions and results *)

(** The keyword arguments of a tool call: strings (paths, options) and
    floats. *)
Inductive pyval : Type :=
| PyStr (s : string)
| PyFloat (x : npfloat).

Definition kwargs : Type := list (string * pyval).

(** [RuntimeError_wbt tool kwargs] is
    [RuntimeError(f"WhiteboxTools {tool} failed with args {kwargs}")]. *)
Inductive exn : Type :=
| RuntimeError_wbt (tool : string) (args : kwargs)
| RuntimeError (msg : string)
| ValueError (msg : string)
| TypeError (msg : string)
| FileNotFoundError (msg : string)
| ZeroDivisionError (msg : string)
| RasterioIOError (path : string).

Inductive Result (A : Type) : Type :=
| Ok (a : A)
| Raise (e : exn).

Arguments Ok {A} a.
Arguments Raise {A} e.

Definition bind {A B : Type} (m : Result A) (k : A -> Result B) : Result B :=
  match m with
  | Ok a => k a
  | Raise e => Raise e
  end.

Notation "x <- m ;; k" := (bind m (fun x => k))
  (at level 61, m at next level, right associativity).

(** ** Arrays and raster datasets *)

(** A two-dimensional numpy array: [item a i j] is [a[i, j]], row [i] and
    column [j]. *)
Record ndarray (A : Type) : Type := mk_ndarray {
  shape_rows : Z;
  shape_cols : Z;
  item : Z -> Z -> A
}.

Arguments mk_ndarray {A} _ _ _.
Arguments shape_rows {A} _.
Arguments shape_cols {A} _.
Arguments item {A} _ _ _.

(** Element-wise operations (a scalar operand is broadcast by closing
    over it). *)
Definition amap {A B : Type} (f : A -> B) (a : ndarray A) : ndarray B :=
  mk_ndarray (shape_rows a) (shape_cols a) (fun i j => f (item a i j)).

Definition amap2 {A B C : Type} (f : A -> B -> C)
  (a : ndarray A) (b : ndarray B) : ndarray C :=
  mk_ndarray (shape_rows a) (shape_cols a)
             (fun i j => f (item a i j) (item b i j)).

(** [astype("float64")] and [astype("float32")] with the value kept;
    [astype_binary32] below is the cast with its rounding. *)
Definition astype_float64 (a : ndarray npfloat) : ndarray npfloat := a.
Definition astype_float32 (a : ndarray npfloat) : ndarray npfloat := a.

(** [np.where(cond, a, scalar)] *)
Definition np_where_scalar {A : Type} (cond : ndarray bool) (a : ndarray A)
  (v : A) : ndarray A :=
  amap2 (fun (c : bool) x => if c then x else v) cond a.

(** [a[mask] = v] for a boolean array [mask] and a scalar [v]. *)
Definition setitem_mask {A : Type} (a : ndarray A) (mask : ndarray bool)
  (v : A) : ndarray A :=
  amap2 (fun x (m : bool) => if m then v else x) a mask.

Definition geotransform : Type := (R * R * R * R * R * R)%type.

Definition geotransform_eqb (g h : geotransform) : bool :=
  let '(a0, a1, a2, a3, a4, a5) := g in
  let '(b0, b1, b2, b3, b4, b5) := h in
  Reqb a0 b0 && Reqb a1 b1 && Reqb a2 b2 &&
  Reqb a3 b3 && Reqb a4 b4 && Reqb a5 b5.

(** A single-band raster dataset.  [band1 x y] is the cell in column [x]
    and row [y].  For a dataset being written the cell type is
    [list npfloat]: the values written to the cell so far, oldest first. *)
Record Dataset (A : Type) : Type := mk_Dataset {
  RasterXSize : Z;
  RasterYSize : Z;
  GeoTransform : geotransform;
  Projection : string;
  NoDataValue : option npfloat;
  BlockSize : Z * Z;
  band1 : Z -> Z -> A
}.

Arguments mk_Dataset {A} _ _ _ _ _ _ _.
Arguments RasterXSize {A} _.
Arguments RasterYSize {A} _.
Arguments GeoTransform {A} _.
Arguments Projection {A} _.
Arguments NoDataValue {A} _.
Arguments BlockSize {A} _.
Arguments band1 {A} _ _ _.

Definition band (A : Type) : Type := Z -> Z -> A.

Definition in_window (xoff yoff cols rows x y : Z) : bool :=
  (xoff <=? x) && (x <? xoff + cols) && (yoff <=? y) && (y <? yoff + rows).

Definition in_grid (xsize ysize x y : Z) : bool :=
  (0 <=? x) && (x <? xsize) && (0 <=? y) && (y <? ysize).

(** [band.ReadAsArray(xoff, yoff, cols, rows)] and rasterio's
    [src.read(1, window=Window(col_off, row_off, width, height))]. *)
Definition ReadAsArray {A : Type} (b : band A) (xoff yoff cols rows : Z)
  : ndarray A :=
  mk_ndarray rows cols (fun i j => b (xoff + j) (yoff + i)).

(** [band.WriteArray(arr, xoff, yoff)] and rasterio's
    [dst.write(arr, 1, window=win)]: every cell of the window receives the
    corresponding element. *)
Definition WriteArray {A : Type} (b : band (list A)) (arr : ndarray A)
  (xoff yoff : Z) : band (list A) :=
  fun x y =>
    if in_window xoff yoff (shape_cols arr) (shape_rows arr) x y
    then b x y ++ [item arr (y - yoff) (x - xoff)]
    else b x y.

(** A freshly created band: nothing written yet. *)
Definition empty_band {A : Type} : band (list A) := fun _ _ => [].

(** Python's [range(start, stop, step)]. *)
Definition py_range (start stop step : Z) : Result (list Z) :=
  if step =? 0 then Raise (ValueError "range() arg 3 must not be zero")
  else
    let n := if 0 <? step then (stop - start + step - 1) / step
             else (start - stop - step - 1) / (- step) in
    Ok (map (fun k => start + Z.of_nat k * step) (seq 0 (Z.to_nat n))).

(** A [for] loop over [l] threading the state [s]; an exception raised by
    the body ends the loop. *)
Fixpoint for_each {S : Type} (l : list Z) (body : S -> Z -> Result S) (s : S)
  : Result S :=
  match l with
  | [] => Ok s
  | i :: l' => s' <- body s i ;; for_each l' body s'
  end.

(** The files on disk that hold rasters, by path. *)
Definition filesystem : Type := string -> option (Dataset npfloat).

(** ** blend_wuhan_weights.py *)

Definition _open_base_raster (fs : filesystem) (path : string)
  : Result (Dataset npfloat) :=
  match fs path with
  | None => Raise (RuntimeError ("Could not open raster: " ++ path))
  | Some ds => Ok ds
  end.

(** [drv.Create(path, xsize, ysize, 1, GDT_Float32, options)]: a new
    dataset with GDAL's default metadata and nothing written. *)
Definition Create (xsize ysize : Z) : Dataset (list npfloat) :=
  mk_Dataset xsize ysize (0, 1, 0, 0, 0, 1)%R "" None (256, 256) empty_band.

Definition SetGeoTransform {A : Type} (ds : Dataset A) (gt : geotransform)
  : Dataset A :=
  mk_Dataset (RasterXSize ds) (RasterYSize ds) gt (Projection ds)
             (NoDataValue ds) (BlockSize ds) (band1 ds).

Definition SetProjection {A : Type} (ds : Dataset A) (proj : string)
  : Dataset A :=
  mk_Dataset (RasterXSize ds) (RasterYSize ds) (GeoTransform ds) proj
             (NoDataValue ds) (BlockSize ds) (band1 ds).

Definition SetNoDataValue {A : Type} (ds : Dataset A) (nodata : option npfloat)
  : Dataset A :=
  mk_Dataset (RasterXSize ds) (RasterYSize ds) (GeoTransform ds)
             (Projection ds) nodata (BlockSize ds) (band1 ds).

Definition set_band1 {A B : Type} (ds : Dataset A) (b : band B) : Dataset B :=
  mk_Dataset (RasterXSize ds) (RasterYSize ds) (GeoTransform ds)
             (Projection ds) (NoDataValue ds) (BlockSize ds) b.

(** A feature of a vector layer, by its field accessor: [GetField] gives
    [None] for a null field. *)
Definition Feature : Type := string -> option R.

Definition GetField (feat : Feature) (name : string) : option R := feat name.

Definition SetField (feat : Feature) (name : string) (v : R) : Feature :=
  fun n => if String.eqb n name then Some v else feat n.

Definition Layer : Type := list Feature.

(** The vector files on disk, by path, each with its first layer. *)
Definition vector_store : Type := string -> option Layer.

(** [float(val)] *)
Definition py_float (val : option R) : Result R :=
  match val with
  | Some v => Ok v
  | None =>
      Raise (TypeError
        "float() argument must be a string or a real number, not 'NoneType'")
  end.

(** [min(values)] and [max(values)]: the first smallest (largest) item. *)
Definition py_min (values : list R) : Result R :=
  match values with
  | [] => Raise (ValueError "min() arg is an empty sequence")
  | v :: vs => Ok (fold_left (fun m x => if Rltb x m then x else m) vs v)
  end.

Definition py_max (values : list R) : Result R :=
  match values with
  | [] => Raise (ValueError "max() arg is an empty sequence")
  | v :: vs => Ok (fold_left (fun m x => if Rltb m x then x else m) vs v)
  end.

(** A [for] loop that rewrites every feature of a layer in turn. *)
Fixpoint for_features (l : Layer) (body : Feature -> Result Feature)
  : Result Layer :=
  match l with
  | [] => Ok []
  | feat :: l' =>
      feat' <- body feat ;;
      rest <- for_features l' body ;;
      Ok (feat' :: rest)
  end.

(** [out_band.Fill(v)] *)
Definition Fill {A : Type} (ds : Dataset (list A)) (v : A) : Dataset (list A) :=
  set_band1 ds (fun x y =>
    if in_grid (RasterXSize ds) (RasterYSize ds) x y then [v] else []).

(** [rasterize_hotspots] up to the call of [gdal.RasterizeLayer], which
    burns the polygons and is GDAL's: the result is the in-memory layer
    with its [WNORM] field and the output raster prepared for the burn. *)
Definition rasterize_hotspots (fs : filesystem) (vs : vector_store)
  (hotspots_path template_path value_field : string) (neutral_value : npfloat)
  : Result (Layer * Dataset (list npfloat)) :=
  base_ds <- _open_base_raster fs template_path ;;
  let gt := GeoTransform base_ds in
  let proj := Projection base_ds in
  let width := RasterXSize base_ds in
  let height := RasterYSize base_ds in
  layer <- match vs hotspots_path with
           | None => Raise (RuntimeError
                              ("Could not open hotspots: " ++ hotspots_path))
           | Some layer => Ok layer
           end ;;
  if Z.of_nat (List.length layer) =? 0
  then Raise (RuntimeError "Hotspots layer is empty.")
  else
    let values :=
      flat_map (fun feat =>
                  match GetField feat value_field with
                  | Some val => [val]
                  | None => []
                  end) layer in
    match values with
    | [] => Raise (RuntimeError
                     ("No values found in field " ++ value_field ++ "."))
    | _ :: _ =>
        vmin <- py_min values ;;
        vmax <- py_max values ;;
        let span := if negb (Reqb vmax vmin) then (vmax - vmin)%R else 1%R in
        mem_layer <-
          for_features layer (fun feat =>
            let raw := GetField feat value_field in
            raw_float <- py_float raw ;;
            let norm := ((raw_float - vmin) / span)%R in
            Ok (SetField feat "WNORM" norm)) ;;
        let out_ds := Create width height in
        let out_ds := SetGeoTransform out_ds gt in
        let out_ds := SetProjection out_ds proj in
        let out_ds := SetNoDataValue out_ds (Some (Fin 0)) in
        let out_ds := Fill out_ds neutral_value in
        Ok (mem_layer, out_ds)
    end.

(** [v == nodata], where [nodata] is [None] for a band without a nodata
    value: comparing with [None] is false everywhere. *)
Definition eq_nodata (nodata : option npfloat) (v : npfloat) : bool :=
  match nodata with
  | Some nd => np_eq v nd
  | None => false
  end.

(** The float numpy stores for [nodata] ([None] converts to NaN). *)
Definition nodata_value (nodata : option npfloat) : npfloat :=
  match nodata with
  | Some nd => nd
  | None => NaN
  end.

(** The body of the tile loop of [blend_probabilities], up to the array
    handed to [WriteArray]. *)
Definition blend_block (base_band weight_band : band npfloat)
  (nodata : option npfloat) (strength neutral_value eps : npfloat)
  (x y cols rows : Z) : ndarray npfloat :=
  let base_arr := astype_float64 (ReadAsArray base_band x y cols rows) in
  let weight_arr := astype_float64 (ReadAsArray weight_band x y cols rows) in
  let mask := amap (eq_nodata nodata) base_arr in
  let base_arr :=
    amap (fun v => np_clip v eps (np_sub (Fin 1) eps)) base_arr in
  let weight_arr :=
    np_where_scalar (amap (fun v => np_gt v (Fin 0)) weight_arr)
                    weight_arr neutral_value in
  let logit :=
    amap np_log
         (amap2 np_div base_arr (amap (fun v => np_sub (Fin 1) v) base_arr)) in
  let shifted :=
    amap2 np_add logit
          (amap (fun v => np_mul strength (np_sub v neutral_value))
                weight_arr) in
  let blended :=
    amap (fun v => np_div (Fin 1) (np_add (Fin 1) (np_exp (np_neg v))))
         shifted in
  let blended := astype_float32 blended in
  setitem_mask blended mask (nodata_value nodata).

Definition blend_probabilities (fs : filesystem)
  (base_path weight_path : string) (strength neutral_value eps : npfloat)
  : Result (Dataset (list npfloat)) :=
  base_ds <- _open_base_raster fs base_path ;;
  weight_ds <- _open_base_raster fs weight_path ;;
  let base_band := band1 base_ds in
  let gt := GeoTransform base_ds in
  let proj := Projection base_ds in
  let nodata := NoDataValue base_ds in
  let weight_band := band1 weight_ds in
  let w_gt := GeoTransform weight_ds in
  if negb (RasterXSize base_ds =? RasterXSize weight_ds)
     || negb (RasterYSize base_ds =? RasterYSize weight_ds)
  then Raise (RuntimeError "Weight raster grid does not match base raster.")
  else if negb (geotransform_eqb gt w_gt)
  then Raise (RuntimeError
                "Weight raster geotransform does not match base raster.")
  else
    let out_ds := Create (RasterXSize base_ds) (RasterYSize base_ds) in
    let out_ds := SetGeoTransform out_ds gt in
    let out_ds := SetProjection out_ds proj in
    let out_ds := SetNoDataValue out_ds nodata in
    let '(block_x, block_y) := BlockSize base_ds in
    let xsize := RasterXSize base_ds in
    let ysize := RasterYSize base_ds in
    ys <- py_range 0 ysize block_y ;;
    out_band <-
      for_each ys (fun out_band y =>
        let rows := Z.min block_y (ysize - y) in
        xs <- py_range 0 xsize block_x ;;
        for_each xs (fun out_band x =>
          let cols := Z.min block_x (xsize - x) in
          let blended :=
            blend_block base_band weight_band nodata
                        strength neutral_value eps x y cols rows in
          Ok (WriteArray out_band blended x y)) out_band)
        (band1 out_ds) ;;
    Ok (set_band1 out_ds out_band).

(** ** build_p_terrain_masked_from_dem.py *)

Definition rasterio_open (fs : filesystem) (path : string)
  : Result (Dataset npfloat) :=
  match fs path with
  | None => Raise (RasterioIOError path)
  | Some ds => Ok ds
  end.

(** [out[mask] = src[mask]]: the selected elements of [src] go to the
    selected positions of [out], in the same order. *)
Definition setitem_mask_from {A : Type} (out : ndarray A) (mask : ndarray bool)
  (src : ndarray A) : ndarray A :=
  mk_ndarray (shape_rows out) (shape_cols out)
             (fun i j => if item mask i j then item src i j else item out i j).

(** The body of the window loop of [apply_mask], up to the array handed to
    [dst.write]. *)
Definition mask_block (p_band s_band h_band d_band : band npfloat)
  (slope_max hand_max dist_max : npfloat)
  (col_off row_off win_w win_h : Z) : ndarray npfloat :=
  let p := ReadAsArray p_band col_off row_off win_w win_h in
  let slp := ReadAsArray s_band col_off row_off win_w win_h in
  let hd := ReadAsArray h_band col_off row_off win_w win_h in
  let dist := ReadAsArray d_band col_off row_off win_w win_h in
  let mask := amap (fun _ => true) p in
  let mask := amap2 andb mask (amap np_isfinite p) in
  let mask :=
    amap2 andb mask
          (amap2 andb (amap np_isfinite slp)
                 (amap (fun v => np_le v slope_max) slp)) in
  let mask :=
    amap2 andb mask
          (amap2 andb (amap np_isfinite hd)
                 (amap (fun v => np_le v hand_max) hd)) in
  let mask :=
    amap2 andb mask
          (amap2 andb (amap np_isfinite dist)
                 (amap (fun v => np_le v dist_max) dist)) in
  let out := amap (fun _ => Fin 0) p in
  setitem_mask_from out mask (astype_float32 p).

Definition apply_mask (fs : filesystem)
  (prob_path slope_path hand_path dist_path : string)
  (slope_max hand_max dist_max : npfloat) (window : Z)
  : Result (Dataset (list npfloat)) :=
  p_src <- rasterio_open fs prob_path ;;
  s_src <- rasterio_open fs slope_path ;;
  h_src <- rasterio_open fs hand_path ;;
  d_src <- rasterio_open fs dist_path ;;
  let profile :=
    mk_Dataset (RasterXSize p_src) (RasterYSize p_src) (GeoTransform p_src)
               (Projection p_src) (Some (Fin 0)) (512, 512)
               (@empty_band npfloat) in
  let height := RasterYSize p_src in
  let width := RasterXSize p_src in
  row_offs <- py_range 0 height window ;;
  dst <-
    for_each row_offs (fun dst row_off =>
      let win_h := Z.min window (height - row_off) in
      col_offs <- py_range 0 width window ;;
      for_each col_offs (fun dst col_off =>
        let win_w := Z.min window (width - col_off) in
        let out :=
          mask_block (band1 p_src) (band1 s_src) (band1 h_src) (band1 d_src)
                     slope_max hand_max dist_max
                     col_off row_off win_w win_h in
        Ok (WriteArray dst out col_off row_off)) dst)
      (band1 profile) ;;
  Ok (set_band1 profile dst).


(** *** The command-line tool *)

Record Args : Type := mk_Args {
  dem : string;
  prob : string;
  out : string;
  stream_thresh : npfloat;
  slope_max : npfloat;
  hand_max : npfloat;
  dist_max : npfloat
}.

Section Whitebox.
(** The outside world: the files on disk and the WhiteboxTools
    installation.  [wbt_call w tool kwargs] is the method [tool] of [wbt]
    called with the keyword arguments [kwargs] in world [w]: the truth
    value of what the tool returns, and the world it leaves. *)
Variable world : Type.
Variable wbt_call : world -> string -> kwargs -> bool * world.
Variable path_exists : world -> string -> bool.
Variable rasters : world -> filesystem.

(** The state threaded through [main]: the world, and the tool calls
    made so far, oldest first. *)
Record state : Type := mk_state {
  the_world : world;
  invoked : list (string * kwargs)
}.

Definition M (A : Type) : Type := state -> state * Result A.

Definition ret {A : Type} (a : A) : M A := fun s => (s, Ok a).

Definition raise {A : Type} (e : exn) : M A := fun s => (s, Raise e).

Definition bindM {A B : Type} (m : M A) (k : A -> M B) : M B :=
  fun s =>
    match m s with
    | (s', Ok a) => k a s'
    | (s', Raise e) => (s', Raise e)
    end.

Notation "x <~ m ;; k" := (bindM m (fun x => k))
  (at level 61, m at next level, right associativity).
Notation "m ;;; k" := (bindM m (fun _ => k))
  (at level 61, right associativity).

Definition get_world : M world := fun s => (s, Ok (the_world s)).

Definition lift {A : Type} (r : Result A) : M A := fun s => (s, r).

Definition call_tool (tool : string) (kw : kwargs) : M bool :=
  fun s =>
    let '(ok, w') := wbt_call (the_world s) tool kw in
    (mk_state w' (invoked s ++ [(tool, kw)]), Ok ok).

Definition run_wbt (tool : string) (kw : kwargs) : M unit :=
  ok <~ call_tool tool kw ;;
  if negb ok then raise (RuntimeError_wbt tool kw) else ret tt.

(** [main], given the parsed arguments and the directory that
    [tempfile.TemporaryDirectory] made. *)
Definition main (args : Args) (tmpdir : string)
  : M (Dataset (list npfloat)) :=
  w <~ get_world ;;
  if negb (path_exists w (dem args))
  then raise (FileNotFoundError ("DEM not found: " ++ dem args))
  else if negb (path_exists w (prob args))
  then raise (FileNotFoundError
                ("Probability raster not found: " ++ prob args))
  else
    let filled := (tmpdir ++ "/dem_filled.tif")%string in
    let fdir := (tmpdir ++ "/d8_dir.tif")%string in
    let facc := (tmpdir ++ "/flow_acc.tif")%string in
    let streams := (tmpdir ++ "/streams.tif")%string in
    let dist := (tmpdir ++ "/dist2stream.tif")%string in
    let hand := (tmpdir ++ "/hand.tif")%string in
    let slope := (tmpdir ++ "/slope.tif")%string in
    run_wbt "fill_depressions"
            [("dem", PyStr (dem args)); ("output", PyStr filled)] ;;;
    run_wbt "d8_pointer"
            [("dem", PyStr filled); ("output", PyStr fdir)] ;;;
    run_wbt "d8_flow_accumulation"
            [("dem", PyStr filled); ("output", PyStr facc);
             ("out_type", PyStr "cells")] ;;;
    run_wbt "extract_streams"
            [("flow_accum", PyStr facc); ("output", PyStr streams);
             ("threshold", PyFloat (stream_thresh args))] ;;;
    run_wbt "euclidean_distance"
            [("i", PyStr streams); ("output", PyStr dist)] ;;;
    run_wbt "elevation_above_stream"
            [("dem", PyStr filled); ("streams", PyStr streams);
             ("output", PyStr hand); ("wd", PyStr tmpdir)] ;;;
    run_wbt "slope"
            [("dem", PyStr filled); ("output", PyStr slope);
             ("units", PyStr "degrees")] ;;;
    w <~ get_world ;;
    lift (apply_mask (rasters w) (prob args) slope hand dist
                     (slope_max args) (hand_max args) (dist_max args)
                     1024).
End Whitebox.

Arguments the_world {world} _.
Arguments invoked {world} _.
Arguments mk_state {world} _ _.

(** * Definitions used to state the properties *)

(** ** The blend formula *)

(** The formula of the specification over the reals. *)
Definition Rclamp (p lo hi : R) : R := Rmin (Rmax p lo) hi.

Definition logit (q : R) : R := ln (q / (1 - q)).

Definition sigmoid (x : R) : R := (1 / (1 + exp (- x)))%R.

Definition effective_weight (w n : R) : R := if Rltb 0 w then w else n.

Definition blend_formula (s n eps p w : R) : R :=
  sigmoid (logit (Rclamp p eps (1 - eps)) + s * (effective_weight w n - n)).

(** The same formula in numpy's arithmetic. *)
Definition np_logit (q : npfloat) : npfloat :=
  np_log (np_div q (np_sub (Fin 1) q)).

Definition np_sigmoid (x : npfloat) : npfloat :=
  np_div (Fin 1) (np_add (Fin 1) (np_exp (np_neg x))).

Definition blend_formula_np (s n eps p w : npfloat) : npfloat :=
  let q := np_clip p eps (np_sub (Fin 1) eps) in
  let w' := if np_gt w (Fin 0) then w else n in
  np_sigmoid (np_add (np_logit q) (np_mul s (np_sub w' n))).

(** What [blend_block] computes for a base cell [p] and a weight cell [w]. *)
Definition blend_cell (nodata : option npfloat)
  (strength neutral_value eps p w : npfloat) : npfloat :=
  if eq_nodata nodata p then nodata_value nodata
  else blend_formula_np strength neutral_value eps p w.

(** The two rasters are on disk, on one grid, and the base raster has a
    usable block size and declares a nodata value (what GDAL does when
    [SetNoDataValue] is given [None] is not part of the model). *)
Definition blend_inputs (fs : filesystem) (base_path weight_path : string)
  (base_ds weight_ds : Dataset npfloat) : Prop :=
  fs base_path = Some base_ds /\
  fs weight_path = Some weight_ds /\
  RasterXSize base_ds = RasterXSize weight_ds /\
  RasterYSize base_ds = RasterYSize weight_ds /\
  GeoTransform base_ds = GeoTransform weight_ds /\
  0 < fst (BlockSize base_ds) /\ 0 < snd (BlockSize base_ds) /\
  NoDataValue base_ds <> None.

(** The error the specification calls GridMismatch. *)
Definition GridMismatch (e : exn) : Prop :=
  e = RuntimeError "Weight raster grid does not match base raster." \/
  e = RuntimeError "Weight raster geotransform does not match base raster.".

(** ** The mask *)

(** Admissibility of a cell as the specification words it. *)
Definition admissible (slope_max hand_max dist_max p slp hd dist : npfloat)
  : bool :=
  np_isfinite p && np_isfinite slp && np_isfinite hd && np_isfinite dist
  && np_le slp slope_max && np_le hd hand_max && np_le dist dist_max.

(** What [mask_block] computes for one cell of the four rasters. *)
Definition mask_cell (slope_max hand_max dist_max p slp hd dist : npfloat)
  : npfloat :=
  if true && np_isfinite p
     && (np_isfinite slp && np_le slp slope_max)
     && (np_isfinite hd && np_le hd hand_max)
     && (np_isfinite dist && np_le dist dist_max)
  then p else Fin 0.

(** The four rasters of [apply_mask] are on disk and the three covariate
    rasters have the shape of the probability raster, so that every window
    read lies inside each of them. *)
Definition mask_inputs (fs : filesystem)
  (prob_path slope_path hand_path dist_path : string)
  (p_src s_src h_src d_src : Dataset npfloat) : Prop :=
  fs prob_path = Some p_src /\ fs slope_path = Some s_src /\
  fs hand_path = Some h_src /\ fs dist_path = Some d_src /\
  (RasterXSize s_src = RasterXSize p_src /\
   RasterYSize s_src = RasterYSize p_src) /\
  (RasterXSize h_src = RasterXSize p_src /\
   RasterYSize h_src = RasterYSize p_src) /\
  (RasterXSize d_src = RasterXSize p_src /\
   RasterYSize d_src = RasterYSize p_src).

(** ** Tiles *)

(** The offsets [0, step, 2*step, ...] below [stop]. *)
Definition offsets (stop step : Z) : list Z :=
  map (fun k => 0 + Z.of_nat k * step)
      (seq 0 (Z.to_nat ((stop - 0 + step - 1) / step))).

Section TiledLoop.
Context {A : Type}.
Variable blk : Z -> Z -> Z -> Z -> ndarray A.
Variables xsize ysize block_x block_y : Z.

(** The loop nest shared by [blend_probabilities] and [apply_mask]. *)
Definition tiled_loop (out : band (list A)) : Result (band (list A)) :=
  ys <- py_range 0 ysize block_y ;;
  for_each ys (fun out y =>
    let rows := Z.min block_y (ysize - y) in
    xs <- py_range 0 xsize block_x ;;
    for_each xs (fun out x =>
      let cols := Z.min block_x (xsize - x) in
      Ok (WriteArray out (blk x y cols rows) x y)) out) out.

Definition write_tile (y : Z) (out : band (list A)) (x : Z) : band (list A) :=
  WriteArray out
    (blk x y (Z.min block_x (xsize - x)) (Z.min block_y (ysize - y))) x y.

Definition write_row (out : band (list A)) (y : Z) : band (list A) :=
  fold_left (write_tile y) (offsets xsize block_x) out.
End TiledLoop.

(** ** A small scene used to exercise the statements *)

Definition example_gt : geotransform := (300000, 30, 0, 800000, 0, -30)%R.

(** A 4 x 4 base raster of probability 0.5 with one nodata cell. *)
Definition example_base : Dataset npfloat :=
  mk_Dataset 4 4 example_gt "EPSG:32629" (Some (Fin (-9999))) (4, 1)
    (fun x y => if (x =? 0) && (y =? 0) then Fin (-9999) else Fin (1 / 2)).

(** Its weight raster: neutral 0.5 but for three cells. *)
Definition example_weight : Dataset npfloat :=
  mk_Dataset 4 4 example_gt "EPSG:32629" (Some (Fin 0)) (4, 1)
    (fun x y =>
       if (x =? 1) && (y =? 2) then Fin 1
       else if (x =? 2) && (y =? 2) then Fin (3 / 4)
       else if (x =? 3) && (y =? 3) then Fin (1 / 4)
       else Fin (1 / 2)).

Definition example_fs : filesystem :=
  fun path =>
    if String.eqb path "base.tif" then Some example_base
    else if String.eqb path "weight.tif" then Some example_weight
    else None.

(** Four 2 x 2 rasters for the mask: the cell (0,0) passes all three
    criteria, (1,0) has a slope of 12 degrees, (0,1) has a slope of 12
    degrees and probability 0, (1,1) has no HAND value. *)
Definition example_raster (cells : band npfloat) : Dataset npfloat :=
  mk_Dataset 2 2 example_gt "EPSG:32629" None (2, 1) cells.

Definition example_prob : Dataset npfloat :=
  example_raster (fun x y =>
    if (x =? 0) && (y =? 1) then Fin 0
    else if (x =? 1) && (y =? 1) then Fin (2 / 5)
    else Fin (73 / 100)).

Definition example_slope : Dataset npfloat :=
  example_raster (fun x y =>
    if (x =? 0) && (y =? 0) then Fin 8
    else if (x =? 1) && (y =? 1) then Fin 3
    else Fin 12).

Definition example_hand : Dataset npfloat :=
  example_raster (fun x y => if (x =? 1) && (y =? 1) then NaN else Fin 5).

Definition example_dist : Dataset npfloat :=
  example_raster (fun x y => Fin 50).

Definition example_mask_fs : filesystem :=
  fun path =>
    if String.eqb path "p_terrain.tif" then Some example_prob
    else if String.eqb path "slope.tif" then Some example_slope
    else if String.eqb path "hand.tif" then Some example_hand
    else if String.eqb path "dist2stream.tif" then Some example_dist
    else None.

(** Hotspot layers: attribute values 2, 5, 8; all 7; and 2 with a
    feature whose attribute is null. *)
Definition feature_with (field : string) (v : option R) : Feature :=
  fun n => if String.eqb n field then v else None.

Definition example_layer_258 : Layer :=
  [feature_with "RVALUE" (Some 2%R); feature_with "RVALUE" (Some 5%R);
   feature_with "RVALUE" (Some 8%R)].

Definition example_layer_777 : Layer :=
  [feature_with "RVALUE" (Some 7%R); feature_with "RVALUE" (Some 7%R);
   feature_with "RVALUE" (Some 7%R)].

Definition example_layer_null : Layer :=
  [feature_with "RVALUE" (Some 2%R); feature_with "RVALUE" None].

Definition example_vs : vector_store :=
  fun path =>
    if String.eqb path "258.shp" then Some example_layer_258
    else if String.eqb path "777.shp" then Some example_layer_777
    else if String.eqb path "null.shp" then Some example_layer_null
    else None.

(** The message of the [TypeError] that [float(None)] raises. *)
Definition float_of_None : exn :=
  TypeError
    "float() argument must be a string or a real number, not 'NoneType'".

(** The span of the normalization. *)
Definition span_of (vmin vmax : R) : R :=
  if negb (Reqb vmax vmin) then (vmax - vmin)%R else 1%R.

(** ** Tile sizes *)

(** The same raster stored with another block size. *)
Definition with_block_size {A : Type} (ds : Dataset A) (bs : Z * Z)
  : Dataset A :=
  mk_Dataset (RasterXSize ds) (RasterYSize ds) (GeoTransform ds)
             (Projection ds) (NoDataValue ds) bs (band1 ds).

Definition example_fs_blocks (bs : Z * Z) : filesystem :=
  fun path =>
    if String.eqb path "base.tif"
    then Some (with_block_size example_base bs)
    else if String.eqb path "weight.tif" then Some example_weight
    else None.

(** ** The hydrology steps *)

(** The tool calls of [main], in the order of the source. *)
Definition hydrology_steps (args : Args) (tmpdir : string)
  : list (string * kwargs) :=
  let filled := (tmpdir ++ "/dem_filled.tif")%string in
  let fdir := (tmpdir ++ "/d8_dir.tif")%string in
  let facc := (tmpdir ++ "/flow_acc.tif")%string in
  let streams := (tmpdir ++ "/streams.tif")%string in
  let dist := (tmpdir ++ "/dist2stream.tif")%string in
  let hand := (tmpdir ++ "/hand.tif")%string in
  let slope := (tmpdir ++ "/slope.tif")%string in
  [("fill_depressions",
    [("dem", PyStr (dem args)); ("output", PyStr filled)]);
   ("d8_pointer", [("dem", PyStr filled); ("output", PyStr fdir)]);
   ("d8_flow_accumulation",
    [("dem", PyStr filled); ("output", PyStr facc);
     ("out_type", PyStr "cells")]);
   ("extract_streams",
    [("flow_accum", PyStr facc); ("output", PyStr streams);
     ("threshold", PyFloat (stream_thresh args))]);
   ("euclidean_distance", [("i", PyStr streams); ("output", PyStr dist)]);
   ("elevation_above_stream",
    [("dem", PyStr filled); ("streams", PyStr streams);
     ("output", PyStr hand); ("wd", PyStr tmpdir)]);
   ("slope",
    [("dem", PyStr filled); ("output", PyStr slope);
     ("units", PyStr "degrees")])].

(** The keyword arguments that name an input raster, and the one that
    names the output. *)
Definition input_keys : list string := ["dem"; "flow_accum"; "i"; "streams"].

Definition inputs_of (c : string * kwargs) : list pyval :=
  map snd (filter (fun kv => existsb (String.eqb (fst kv)) input_keys)
                  (snd c)).

Definition output_of (c : string * kwargs) : option pyval :=
  option_map snd (find (fun kv => String.eqb (fst kv) "output") (snd c)).

Section WhiteboxRuns.
Variable world : Type.
Variable wbt_call : world -> string -> kwargs -> bool * world.

(** The world left by a sequence of tool calls. *)
Definition world_after (w : world) (calls : list (string * kwargs)) : world :=
  fold_left (fun w c => snd (wbt_call w (fst c) (snd c))) calls w.

(** The truth value of what the call [c] returns when made after the
    calls [pre]. *)
Definition returns_true (w : world) (pre : list (string * kwargs))
  (c : string * kwargs) : bool :=
  fst (wbt_call (world_after w pre) (fst c) (snd c)).

(** Every call of [calls], made in turn from world [w], returns a true
    value. *)
Definition all_return_true (w : world) (calls : list (string * kwargs)) : Prop :=
  forall pre c post, calls = pre ++ c :: post -> returns_true w pre c = true.

(** [run_wbt] on each call of a list in turn. *)
Fixpoint run_calls (calls : list (string * kwargs)) : M world unit :=
  match calls with
  | [] => ret world tt
  | c :: calls' =>
      bindM world (run_wbt world wbt_call (fst c) (snd c))
            (fun _ => run_calls calls')
  end.
End WhiteboxRuns.

Arguments world_after {world} _ _ _.
Arguments returns_true {world} _ _ _ _.
Arguments all_return_true {world} _ _ _.
Arguments run_calls {world} _ _.

Definition example_args : Args :=
  mk_Args "dem_utm.tif" "p_terrain.tif" "p_terrain_masked.tif"
          (Fin 1000) (Fin 10) (Fin 15) (Fin 300).

(** ** The rest of blend_wuhan_weights.py *)

(** The disk after a raster was written at [path]. *)
Definition fs_write (fs : filesystem) (path : string) (ds : Dataset npfloat)
  : filesystem :=
  fun p => if String.eqb p path then Some ds else fs p.

(** What a reader finds in a dataset that was written: in each cell the
    last value written to it.  A cell that was never written has no value
    in this model; NaN stands for it. *)
Definition stored (ds : Dataset (list npfloat)) : Dataset npfloat :=
  set_band1 ds (fun x y => last (band1 ds x y) NaN).


Section Rasterize.
(** [gdal.RasterizeLayer(out_ds, [1], mem_layer, options)] is GDAL's: the
    content of band 1 after the polygons of the layer were burned into the
    dataset. *)
Variable RasterizeLayer : Dataset (list npfloat) -> Layer -> band (list npfloat).


End Rasterize.



(** A base raster whose nodata sentinel is NaN, with a NaN cell and three
    distinct probabilities, and a weight raster with a zero and a NaN
    cell. *)
Definition example_base_nan : Dataset npfloat :=
  mk_Dataset 4 4 example_gt "EPSG:32629" (Some NaN) (4, 1)
    (fun x y =>
       if (x =? 0) && (y =? 0) then NaN
       else if (x =? 3) && (y =? 0) then Fin (1 / 4)
       else if (x =? 3) && (y =? 1) then Fin (3 / 4)
       else Fin (1 / 2)).

Definition example_weight_zero : Dataset npfloat :=
  mk_Dataset 4 4 example_gt "EPSG:32629" (Some (Fin 0)) (256, 256)
    (fun x y =>
       if (x =? 1) && (y =? 1) then Fin 0
       else if (x =? 2) && (y =? 1) then NaN
       else Fin (1 / 2)).

Definition example_fs_nan : filesystem :=
  fun path =>
    if String.eqb path "base_nan.tif" then Some example_base_nan
    else if String.eqb path "weight_zero.tif" then Some example_weight_zero
    else None.

Definition is_FileNotFoundError (e : exn) : bool :=
  match e with
  | FileNotFoundError _ => true
  | _ => false
  end.

(** * The floating-point formats *)

(** The definitions above carry a finite value as an exact real.  Where a
    property depends on what a format can hold, the formats are
    represented: the cast to binary32 by [round32], IEEE 754 rounding to
    nearest with ties to even, gradual underflow and overflow to infinity;
    and the overflow of a binary64 operation by [float64_of].  The
    definitions with the suffix [_fp] are the source functions once more,
    with these in their places. *)

(** ** binary32 *)

Definition bpow (e : Z) : R := powerRZ 2 e.

Definition Rfloor (x : R) : Z := up x - 1.

(** The nearest integer, a tie going to the even one. *)
Definition rne (x : R) : Z :=
  let f := Rfloor x in
  if Rlt_dec (x - IZR f) (1 / 2) then f
  else if Rlt_dec (1 / 2) (x - IZR f) then f + 1
  else if Z.even f then f else f + 1.

(** The exponent [e] with [2^(e-1) <= x < 2^e], for a positive [x]. *)
Definition mag (x : R) : Z := up (ln x / ln 2).

(** The spacing of the binary32 values around [x]: 24 significant bits,
    and [2^-149] below the normal range. *)
Definition ulp32 (x : R) : R := bpow (Z.max (mag x - 24) (-149)).

Definition round32_pos (x : R) : R := (IZR (rne (x / ulp32 x)) * ulp32 x)%R.

Definition round32_R (x : R) : R :=
  if Rle_dec 0 x then round32_pos x else (- round32_pos (- x))%R.

(** The cast of a float64 to float32. *)
Definition round32 (a : npfloat) : npfloat :=
  match a with
  | Fin x =>
      let y := round32_R x in
      if Rlt_dec (Rabs y) (bpow 128) then Fin y
      else if Rlt_dec 0 x then PInf else NInf
  | _ => a
  end.

(** [a.astype("float32")] *)
Definition astype_binary32 (a : ndarray npfloat) : ndarray npfloat :=
  amap round32 a.

(** ** binary64 *)

(** The least magnitude that rounds to an infinity in binary64:
    [2^1024 - 2^970]. *)
Definition overflow64 : R := ((2 - / 2 ^ 53) * 2 ^ 1023)%R.

(** The largest binary64 value, [sys.float_info.max]. *)
Definition max_float64 : R := ((2 - / 2 ^ 52) * 2 ^ 1023)%R.

(** The float64 that an operation of exact result [x] returns: its
    overflow is represented, its rounding is not. *)
Definition float64_of (x : R) : npfloat :=
  if Rle_dec overflow64 x then PInf
  else if Rle_dec x (- overflow64) then NInf
  else Fin x.

(** [a - b] on Python floats. *)
Definition py_sub (a b : npfloat) : npfloat :=
  match np_sub a b with
  | Fin x => float64_of x
  | r => r
  end.

(** [a / b] on Python floats: a zero divisor raises. *)
Definition py_truediv (a b : npfloat) : Result npfloat :=
  match b with
  | Fin y =>
      if Reqb y 0 then Raise (ZeroDivisionError "float division by zero")
      else Ok (match np_div a b with
               | Fin x => float64_of x
               | r => r
               end)
  | _ => Ok (np_div a b)
  end.

(** ** blend_wuhan_weights.py with the formats *)

(** A feature of the in-memory layer: its fields hold Python floats. *)
Definition Feature64 : Type := string -> option npfloat.

Definition GetField64 (feat : Feature64) (name : string) : option npfloat :=
  feat name.

(** The copy of [feat] in the in-memory layer after
    [SetField(name, v)]. *)
Definition SetField64 (feat : Feature) (name : string) (v : npfloat)
  : Feature64 :=
  fun n => if String.eqb n name then Some v else option_map Fin (feat n).

Definition Layer64 : Type := list Feature64.

Fixpoint for_features64 (l : Layer) (body : Feature -> Result Feature64)
  : Result Layer64 :=
  match l with
  | [] => Ok []
  | feat :: l' =>
      feat' <- body feat ;;
      rest <- for_features64 l' body ;;
      Ok (feat' :: rest)
  end.

(** [rasterize_hotspots] up to the call of [gdal.RasterizeLayer]: the
    subtractions and the division are Python's, and the Float32 band
    holds the fill value as a float32. *)
Definition rasterize_hotspots_fp (fs : filesystem) (vs : vector_store)
  (hotspots_path template_path value_field : string) (neutral_value : npfloat)
  : Result (Layer64 * Dataset (list npfloat)) :=
  base_ds <- _open_base_raster fs template_path ;;
  let gt := GeoTransform base_ds in
  let proj := Projection base_ds in
  let width := RasterXSize base_ds in
  let height := RasterYSize base_ds in
  layer <- match vs hotspots_path with
           | None => Raise (RuntimeError
                              ("Could not open hotspots: " ++ hotspots_path))
           | Some layer => Ok layer
           end ;;
  if Z.of_nat (List.length layer) =? 0
  then Raise (RuntimeError "Hotspots layer is empty.")
  else
    let values :=
      flat_map (fun feat =>
                  match GetField feat value_field with
                  | Some val => [val]
                  | None => []
                  end) layer in
    match values with
    | [] => Raise (RuntimeError
                     ("No values found in field " ++ value_field ++ "."))
    | _ :: _ =>
        vmin <- py_min values ;;
        vmax <- py_max values ;;
        let span := if negb (Reqb vmax vmin)
                    then py_sub (Fin vmax) (Fin vmin) else Fin 1 in
        mem_layer <-
          for_features64 layer (fun feat =>
            let raw := GetField feat value_field in
            raw_float <- py_float raw ;;
            norm <- py_truediv (py_sub (Fin raw_float) (Fin vmin)) span ;;
            Ok (SetField64 feat "WNORM" norm)) ;;
        let out_ds := Create width height in
        let out_ds := SetGeoTransform out_ds gt in
        let out_ds := SetProjection out_ds proj in
        let out_ds := SetNoDataValue out_ds (Some (Fin 0)) in
        let out_ds := Fill out_ds (round32 neutral_value) in
        Ok (mem_layer, out_ds)
    end.

(** The body of the tile loop of [blend_probabilities]: line 150 casts the
    blended block to float32, and line 151 stores the nodata value in the
    float32 block. *)
Definition blend_block_fp (base_band weight_band : band npfloat)
  (nodata : option npfloat) (strength neutral_value eps : npfloat)
  (x y cols rows : Z) : ndarray npfloat :=
  let base_arr := astype_float64 (ReadAsArray base_band x y cols rows) in
  let weight_arr := astype_float64 (ReadAsArray weight_band x y cols rows) in
  let mask := amap (eq_nodata nodata) base_arr in
  let base_arr :=
    amap (fun v => np_clip v eps (np_sub (Fin 1) eps)) base_arr in
  let weight_arr :=
    np_where_scalar (amap (fun v => np_gt v (Fin 0)) weight_arr)
                    weight_arr neutral_value in
  let logit :=
    amap np_log
         (amap2 np_div base_arr (amap (fun v => np_sub (Fin 1) v) base_arr)) in
  let shifted :=
    amap2 np_add logit
          (amap (fun v => np_mul strength (np_sub v neutral_value))
                weight_arr) in
  let blended :=
    amap (fun v => np_div (Fin 1) (np_add (Fin 1) (np_exp (np_neg v))))
         shifted in
  let blended := astype_binary32 blended in
  setitem_mask blended mask (round32 (nodata_value nodata)).

Definition blend_probabilities_fp (fs : filesystem)
  (base_path weight_path : string) (strength neutral_value eps : npfloat)
  : Result (Dataset (list npfloat)) :=
  base_ds <- _open_base_raster fs base_path ;;
  weight_ds <- _open_base_raster fs weight_path ;;
  let base_band := band1 base_ds in
  let gt := GeoTransform base_ds in
  let proj := Projection base_ds in
  let nodata := NoDataValue base_ds in
  let weight_band := band1 weight_ds in
  let w_gt := GeoTransform weight_ds in
  if negb (RasterXSize base_ds =? RasterXSize weight_ds)
     || negb (RasterYSize base_ds =? RasterYSize weight_ds)
  then Raise (RuntimeError "Weight raster grid does not match base raster.")
  else if negb (geotransform_eqb gt w_gt)
  then Raise (RuntimeError
                "Weight raster geotransform does not match base raster.")
  else
    let out_ds := Create (RasterXSize base_ds) (RasterYSize base_ds) in
    let out_ds := SetGeoTransform out_ds gt in
    let out_ds := SetProjection out_ds proj in
    let out_ds := SetNoDataValue out_ds nodata in
    let '(block_x, block_y) := BlockSize base_ds in
    let xsize := RasterXSize base_ds in
    let ysize := RasterYSize base_ds in
    ys <- py_range 0 ysize block_y ;;
    out_band <-
      for_each ys (fun out_band y =>
        let rows := Z.min block_y (ysize - y) in
        xs <- py_range 0 xsize block_x ;;
        for_each xs (fun out_band x =>
          let cols := Z.min block_x (xsize - x) in
          let blended :=
            blend_block_fp base_band weight_band nodata
                           strength neutral_value eps x y cols rows in
          Ok (WriteArray out_band blended x y)) out_band)
        (band1 out_ds) ;;
    Ok (set_band1 out_ds out_band).

(** What [blend_block_fp] computes for a base cell [p] and a weight cell
    [w]. *)
Definition blend_cell_fp (nodata : option npfloat)
  (strength neutral_value eps p w : npfloat) : npfloat :=
  round32 (blend_cell nodata strength neutral_value eps p w).

(** A weight cell on the scale of the weight raster: not above 1 (NaN
    and the cells that are not positive count as the neutral value). *)
Definition unit_weight (w : npfloat) : Prop :=
  match w with
  | Fin x => (x <= 1)%R
  | PInf => False
  | _ => True
  end.

(** ** build_p_terrain_masked_from_dem.py with the formats *)

(** The element type of a raster's array.  In [arr <= v] numpy converts
    the Python float [v] to the element type of [arr]. *)
Inductive dtype : Type := float32 | float64.

Definition as_dtype (d : dtype) (v : npfloat) : npfloat :=
  match d with
  | float32 => round32 v
  | float64 => v
  end.

(** The body of the window loop of [apply_mask], for covariate rasters of
    the element types [s_dtype], [h_dtype] and [d_dtype]; line 70 casts
    the selected probabilities to float32. *)
Definition mask_block_fp (p_band s_band h_band d_band : band npfloat)
  (s_dtype h_dtype d_dtype : dtype)
  (slope_max hand_max dist_max : npfloat)
  (col_off row_off win_w win_h : Z) : ndarray npfloat :=
  let p := ReadAsArray p_band col_off row_off win_w win_h in
  let slp := ReadAsArray s_band col_off row_off win_w win_h in
  let hd := ReadAsArray h_band col_off row_off win_w win_h in
  let dist := ReadAsArray d_band col_off row_off win_w win_h in
  let mask := amap (fun _ => true) p in
  let mask := amap2 andb mask (amap np_isfinite p) in
  let mask :=
    amap2 andb mask
          (amap2 andb (amap np_isfinite slp)
                 (amap (fun v => np_le v (as_dtype s_dtype slope_max)) slp)) in
  let mask :=
    amap2 andb mask
          (amap2 andb (amap np_isfinite hd)
                 (amap (fun v => np_le v (as_dtype h_dtype hand_max)) hd)) in
  let mask :=
    amap2 andb mask
          (amap2 andb (amap np_isfinite dist)
                 (amap (fun v => np_le v (as_dtype d_dtype dist_max)) dist)) in
  let out := amap (fun _ => Fin 0) p in
  setitem_mask_from out mask (astype_binary32 p).

Definition apply_mask_fp (fs : filesystem)
  (prob_path slope_path hand_path dist_path : string)
  (s_dtype h_dtype d_dtype : dtype)
  (slope_max hand_max dist_max : npfloat) (window : Z)
  : Result (Dataset (list npfloat)) :=
  p_src <- rasterio_open fs prob_path ;;
  s_src <- rasterio_open fs slope_path ;;
  h_src <- rasterio_open fs hand_path ;;
  d_src <- rasterio_open fs dist_path ;;
  let profile :=
    mk_Dataset (RasterXSize p_src) (RasterYSize p_src) (GeoTransform p_src)
               (Projection p_src) (Some (Fin 0)) (512, 512)
               (@empty_band npfloat) in
  let height := RasterYSize p_src in
  let width := RasterXSize p_src in
  row_offs <- py_range 0 height window ;;
  dst <-
    for_each row_offs (fun dst row_off =>
      let win_h := Z.min window (height - row_off) in
      col_offs <- py_range 0 width window ;;
      for_each col_offs (fun dst col_off =>
        let win_w := Z.min window (width - col_off) in
        let out :=
          mask_block_fp (band1 p_src) (band1 s_src) (band1 h_src)
                        (band1 d_src) s_dtype h_dtype d_dtype
                        slope_max hand_max dist_max
                        col_off row_off win_w win_h in
        Ok (WriteArray dst out col_off row_off)) dst)
      (band1 profile) ;;
  Ok (set_band1 profile dst).

(** What [mask_block_fp] computes for one cell of the four rasters. *)
Definition mask_cell_fp (s_dtype h_dtype d_dtype : dtype)
  (slope_max hand_max dist_max p slp hd dist : npfloat) : npfloat :=
  if true && np_isfinite p
     && (np_isfinite slp && np_le slp (as_dtype s_dtype slope_max))
     && (np_isfinite hd && np_le hd (as_dtype h_dtype hand_max))
     && (np_isfinite dist && np_le dist (as_dtype d_dtype dist_max))
  then round32 p else Fin 0.

(** ** The return code of a tool *)

(** Each tool method of [whitebox.WhiteboxTools] returns the return code
    of the run: 0 when the tool completed, 1 when it ended in an error, 2
    when it was cancelled.  [py_bool] is the truth value Python gives an
    integer, which is what [if not ok] tests. *)
Definition py_bool (code : Z) : bool := negb (code =? 0).

Definition completed (code : Z) : bool := code =? 0.

Section WhiteboxReturnCodes.
Variable world : Type.
Variable wbt_tool : world -> string -> kwargs -> Z * world.

(** The toolkit as [run_wbt] sees it. *)
Definition wbt_truth (w : world) (tool : string) (kw : kwargs)
  : bool * world :=
  let '(code, w') := wbt_tool w tool kw in (py_bool code, w').

(** The return code of the call [c] when made after the calls [pre]. *)
Definition return_code (w : world) (pre : list (string * kwargs))
  (c : string * kwargs) : Z :=
  fst (wbt_tool (world_after wbt_truth w pre) (fst c) (snd c)).
End WhiteboxReturnCodes.

Arguments wbt_truth {world} _ _ _ _.
Arguments return_code {world} _ _ _ _.

(** A toolkit in which every tool completes, and one in which every tool
    ends in an error; the world counts the calls made. *)
Definition example_wbt_completes (w : nat) (tool : string) (kw : kwargs)
  : Z * nat :=
  (0, S w).

Definition example_wbt_errors (w : nat) (tool : string) (kw : kwargs)
  : Z * nat :=
  (1, S w).

(** A layer whose two attribute values are the largest float64 and its
    opposite. *)
Definition example_layer_extreme : Layer :=
  [feature_with "RVALUE" (Some max_float64);
   feature_with "RVALUE" (Some (- max_float64)%R)].

Definition example_vs_extreme : vector_store :=
  fun path =>
    if String.eqb path "extreme.shp" then Some example_layer_extreme
    else example_vs path.

Section RasterizeFP.
(** [gdal.RasterizeLayer(out_ds, [1], mem_layer, options)] on the in-memory
    layer: the content of band 1 after the burn. *)
Variable RasterizeLayer64 :
  Dataset (list npfloat) -> Layer64 -> band (list npfloat).

Definition rasterize_hotspots_to_file_fp (fs : filesystem) (vs : vector_store)
  (hotspots_path template_path out_path value_field : string)
  (neutral_value : npfloat) : Result filesystem :=
  prepared <- rasterize_hotspots_fp fs vs hotspots_path template_path
                                    value_field neutral_value ;;
  let '(mem_layer, out_ds) := prepared in
  let out_ds := set_band1 out_ds (RasterizeLayer64 out_ds mem_layer) in
  Ok (fs_write fs out_path (stored out_ds)).

End RasterizeFP.

(** A burn that touches the cell (1,2) only. *)
Definition example_burn64 (ds : Dataset (list npfloat)) (layer : Layer64)
  : band (list npfloat) :=
  fun x y =>
    if (x =? 1) && (y =? 2) then band1 ds x y ++ [Fin 1] else band1 ds x y.

(** * Properties *)

Lemma item_blend_block base_band weight_band nodata strength neutral_value eps
  x y cols rows i j :
  item (blend_block base_band weight_band nodata strength neutral_value eps
                    x y cols rows) i j
  = blend_cell nodata strength neutral_value eps
               (base_band (x + j) (y + i)) (weight_band (x + j) (y + i)).
Proof. reflexivity. Qed.

Lemma item_mask_block p_band s_band h_band d_band slope_max hand_max dist_max
  col_off row_off win_w win_h i j :
  item (mask_block p_band s_band h_band d_band slope_max hand_max dist_max
                   col_off row_off win_w win_h) i j
  = mask_cell slope_max hand_max dist_max
              (p_band (col_off + j) (row_off + i))
              (s_band (col_off + j) (row_off + i))
              (h_band (col_off + j) (row_off + i))
              (d_band (col_off + j) (row_off + i)).
Proof. reflexivity. Qed.

(** ** Tiled loops *)

Lemma for_each_Ok {S : Type} (F : S -> Z -> S) (l : list Z) (s : S) :
  for_each l (fun s i => Ok (F s i)) s = Ok (fold_left F l s).
Proof.
  revert s; induction l as [|i l IH]; intros s; simpl; [reflexivity|].
  apply IH.
Qed.

Lemma for_each_ext {S : Type} (f g : S -> Z -> Result S) (l : list Z) (s : S) :
  (forall s i, f s i = g s i) -> for_each l f s = for_each l g s.
Proof.
  intros E; revert s; induction l as [|i l IH]; intros s; simpl; [reflexivity|].
  rewrite E. destruct (g s i); simpl; [apply IH | reflexivity].
Qed.

Lemma py_range_pos stop step :
  0 < step -> py_range 0 stop step = Ok (offsets stop step).
Proof.
  intros H. unfold py_range, offsets.
  destruct (Z.eqb_spec step 0); [lia|].
  destruct (Z.ltb_spec 0 step); [reflexivity | lia].
Qed.

Ltac bool_cases :=
  repeat (cbn [andb orb negb];
          match goal with
          | |- context [?a <=? ?b] => destruct (Z.leb_spec a b)
          | |- context [?a <? ?b] => destruct (Z.ltb_spec a b)
          end);
  cbn [andb orb negb]; try rewrite app_nil_r; try reflexivity; try lia.

Section OneAxis.
Context {S A : Type}.
Variable obs : S -> list A.
Variable W : S -> Z -> S.
Variables step stop c : Z.
Variable other : bool.
Variable v : A.
Hypothesis step_pos : 0 < step.
Hypothesis W_obs : forall s o,
    obs (W s o)
    = obs s ++ (if other && (o <=? c) && (c <? o + Z.min step (stop - o))
                then [v] else []).

Lemma fold_offsets_from (m a : nat) (s : S) :
  obs (fold_left W (map (fun k => 0 + Z.of_nat k * step) (seq a m)) s)
  = obs s ++ (if other && (Z.of_nat a * step <=? c)
                 && (c <? Z.min (Z.of_nat (a + m) * step) stop)
              then [v] else []).
Proof.
  revert a s; induction m as [|m IH]; intros a s.
  - simpl. rewrite Nat.add_0_r. destruct other; bool_cases.
  - cbn [seq map fold_left]. rewrite IH, W_obs, <- app_assoc. f_equal.
    replace (Z.of_nat (Datatypes.S a + m)) with (Z.of_nat (a + Datatypes.S m))
      by lia.
    replace (Z.of_nat (Datatypes.S a) * step)
      with (Z.of_nat a * step + step) by lia.
    assert (Z.of_nat a * step + step <= Z.of_nat (a + Datatypes.S m) * step)
      by nia.
    simpl (0 + _).
    destruct other; simpl; [|reflexivity].
    generalize dependent (Z.of_nat (a + Datatypes.S m) * step).
    generalize (Z.of_nat a * step).
    intros lo hi Hle. bool_cases.
Qed.

Lemma fold_offsets (s : S) :
  obs (fold_left W (offsets stop step) s)
  = obs s ++ (if other && (0 <=? c) && (c <? stop) then [v] else []).
Proof.
  unfold offsets. rewrite fold_offsets_from. f_equal.
  rewrite Z.sub_0_r. simpl (Z.of_nat 0 * step). simpl (0 + _)%nat.
  destruct other; simpl; [|reflexivity].
  destruct (Z.leb_spec 0 c); simpl; [|reflexivity].
  assert (Hm : c < stop -> c < Z.of_nat (Z.to_nat ((stop + step - 1) / step)) * step).
  { intros Hc.
    assert (0 <= (stop + step - 1) / step) by (apply Z.div_pos; lia).
    rewrite Z2Nat.id by assumption.
    pose proof (Z.mul_succ_div_gt (stop + step - 1) step step_pos). lia. }
  bool_cases.
Qed.
End OneAxis.

Section Tiled.
Context {A : Type}.
Variable blk : Z -> Z -> Z -> Z -> ndarray A.
Variable g : Z -> Z -> A.
Hypothesis blk_rows : forall x y c r, shape_rows (blk x y c r) = r.
Hypothesis blk_cols : forall x y c r, shape_cols (blk x y c r) = c.
Hypothesis blk_item :
  forall x y c r i j, item (blk x y c r) i j = g (x + j) (y + i).
Variables xsize ysize block_x block_y : Z.

Local Abbreviation tiled_loop := (tiled_loop blk xsize ysize block_x block_y).
Local Abbreviation write_tile := (write_tile blk xsize ysize block_x block_y).
Local Abbreviation write_row := (write_row blk xsize ysize block_x block_y).

Lemma write_tile_cell y out x cx cy :
  write_tile y out x cx cy
  = out cx cy
    ++ (if ((y <=? cy) && (cy <? y + Z.min block_y (ysize - y)))
           && (x <=? cx) && (cx <? x + Z.min block_x (xsize - x))
        then [g cx cy] else []).
Proof.
  unfold write_tile, WriteArray, in_window.
  rewrite blk_rows, blk_cols, blk_item.
  replace (x + (cx - x)) with cx by lia.
  replace (y + (cy - y)) with cy by lia.
  bool_cases.
Qed.

Hypothesis block_x_pos : 0 < block_x.
Hypothesis block_y_pos : 0 < block_y.

Lemma write_row_cell out y cx cy :
  write_row out y cx cy
  = out cx cy
    ++ (if ((0 <=? cx) && (cx <? xsize))
           && (y <=? cy) && (cy <? y + Z.min block_y (ysize - y))
        then [g cx cy] else []).
Proof.
  unfold write_row.
  rewrite (fold_offsets (fun b : band (list A) => b cx cy) (write_tile y)
             block_x xsize cx
             ((y <=? cy) && (cy <? y + Z.min block_y (ysize - y)))
             (g cx cy) block_x_pos).
  - f_equal. bool_cases.
  - intros s o. apply write_tile_cell.
Qed.

Lemma tiled_loop_fold out :
  tiled_loop out = Ok (fold_left write_row (offsets ysize block_y) out).
Proof.
  unfold tiled_loop. rewrite py_range_pos by assumption. simpl.
  rewrite <- for_each_Ok. apply for_each_ext. intros s y.
  rewrite py_range_pos by assumption. simpl.
  apply for_each_Ok.
Qed.

(** Every cell of the grid receives exactly one value, the one [g] gives
    for it, and no cell outside the grid is touched. *)
Lemma tiled_loop_cell out :
  exists out',
    tiled_loop out = Ok out' /\
    forall x y,
      out' x y
      = out x y ++ (if in_grid xsize ysize x y then [g x y] else []).
Proof.
  eexists. split; [apply tiled_loop_fold|]. intros cx cy.
  rewrite (fold_offsets (fun b : band (list A) => b cx cy) write_row
             block_y ysize cy ((0 <=? cx) && (cx <? xsize))
             (g cx cy) block_y_pos).
  - reflexivity.
  - intros s o. apply write_row_cell.
Qed.
End Tiled.

(** ** The two windowed transforms, cell by cell *)

Lemma Reqb_true_iff (x y : R) : Reqb x y = true <-> x = y.
Proof.
  unfold Reqb. destruct (Req_dec_T x y); split; intros; congruence.
Qed.

Lemma Rleb_true_iff (x y : R) : Rleb x y = true <-> (x <= y)%R.
Proof.
  unfold Rleb. destruct (Rle_dec x y); split; intros; try congruence; tauto.
Qed.

Lemma geotransform_eqb_true_iff (g h : geotransform) :
  geotransform_eqb g h = true <-> g = h.
Proof.
  destruct g as [[[[[a0 a1] a2] a3] a4] a5].
  destruct h as [[[[[b0 b1] b2] b3] b4] b5].
  unfold geotransform_eqb. rewrite !andb_true_iff, !Reqb_true_iff.
  split.
  - intros [[[[[-> ->] ->] ->] ->] ->]. reflexivity.
  - intros E. inversion E. tauto.
Qed.

(** On aligned inputs [blend_probabilities] returns a dataset with the base
    raster's metadata in which every cell of the grid was written once,
    with the value [blend_cell] gives, and no other cell was written. *)
Lemma blend_probabilities_cells fs base_path weight_path base_ds weight_ds
  strength neutral_value eps :
  blend_inputs fs base_path weight_path base_ds weight_ds ->
  exists out_band,
    blend_probabilities fs base_path weight_path strength neutral_value eps
    = Ok (mk_Dataset (RasterXSize base_ds) (RasterYSize base_ds)
                     (GeoTransform base_ds) (Projection base_ds)
                     (NoDataValue base_ds) (256, 256) out_band) /\
    forall x y,
      out_band x y
      = if in_grid (RasterXSize base_ds) (RasterYSize base_ds) x y
        then [blend_cell (NoDataValue base_ds) strength neutral_value eps
                         (band1 base_ds x y) (band1 weight_ds x y)]
        else [].
Proof.
  intros (Hb & Hw & HX & HY & Hgt & Hbx & Hby & _).
  unfold blend_probabilities, _open_base_raster. rewrite Hb, Hw. cbn [bind].
  rewrite <- HX, <- HY, !Z.eqb_refl. cbn [negb orb].
  replace (geotransform_eqb (GeoTransform base_ds) (GeoTransform weight_ds))
    with true by (symmetry; apply geotransform_eqb_true_iff; exact Hgt).
  cbn [negb]. destruct (BlockSize base_ds) as [block_x block_y].
  cbn [fst snd] in Hbx, Hby.
  destruct (tiled_loop_cell
              (blend_block (band1 base_ds) (band1 weight_ds)
                           (NoDataValue base_ds) strength neutral_value eps)
              (fun x y => blend_cell (NoDataValue base_ds) strength
                                     neutral_value eps
                                     (band1 base_ds x y) (band1 weight_ds x y))
              (fun _ _ _ _ => eq_refl) (fun _ _ _ _ => eq_refl)
              (item_blend_block (band1 base_ds) (band1 weight_ds)
                                (NoDataValue base_ds) strength neutral_value
                                eps)
              (RasterXSize base_ds) (RasterYSize base_ds) block_x block_y
              Hbx Hby empty_band) as (out' & Hrun & Hcells).
  exists out'. split; [|exact Hcells].
  unfold tiled_loop in Hrun. rewrite py_range_pos in Hrun by assumption.
  cbn [bind] in Hrun.
  cbn [Create SetGeoTransform SetProjection SetNoDataValue band1 RasterXSize
       RasterYSize GeoTransform Projection NoDataValue BlockSize set_band1].
  rewrite py_range_pos by assumption. cbn [bind].
  rewrite Hrun. reflexivity.
Qed.

Lemma apply_mask_cells fs prob_path slope_path hand_path dist_path
  p_src s_src h_src d_src slope_max hand_max dist_max window :
  mask_inputs fs prob_path slope_path hand_path dist_path
              p_src s_src h_src d_src ->
  0 < window ->
  exists dst,
    apply_mask fs prob_path slope_path hand_path dist_path
               slope_max hand_max dist_max window
    = Ok (mk_Dataset (RasterXSize p_src) (RasterYSize p_src)
                     (GeoTransform p_src) (Projection p_src)
                     (Some (Fin 0)) (512, 512) dst) /\
    forall x y,
      dst x y
      = if in_grid (RasterXSize p_src) (RasterYSize p_src) x y
        then [mask_cell slope_max hand_max dist_max
                        (band1 p_src x y) (band1 s_src x y)
                        (band1 h_src x y) (band1 d_src x y)]
        else [].
Proof.
  intros (Hp & Hs & Hh & Hd & _) Hwin.
  unfold apply_mask, rasterio_open. rewrite Hp, Hs, Hh, Hd. cbn [bind].
  destruct (tiled_loop_cell
              (mask_block (band1 p_src) (band1 s_src) (band1 h_src)
                          (band1 d_src) slope_max hand_max dist_max)
              (fun x y => mask_cell slope_max hand_max dist_max
                                    (band1 p_src x y) (band1 s_src x y)
                                    (band1 h_src x y) (band1 d_src x y))
              (fun _ _ _ _ => eq_refl) (fun _ _ _ _ => eq_refl)
              (item_mask_block (band1 p_src) (band1 s_src) (band1 h_src)
                               (band1 d_src) slope_max hand_max dist_max)
              (RasterXSize p_src) (RasterYSize p_src) window window
              Hwin Hwin empty_band) as (out' & Hrun & Hcells).
  exists out'. split; [|exact Hcells].
  unfold tiled_loop in Hrun. rewrite py_range_pos in Hrun by assumption.
  cbn [bind] in Hrun.
  cbn [band1 RasterXSize RasterYSize GeoTransform Projection NoDataValue
       BlockSize set_band1].
  rewrite py_range_pos by assumption. cbn [bind].
  rewrite Hrun. reflexivity.
Qed.

(** ** The logistic function *)

Lemma exp_neg_double (x y a b a' b' : R) :
  (y = 2 * x)%R -> (0 <= a)%R ->
  (a <= exp (- x) <= b)%R -> (a' <= a * a)%R -> (b * b <= b')%R ->
  (a' <= exp (- y) <= b')%R.
Proof.
  intros -> Ha [Hl Hu] Ha' Hb'.
  replace (- (2 * x))%R with (- x + - x)%R by lra. rewrite exp_plus.
  pose proof (exp_pos (- x)).
  split.
  - apply Rle_trans with (a * a)%R; [assumption|].
    apply Rmult_le_compat; assumption.
  - apply Rle_trans with (b * b)%R; [|assumption].
    apply Rmult_le_compat; lra.
Qed.

(** [exp (-1)] to five decimals, from [1 + x <= exp x] at [x = -1/32768]
    and [x = 1/32768] and fifteen squarings. *)
Lemma exp_minus_1_bounds : (0.36787 < exp (- (1)) < 0.36789)%R.
Proof.
  assert (H0 : ((4999847412109 / 5000000000000) <= exp (- (1 / 32768)) <= (2499923708383 / 2500000000000))%R).
  { split.
    - pose proof (exp_ineq1_le (- (1 / 32768))). lra.
    - rewrite exp_Ropp. pose proof (exp_ineq1_le (1 / 32768)).
      apply Rle_trans with (/ (1 + 1 / 32768))%R; [|lra].
      apply Rinv_le_contravar; lra. }
  pose proof (exp_neg_double (1 / 32768) (1 / 16384)
                (4999847412109 / 5000000000000) (2499923708383 / 2500000000000)
                (9999389657749 / 10000000000000) (9999389676377 / 10000000000000)
                ltac:(lra) ltac:(lra) H0 ltac:(lra) ltac:(lra)) as H1.
  pose proof (exp_neg_double (1 / 16384) (1 / 8192)
                (9999389657749 / 10000000000000) (9999389676377 / 10000000000000)
                (9998779352749 / 10000000000000) (2499694847501 / 2500000000000)
                ltac:(lra) ltac:(lra) H1 ltac:(lra) ltac:(lra)) as H2.
  pose proof (exp_neg_double (1 / 8192) (1 / 4096)
                (9998779352749 / 10000000000000) (2499694847501 / 2500000000000)
                (1999511770899 / 2000000000000) (9997558928997 / 10000000000000)
                ltac:(lra) ltac:(lra) H2 ltac:(lra) ltac:(lra)) as H3.
  pose proof (exp_neg_double (1 / 4096) (1 / 2048)
                (1999511770899 / 2000000000000) (9997558928997 / 10000000000000)
                (9995118304909 / 10000000000000) (9995118453877 / 10000000000000)
                ltac:(lra) ltac:(lra) H3 ltac:(lra) ltac:(lra)) as H4.
  pose proof (exp_neg_double (1 / 2048) (1 / 1024)
                (9995118304909 / 10000000000000) (9995118453877 / 10000000000000)
                (624389937057 / 625000000000) (624389955669 / 625000000000)
                ltac:(lra) ltac:(lra) H4 ltac:(lra) ltac:(lra)) as H5.
  pose proof (exp_neg_double (1 / 1024) (1 / 512)
                (624389937057 / 625000000000) (624389955669 / 625000000000)
                (9980487513549 / 10000000000000) (9980488108553 / 10000000000000)
                ltac:(lra) ltac:(lra) H5 ltac:(lra) ltac:(lra)) as H6.
  pose proof (exp_neg_double (1 / 512) (1 / 256)
                (9980487513549 / 10000000000000) (9980488108553 / 10000000000000)
                (996101310081 / 1000000000000) (9961014288497 / 10000000000000)
                ltac:(lra) ltac:(lra) H6 ltac:(lra) ltac:(lra)) as H7.
  pose proof (exp_neg_double (1 / 256) (1 / 128)
                (996101310081 / 1000000000000) (9961014288497 / 10000000000000)
                (198443563989 / 200000000000) (1984436113113 / 2000000000000)
                ltac:(lra) ltac:(lra) H7 ltac:(lra) ltac:(lra)) as H8.
  pose proof (exp_neg_double (1 / 128) (1 / 64)
                (198443563989 / 200000000000) (1984436113113 / 2000000000000)
                (2461240505541 / 2500000000000) (76913802481 / 78125000000)
                ltac:(lra) ltac:(lra) H8 ltac:(lra) ltac:(lra)) as H9.
  pose proof (exp_neg_double (1 / 64) (1 / 32)
                (2461240505541 / 2500000000000) (76913802481 / 78125000000)
                (1938465544357 / 2000000000000) (9692336967003 / 10000000000000)
                ltac:(lra) ltac:(lra) H9 ltac:(lra) ltac:(lra)) as H10.
  pose proof (exp_neg_double (1 / 32) (1 / 16)
                (1938465544357 / 2000000000000) (9692336967003 / 10000000000000)
                (1174265208331 / 1250000000000) (4697069794097 / 5000000000000)
                ltac:(lra) ltac:(lra) H10 ltac:(lra) ltac:(lra)) as H11.
  pose proof (exp_neg_double (1 / 16) (1 / 8)
                (1174265208331 / 1250000000000) (4697069794097 / 5000000000000)
                (4412476094389 / 5000000000000) (1103123232531 / 1250000000000)
                ltac:(lra) ltac:(lra) H11 ltac:(lra) ltac:(lra)) as H12.
  pose proof (exp_neg_double (1 / 8) (1 / 4)
                (4412476094389 / 5000000000000) (1103123232531 / 1250000000000)
                (7787978113421 / 10000000000000) (3894018771679 / 5000000000000)
                ltac:(lra) ltac:(lra) H12 ltac:(lra) ltac:(lra)) as H13.
  pose proof (exp_neg_double (1 / 4) (1 / 2)
                (7787978113421 / 10000000000000) (3894018771679 / 5000000000000)
                (758157538689 / 1250000000000) (1516338219419 / 2500000000000)
                ltac:(lra) ltac:(lra) H13 ltac:(lra) ltac:(lra)) as H14.
  pose proof (exp_neg_double (1 / 2) (1 / 1)
                (758157538689 / 1250000000000) (1516338219419 / 2500000000000)
                (1839369131107 / 5000000000000) (1839425276537 / 5000000000000)
                ltac:(lra) ltac:(lra) H14 ltac:(lra) ltac:(lra)) as H15.
  replace (1 / 1)%R with 1%R in H15 by lra. lra.
Qed.

Lemma inverse_between (d lo hi : R) :
  (0 < d)%R -> (lo * d < 1)%R -> (1 < hi * d)%R -> (lo < 1 / d < hi)%R.
Proof.
  intros Hd Hlo Hhi.
  assert (E : (1 / d * d = 1)%R) by (field; lra).
  split; apply Rmult_lt_reg_r with d; lra.
Qed.

Lemma sigmoid_range (x : R) : (0 < sigmoid x < 1)%R.
Proof.
  unfold sigmoid. pose proof (exp_pos (- x)) as He.
  apply inverse_between; lra.
Qed.

Lemma sigmoid_increasing (x y : R) : (x < y)%R -> (sigmoid x < sigmoid y)%R.
Proof.
  intros Hxy. unfold sigmoid.
  pose proof (exp_pos (- x)). pose proof (exp_pos (- y)).
  assert (exp (- y) < exp (- x))%R by (apply exp_increasing; lra).
  unfold Rdiv. rewrite !Rmult_1_l.
  apply Rinv_lt_contravar; [|lra].
  apply Rmult_lt_0_compat; lra.
Qed.



Lemma Rclamp_range (p e : R) :
  (0 < e < 1)%R -> (0 < Rclamp p e (1 - e) < 1)%R.
Proof.
  intros [H0 H1]. unfold Rclamp, Rmin, Rmax.
  destruct (Rle_dec p e); destruct (Rle_dec _ _); lra.
Qed.

Lemma Rclamp_id (p e : R) :
  (e <= p <= 1 - e)%R -> Rclamp p e (1 - e) = p.
Proof.
  intros [H0 H1]. unfold Rclamp, Rmin, Rmax.
  destruct (Rle_dec p e); destruct (Rle_dec _ _); lra.
Qed.

Lemma np_clip_fin (p lo hi : R) :
  np_clip (Fin p) (Fin lo) (Fin hi) = Fin (Rclamp p lo hi).
Proof.
  unfold np_clip, Rclamp, np_maximum, np_minimum, np_lt, Rltb, Rmin, Rmax.
  destruct (Rlt_dec p lo); destruct (Rle_dec p lo); try lra;
    destruct (Rlt_dec hi _); destruct (Rle_dec _ hi); try lra;
    f_equal; lra.
Qed.

Lemma np_sigmoid_fin (x : R) : np_sigmoid (Fin x) = Fin (sigmoid x).
Proof.
  unfold np_sigmoid, sigmoid. cbn [np_neg np_exp np_add np_div].
  pose proof (exp_pos (- x)).
  unfold Reqb. destruct (Req_dec_T _ _); [lra | reflexivity].
Qed.

Lemma np_logit_fin (q : R) :
  (0 < q < 1)%R -> np_logit (Fin q) = Fin (logit q).
Proof.
  intros [H0 H1]. unfold np_logit, logit, np_sub. cbn [np_neg np_add np_div].
  unfold Reqb. destruct (Req_dec_T _ _); [lra|].
  cbn [np_log]. fold (1 - q)%R.
  assert (Hr : (0 < q / (1 - q))%R) by (apply Rdiv_lt_0_compat; lra).
  unfold Rltb. destruct (Rlt_dec _ _); [reflexivity | contradiction].
Qed.

(** On finite values, with [eps] strictly between 0 and 1, numpy's
    arithmetic computes the real formula. *)
Lemma blend_formula_np_fin (s n e p w : R) :
  (0 < e < 1)%R ->
  blend_formula_np (Fin s) (Fin n) (Fin e) (Fin p) (Fin w)
  = Fin (blend_formula s n e p w).
Proof.
  intros He. unfold blend_formula_np, blend_formula.
  change (np_sub (Fin 1) (Fin e)) with (Fin (1 - e)).
  rewrite np_clip_fin, np_logit_fin by (apply Rclamp_range; exact He).
  assert (Hw : (if np_gt (Fin w) (Fin 0) then Fin w else Fin n)
               = Fin (effective_weight w n)).
  { unfold np_gt, np_lt, effective_weight. destruct (Rltb 0 w); reflexivity. }
  rewrite Hw.
  change (np_sub (Fin (effective_weight w n)) (Fin n))
    with (Fin (effective_weight w n - n)).
  cbn [np_mul np_add]. apply np_sigmoid_fin.
Qed.

(** ** Rounding to binary32 *)

Local Open Scope R_scope.

Lemma bpow_pos e : 0 < bpow e.
Proof. apply powerRZ_lt; lra. Qed.

Lemma bpow_add a b : bpow (a + b) = bpow a * bpow b.
Proof. apply powerRZ_add; lra. Qed.

Lemma bpow_Rpower e : bpow e = Rpower 2 (IZR e).
Proof. apply powerRZ_Rpower; lra. Qed.

Lemma bpow_lt a b : (a < b)%Z -> bpow a < bpow b.
Proof.
  intros H. rewrite !bpow_Rpower. apply Rpower_lt; [lra | now apply IZR_lt].
Qed.

Lemma bpow_le a b : (a <= b)%Z -> bpow a <= bpow b.
Proof.
  intros H. destruct (Z.eq_dec a b) as [-> | N]; [lra |].
  left; apply bpow_lt; lia.
Qed.

Lemma bpow_lt_inv a b : bpow a < bpow b -> (a < b)%Z.
Proof.
  intros H. destruct (Z_lt_le_dec a b) as [L | L]; [exact L |].
  apply bpow_le in L. lra.
Qed.

Lemma bpow_0 : bpow 0 = 1.
Proof. reflexivity. Qed.

Lemma bpow_IZR k : (0 <= k)%Z -> bpow k = IZR (2 ^ k).
Proof.
  intros H. unfold bpow. rewrite <- (Z2Nat.id k H).
  rewrite <- pow_powerRZ. apply pow_IZR.
Qed.

Lemma bpow_opp e : bpow (- e) = / bpow e.
Proof. apply powerRZ_neg'. Qed.

Lemma Rfloor_spec x : IZR (Rfloor x) <= x < IZR (Rfloor x) + 1.
Proof.
  unfold Rfloor. destruct (archimed x) as [A B]. rewrite minus_IZR. lra.
Qed.

Lemma Rfloor_unique x z : IZR z <= x < IZR z + 1 -> Rfloor x = z.
Proof.
  intros [A B]. unfold Rfloor.
  assert (E : (z + 1)%Z = up x).
  { apply tech_up; rewrite plus_IZR; lra. }
  lia.
Qed.

Lemma Rfloor_le x y : x <= y -> (Rfloor x <= Rfloor y)%Z.
Proof.
  intros H. destruct (Rfloor_spec x) as [A B], (Rfloor_spec y) as [C D].
  assert (IZR (Rfloor x) < IZR (Rfloor y) + 1) by lra.
  rewrite <- plus_IZR in H0. apply lt_IZR in H0. lia.
Qed.

Lemma rne_spec x :
  (rne x = Rfloor x \/ rne x = Rfloor x + 1)%Z.
Proof.
  unfold rne. destruct (Rlt_dec _ _); [now left |].
  destruct (Rlt_dec _ _); [now right |].
  destruct (Z.even _); [now left | now right].
Qed.

Lemma rne_IZR z : rne (IZR z) = z.
Proof.
  assert (F : Rfloor (IZR z) = z) by (apply Rfloor_unique; lra).
  unfold rne. rewrite F. destruct (Rlt_dec _ _) as [_ | N]; [reflexivity |].
  exfalso; apply N; lra.
Qed.

Lemma rne_le x y : x <= y -> (rne x <= rne y)%Z.
Proof.
  intros H. pose proof (Rfloor_le x y H) as FL.
  destruct (Z.eq_dec (Rfloor x) (Rfloor y)) as [E | N].
  - destruct (Rfloor_spec x) as [A _]. unfold rne. cbv zeta. rewrite E in *.
    repeat destruct (Rlt_dec _ _); try lia; try (exfalso; lra);
      destruct (Z.even _); lia.
  - destruct (rne_spec x), (rne_spec y); lia.
Qed.

Lemma rne_ge z x : IZR z <= x -> (z <= rne x)%Z.
Proof. intros H. rewrite <- (rne_IZR z). now apply rne_le. Qed.

Lemma rne_le_int z x : x <= IZR z -> (rne x <= z)%Z.
Proof. intros H. rewrite <- (rne_IZR z). now apply rne_le. Qed.

Lemma ln_2_pos : 0 < ln 2.
Proof. rewrite <- ln_1. apply ln_increasing; lra. Qed.

Lemma Rpower_2_log x : 0 < x -> Rpower 2 (ln x / ln 2) = x.
Proof.
  intros H. unfold Rpower. pose proof ln_2_pos.
  replace (ln x / ln 2 * ln 2) with (ln x) by (field; lra).
  now apply exp_ln.
Qed.

Lemma mag_spec x : 0 < x -> bpow (mag x - 1) <= x < bpow (mag x).
Proof.
  intros H. unfold mag. set (r := ln x / ln 2).
  destruct (archimed r) as [A B].
  pose proof (Rpower_2_log x H) as E. fold r in E.
  rewrite !bpow_Rpower, minus_IZR. split.
  - apply Rle_trans with (Rpower 2 r); [apply Rle_Rpower; lra | rewrite E; lra].
  - apply Rle_lt_trans with (Rpower 2 r); [rewrite E; lra | apply Rpower_lt; lra].
Qed.

Lemma mag_unique x e : bpow (e - 1) <= x < bpow e -> mag x = e.
Proof.
  intros [A B]. assert (P : 0 < x) by (pose proof (bpow_pos (e - 1)); lra).
  destruct (mag_spec x P) as [C D].
  assert (bpow (e - 1) < bpow (mag x)) by lra.
  assert (bpow (mag x - 1) < bpow e) by lra.
  apply bpow_lt_inv in H, H0. lia.
Qed.

Lemma mag_le x y : 0 < x -> x <= y -> (mag x <= mag y)%Z.
Proof.
  intros P H. destruct (mag_spec x P) as [A B].
  destruct (mag_spec y) as [C D]; [lra |].
  assert (bpow (mag x - 1) < bpow (mag y)) by lra.
  apply bpow_lt_inv in H0. lia.
Qed.

Lemma ulp32_pos x : 0 < ulp32 x.
Proof. apply bpow_pos. Qed.

Lemma round32_pos_0 : round32_pos 0 = 0.
Proof.
  unfold round32_pos. replace (0 / ulp32 0) with (IZR 0) by (unfold Rdiv; ring).
  rewrite rne_IZR. ring.
Qed.

Lemma round32_pos_nonneg x : 0 <= x -> 0 <= round32_pos x.
Proof.
  intros H. unfold round32_pos. pose proof (ulp32_pos x).
  apply Rmult_le_pos; [| lra].
  apply IZR_le. apply rne_ge.
  apply Rmult_le_pos; [lra |]. left; now apply Rinv_0_lt_compat.
Qed.

(** A value between 2^(e-1) and 2^e stays between them; below the
   normal range the result is at most the larger of 2^e and the least
   positive value *)
Lemma round32_pos_upper x :
  0 < x -> round32_pos x <= bpow (Z.max (mag x) (-149)).
Proof.
  intros P. destruct (mag_spec x P) as [A B].
  unfold round32_pos, ulp32. set (e := mag x) in *.
  set (fe := Z.max (e - 24) (-149)).
  pose proof (bpow_pos fe) as U.
  assert (S : x / bpow fe < bpow (e - fe)).
  { replace (e - fe)%Z with (e + - fe)%Z by lia.
    rewrite bpow_add, bpow_opp. unfold Rdiv.
    apply Rmult_lt_compat_r; [now apply Rinv_0_lt_compat | exact B]. }
  destruct (Z_le_gt_dec fe e) as [L | G].
  - rewrite (bpow_IZR (e - fe)) in S by lia.
    assert (R : (rne (x / bpow fe) <= 2 ^ (e - fe))%Z) by (apply rne_le_int; lra).
    apply IZR_le in R. rewrite <- (bpow_IZR (e - fe)) in R by lia.
    replace (Z.max e (-149)) with ((e - fe) + fe)%Z by lia.
    rewrite bpow_add. apply Rmult_le_compat_r; lra.
  - assert (S1 : x / bpow fe < 1).
    { apply Rlt_trans with (1 := S). rewrite <- bpow_0. apply bpow_lt; lia. }
    assert (R : (rne (x / bpow fe) <= 1)%Z) by (apply rne_le_int; lra).
    apply IZR_le in R.
    apply Rle_trans with (1 * bpow fe).
    + apply Rmult_le_compat_r; lra.
    + rewrite Rmult_1_l. apply bpow_le; lia.
Qed.

Lemma round32_pos_lower x :
  0 < x -> (-149 <= mag x - 24)%Z -> bpow (mag x - 1) <= round32_pos x.
Proof.
  intros P N. destruct (mag_spec x P) as [A B].
  unfold round32_pos, ulp32. set (e := mag x) in *.
  replace (Z.max (e - 24) (-149)) with (e - 24)%Z by lia.
  pose proof (bpow_pos (e - 24)) as U.
  assert (S : bpow 23 <= x / bpow (e - 24)).
  { replace 23%Z with ((e - 1) + - (e - 24))%Z by lia.
    rewrite bpow_add, bpow_opp. unfold Rdiv.
    apply Rmult_le_compat_r; [left; now apply Rinv_0_lt_compat | exact A]. }
  rewrite (bpow_IZR 23) in S by lia.
  apply rne_ge in S. apply IZR_le in S. rewrite <- (bpow_IZR 23) in S by lia.
  replace (e - 1)%Z with (23 + (e - 24))%Z by lia.
  rewrite bpow_add. apply Rmult_le_compat_r; lra.
Qed.

Lemma round32_pos_le x y : 0 <= x -> x <= y -> round32_pos x <= round32_pos y.
Proof.
  intros P H. destruct (Req_dec x 0) as [-> | NZ].
  { rewrite round32_pos_0. apply round32_pos_nonneg; lra. }
  assert (Px : 0 < x) by lra. assert (Py : 0 < y) by lra.
  pose proof (mag_le x y Px H) as M.
  destruct (Z.eq_dec (Z.max (mag x - 24) (-149)) (Z.max (mag y - 24) (-149)))
    as [E | N].
  - unfold round32_pos, ulp32. rewrite E.
    set (u := bpow _). assert (U : 0 < u) by apply bpow_pos.
    apply Rmult_le_compat_r; [lra |]. apply IZR_le, rne_le.
    unfold Rdiv. apply Rmult_le_compat_r; [left; now apply Rinv_0_lt_compat | exact H].
  - apply Rle_trans with (1 := round32_pos_upper x Px).
    apply Rle_trans with (2 := round32_pos_lower y Py ltac:(lia)).
    apply bpow_le; lia.
Qed.

Lemma round32_R_nonneg x : 0 <= x -> round32_R x = round32_pos x.
Proof. intros H. unfold round32_R. destruct (Rle_dec 0 x); [reflexivity | lra]. Qed.

Lemma round32_R_le x y : x <= y -> round32_R x <= round32_R y.
Proof.
  intros H. unfold round32_R.
  destruct (Rle_dec 0 x) as [a | a], (Rle_dec 0 y) as [b | b].
  - now apply round32_pos_le.
  - lra.
  - pose proof (round32_pos_nonneg (- x)). pose proof (round32_pos_nonneg y). lra.
  - apply Ropp_le_contravar. apply round32_pos_le; lra.
Qed.

Lemma round32_pos_bpow e : (-149 <= e - 24)%Z -> round32_pos (bpow (e - 1)) = bpow (e - 1).
Proof.
  intros N. assert (M : mag (bpow (e - 1)) = e).
  { apply mag_unique. split; [lra | apply bpow_lt; lia]. }
  unfold round32_pos, ulp32. rewrite M.
  replace (Z.max (e - 24) (-149)) with (e - 24)%Z by lia.
  replace (bpow (e - 1) / bpow (e - 24)) with (IZR (2 ^ 23)).
  - rewrite rne_IZR. rewrite <- bpow_IZR by lia. rewrite <- bpow_add. f_equal; lia.
  - rewrite <- bpow_IZR by lia. unfold Rdiv. rewrite <- bpow_opp, <- bpow_add.
    f_equal; lia.
Qed.

Lemma round32_R_0 : round32_R 0 = 0.
Proof. rewrite round32_R_nonneg by lra. apply round32_pos_0. Qed.

Lemma round32_R_1 : round32_R 1 = 1.
Proof.
  rewrite round32_R_nonneg by lra.
  change 1 with (bpow (1 - 1)). apply round32_pos_bpow. lia.
Qed.

Lemma bpow_128_gt_1 : 1 < bpow 128.
Proof. rewrite <- bpow_0. apply bpow_lt; lia. Qed.

Lemma round32_unit x :
  0 <= x <= 1 -> round32 (Fin x) = Fin (round32_R x) /\ 0 <= round32_R x <= 1.
Proof.
  intros [A B].
  assert (R : 0 <= round32_R x <= 1).
  { split.
    - rewrite <- round32_R_0. now apply round32_R_le.
    - rewrite <- round32_R_1. now apply round32_R_le. }
  split; [| exact R]. unfold round32. cbv zeta.
  pose proof bpow_128_gt_1.
  destruct (Rlt_dec _ _) as [_ | N]; [reflexivity |].
  exfalso; apply N. rewrite Rabs_pos_eq; lra.
Qed.

(** The values within half a unit in the last place below 1 are stored as 1 *)
Lemma round32_R_near_1 x : 1 - / 2 ^ 25 <= x <= 1 -> round32_R x = 1.
Proof.
  intros [A B]. destruct (Req_dec x 1) as [-> | N]; [apply round32_R_1 |].
  assert (P25 : (2 ^ 25 = 33554432)%R) by (simpl; lra).
  assert (P24 : bpow 24 = 16777216) by (rewrite bpow_IZR by lia; reflexivity).
  assert (P24' : bpow (- (24)) = / 16777216) by (rewrite bpow_opp, P24; reflexivity).
  rewrite P25 in A.
  rewrite round32_R_nonneg by lra.
  assert (M : mag x = 0%Z).
  { apply mag_unique. change (bpow 0) with 1.
    replace (bpow (0 - 1)) with (/ 2) by (unfold bpow; simpl; lra). lra. }
  unfold round32_pos, ulp32. rewrite M.
  change (Z.max (0 - 24) (-149)) with (- (24))%Z. rewrite P24'.
  set (s := x / / 16777216).
  assert (S : 16777216 - 1 / 2 <= s < 16777216).
  { unfold s. replace (x / / 16777216) with (x * 16777216) by (field; lra). lra. }
  assert (F : Rfloor s = 16777215%Z) by (apply Rfloor_unique; lra).
  assert (R : rne s = 16777216%Z).
  { unfold rne. rewrite F. destruct (Rlt_dec _ _) as [a | a]; [lra |].
    destruct (Rlt_dec _ _); reflexivity. }
  rewrite R. lra.
Qed.

(** A product of an integer below 2^24 and a power of two not below the
   least one is a binary32 value: rounding leaves it alone *)
Lemma round32_pos_exact m e :
  (0 < m < 2 ^ 24)%Z -> (-149 <= e)%Z ->
  round32_pos (IZR m * bpow e) = IZR m * bpow e.
Proof.
  intros [M0 M1] E. set (x := IZR m * bpow e).
  pose proof (bpow_pos e) as Pe.
  assert (Pm : 1 <= IZR m) by (apply IZR_le; lia).
  assert (Px : 0 < x) by (unfold x; nra).
  destruct (mag_spec x Px) as [A B].
  assert (Ux : x < bpow (24 + e)).
  { unfold x. rewrite bpow_add, (bpow_IZR 24) by lia.
    apply Rmult_lt_compat_r; [exact Pe | apply IZR_lt; lia]. }
  assert (G : (mag x - 1 < 24 + e)%Z) by (apply bpow_lt_inv; lra).
  unfold round32_pos, ulp32. fold x.
  set (fe := Z.max (mag x - 24) (-149)).
  assert (F : (fe <= e)%Z) by lia.
  assert (S : x / bpow fe = IZR (m * 2 ^ (e - fe))).
  { rewrite mult_IZR, <- (bpow_IZR (e - fe)) by lia.
    unfold x, Rdiv. rewrite <- bpow_opp, Rmult_assoc, <- bpow_add.
    do 2 f_equal; lia. }
  rewrite S, rne_IZR, mult_IZR, <- (bpow_IZR (e - fe)) by lia.
  unfold x. rewrite Rmult_assoc, <- bpow_add. do 2 f_equal; lia.
Qed.

Lemma round32_pos_bpow_exact e :
  (-149 <= e)%Z -> round32_pos (bpow e) = bpow e.
Proof.
  intros E. rewrite <- (Rmult_1_l (bpow e)).
  apply (round32_pos_exact 1 e); lia.
Qed.

Lemma round32_pos_idem x :
  0 <= x -> round32_pos (round32_pos x) = round32_pos x.
Proof.
  intros P. destruct (Req_dec x 0) as [-> | NZ].
  { now rewrite !round32_pos_0. }
  assert (Px : 0 < x) by lra.
  pose proof (round32_pos_upper x Px) as U.
  pose proof (round32_pos_nonneg x P) as L.
  change (round32_pos x) with (IZR (rne (x / ulp32 x)) * ulp32 x) in *.
  unfold ulp32 in *.
  set (fe := Z.max (mag x - 24) (-149)) in *.
  set (k := rne (x / bpow fe)) in *.
  pose proof (bpow_pos fe) as Pf.
  assert (K0 : (0 <= k)%Z).
  { apply le_IZR. apply Rmult_le_reg_r with (bpow fe); [exact Pf | lra]. }
  assert (K1 : (k <= 2 ^ 24)%Z).
  { apply le_IZR. rewrite <- (bpow_IZR 24) by lia.
    apply Rmult_le_reg_r with (bpow fe); [exact Pf |].
    rewrite <- bpow_add. apply Rle_trans with (1 := U). apply bpow_le. lia. }
  destruct (Z.eq_dec k 0) as [-> | N0].
  { rewrite Rmult_0_l. apply round32_pos_0. }
  destruct (Z.eq_dec k (2 ^ 24)) as [-> | N1].
  - rewrite <- (bpow_IZR 24), <- bpow_add by lia.
    apply round32_pos_bpow_exact. lia.
  - apply round32_pos_exact; lia.
Qed.

Lemma round32_R_opp x : round32_R (- x) = - round32_R x.
Proof.
  unfold round32_R.
  destruct (Rle_dec 0 x) as [a | a], (Rle_dec 0 (- x)) as [b | b]; try lra.
  - assert (x = 0) by lra. subst. replace (- 0) with 0 by lra.
    rewrite round32_pos_0. lra.
  - now rewrite Ropp_involutive.
Qed.

Lemma round32_R_idem x : round32_R (round32_R x) = round32_R x.
Proof.
  destruct (Rle_dec 0 x) as [P | N].
  - rewrite (round32_R_nonneg x) by exact P.
    rewrite round32_R_nonneg by (now apply round32_pos_nonneg).
    now apply round32_pos_idem.
  - assert (E : round32_R x = - round32_pos (- x)).
    { unfold round32_R. destruct (Rle_dec 0 x); [contradiction | reflexivity]. }
    rewrite E, round32_R_opp. f_equal.
    rewrite round32_R_nonneg by (apply round32_pos_nonneg; lra).
    apply round32_pos_idem. lra.
Qed.

Lemma round32_idem a : round32 (round32 a) = round32 a.
Proof.
  destruct a as [| | | x]; try reflexivity.
  remember (round32 (Fin x)) as r eqn:E. unfold round32 in E. cbv zeta in E.
  destruct (Rlt_dec (Rabs (round32_R x)) (bpow 128)) as [L | NL].
  - subst r. unfold round32. cbv zeta. rewrite round32_R_idem.
    destruct (Rlt_dec _ _); [reflexivity | contradiction].
  - destruct (Rlt_dec 0 x); subst r; reflexivity.
Qed.

(** The integers below 2^24 in absolute value are binary32 values *)
Lemma round32_IZR z :
  (Z.abs z < 2 ^ 24)%Z -> round32 (Fin (IZR z)) = Fin (IZR z).
Proof.
  intros H.
  assert (E : round32_R (IZR z) = IZR z).
  { destruct (Z.lt_trichotomy z 0) as [N | [-> | P]].
    - replace (IZR z) with (- IZR (- z)) by (rewrite opp_IZR; lra).
      rewrite round32_R_opp. f_equal.
      rewrite round32_R_nonneg by (apply IZR_le; lia).
      rewrite <- (Rmult_1_r (IZR (- z))). change 1 with (bpow 0).
      apply round32_pos_exact; lia.
    - apply round32_R_0.
    - rewrite round32_R_nonneg by (apply IZR_le; lia).
      rewrite <- (Rmult_1_r (IZR z)). change 1 with (bpow 0).
      apply round32_pos_exact; lia. }
  unfold round32. cbv zeta. rewrite E.
  destruct (Rlt_dec _ _) as [_ | N]; [reflexivity |].
  exfalso; apply N.
  rewrite <- abs_IZR. apply Rlt_trans with (IZR (2 ^ 24)); [apply IZR_lt; lia |].
  rewrite <- bpow_IZR by lia. apply bpow_lt. lia.
Qed.

(** Halves, quarters, ...: m / 2^k for an integer m below 2^24 *)
Lemma round32_dyadic m k :
  (0 < m < 2 ^ 24)%Z -> (0 <= k <= 149)%Z ->
  round32 (Fin (IZR m / 2 ^ Z.to_nat k)) = Fin (IZR m / 2 ^ Z.to_nat k).
Proof.
  intros M K.
  assert (B : IZR m / 2 ^ Z.to_nat k = IZR m * bpow (- k)).
  { unfold Rdiv. f_equal. rewrite bpow_opp. f_equal.
    unfold bpow. rewrite <- (Z2Nat.id k) at 2 by lia.
    now rewrite <- pow_powerRZ. }
  rewrite B.
  assert (P : 0 < IZR m * bpow (- k)).
  { apply Rmult_lt_0_compat; [apply IZR_lt; lia | apply bpow_pos]. }
  assert (E : round32_R (IZR m * bpow (- k)) = IZR m * bpow (- k)).
  { rewrite round32_R_nonneg by lra. apply round32_pos_exact; lia. }
  unfold round32. cbv zeta. rewrite E.
  destruct (Rlt_dec _ _) as [_ | N]; [reflexivity |].
  exfalso; apply N. rewrite Rabs_pos_eq by lra.
  apply Rle_lt_trans with (IZR m * 1).
  - apply Rmult_le_compat_l; [apply IZR_le; lia |].
    change 1 with (bpow 0). apply bpow_le. lia.
  - rewrite Rmult_1_r. apply Rlt_trans with (IZR (2 ^ 24)); [apply IZR_lt; lia |].
    rewrite <- bpow_IZR by lia. apply bpow_lt. lia.
Qed.

Local Close Scope R_scope.

(** ** The blend, cell by cell *)

Lemma example_blend_inputs :
  blend_inputs example_fs "base.tif" "weight.tif" example_base example_weight.
Proof. repeat split; first [reflexivity | discriminate]. Qed.

Lemma eq_nodata_fin_false (nd p : R) :
  p <> nd -> eq_nodata (Some (Fin nd)) (Fin p) = false.
Proof.
  intros H. unfold eq_nodata, np_eq, Reqb.
  destruct (Req_dec_T p nd); [contradiction | reflexivity].
Qed.



Lemma np_clip_unit (p : npfloat) (e : R) :
  p <> NaN -> (0 < e < 1)%R ->
  exists q, np_clip p (Fin e) (np_sub (Fin 1) (Fin e)) = Fin q
            /\ (0 < q < 1)%R.
Proof.
  intros Hp He. change (np_sub (Fin 1) (Fin e)) with (Fin (1 - e)).
  destruct p as [| | |p].
  - contradiction.
  - exists (1 - e)%R. split; [reflexivity | lra].
  - exists (Rmin e (1 - e)). split.
    + unfold np_clip, np_maximum, np_minimum, np_lt, Rltb, Rmin.
      destruct (Rlt_dec (1 - e) e); destruct (Rle_dec e (1 - e)); try lra;
        f_equal; lra.
    + unfold Rmin. destruct (Rle_dec e (1 - e)); lra.
  - exists (Rclamp p e (1 - e)). split.
    + apply np_clip_fin.
    + apply Rclamp_range; exact He.
Qed.

Lemma effective_weight_finite (w : npfloat) (n : R) :
  w <> PInf ->
  exists w', (if np_gt w (Fin 0) then w else Fin n) = Fin w'.
Proof.
  intros Hw. destruct w as [| | |w]; cbn.
  - exists n; reflexivity.
  - contradiction.
  - exists n; reflexivity.
  - destruct (Rltb 0 w); eexists; reflexivity.
Qed.

Lemma blend_formula_np_range (s n e : R) (p w : npfloat) :
  p <> NaN -> w <> PInf -> (0 < e < 1)%R ->
  exists v, blend_formula_np (Fin s) (Fin n) (Fin e) p w = Fin v
            /\ (0 < v < 1)%R.
Proof.
  intros Hp Hw He. unfold blend_formula_np.
  destruct (np_clip_unit p e Hp He) as (q & -> & Hq).
  destruct (effective_weight_finite w n Hw) as (w' & ->).
  rewrite np_logit_fin by exact Hq.
  change (np_sub (Fin w') (Fin n)) with (Fin (w' - n)).
  cbn [np_mul np_add]. rewrite np_sigmoid_fin.
  eexists. split; [reflexivity | apply sigmoid_range].
Qed.

(** ** The blend as stored in the Float32 band *)

Lemma item_blend_block_fp base_band weight_band nodata strength neutral_value
  eps x y cols rows i j :
  item (blend_block_fp base_band weight_band nodata strength neutral_value eps
                       x y cols rows) i j
  = blend_cell_fp nodata strength neutral_value eps
                  (base_band (x + j) (y + i)) (weight_band (x + j) (y + i)).
Proof.
  unfold blend_cell_fp, blend_cell. cbn.
  destruct (eq_nodata nodata (base_band (x + j) (y + i))); reflexivity.
Qed.

(** On aligned inputs [blend_probabilities_fp] returns a dataset with the
    base raster's metadata in which every cell of the grid was written
    once, with the value [blend_cell_fp] gives. *)
Lemma blend_probabilities_fp_cells fs base_path weight_path base_ds weight_ds
  strength neutral_value eps :
  blend_inputs fs base_path weight_path base_ds weight_ds ->
  exists out_band,
    blend_probabilities_fp fs base_path weight_path strength neutral_value eps
    = Ok (mk_Dataset (RasterXSize base_ds) (RasterYSize base_ds)
                     (GeoTransform base_ds) (Projection base_ds)
                     (NoDataValue base_ds) (256, 256) out_band) /\
    forall x y,
      out_band x y
      = if in_grid (RasterXSize base_ds) (RasterYSize base_ds) x y
        then [blend_cell_fp (NoDataValue base_ds) strength neutral_value eps
                            (band1 base_ds x y) (band1 weight_ds x y)]
        else [].
Proof.
  intros (Hb & Hw & HX & HY & Hgt & Hbx & Hby & _).
  unfold blend_probabilities_fp, _open_base_raster. rewrite Hb, Hw.
  cbn [bind].
  rewrite <- HX, <- HY, !Z.eqb_refl. cbn [negb orb].
  replace (geotransform_eqb (GeoTransform base_ds) (GeoTransform weight_ds))
    with true by (symmetry; apply geotransform_eqb_true_iff; exact Hgt).
  cbn [negb]. destruct (BlockSize base_ds) as [block_x block_y].
  cbn [fst snd] in Hbx, Hby.
  destruct (tiled_loop_cell
              (blend_block_fp (band1 base_ds) (band1 weight_ds)
                              (NoDataValue base_ds) strength neutral_value eps)
              (fun x y => blend_cell_fp (NoDataValue base_ds) strength
                                        neutral_value eps
                                        (band1 base_ds x y)
                                        (band1 weight_ds x y))
              (fun _ _ _ _ => eq_refl) (fun _ _ _ _ => eq_refl)
              (item_blend_block_fp (band1 base_ds) (band1 weight_ds)
                                   (NoDataValue base_ds) strength
                                   neutral_value eps)
              (RasterXSize base_ds) (RasterYSize base_ds) block_x block_y
              Hbx Hby empty_band) as (out' & Hrun & Hcells).
  exists out'. split; [|exact Hcells].
  unfold tiled_loop in Hrun. rewrite py_range_pos in Hrun by assumption.
  cbn [bind] in Hrun.
  cbn [Create SetGeoTransform SetProjection SetNoDataValue band1 RasterXSize
       RasterYSize GeoTransform Projection NoDataValue BlockSize set_band1].
  rewrite py_range_pos by assumption. cbn [bind].
  rewrite Hrun. reflexivity.
Qed.

(** The stored value is the exact value of the formula, rounded. *)
Lemma blend_cell_fp_fin (nd : option npfloat) (s n e p w : R) :
  eq_nodata nd (Fin p) = false -> (0 < e < 1)%R ->
  blend_cell_fp nd (Fin s) (Fin n) (Fin e) (Fin p) (Fin w)
  = Fin (round32_R (blend_formula s n e p w))
  /\ (0 <= round32_R (blend_formula s n e p w) <= 1)%R.
Proof.
  intros Hnd He. unfold blend_cell_fp, blend_cell.
  rewrite Hnd, blend_formula_np_fin by exact He.
  apply round32_unit. unfold blend_formula.
  pose proof (sigmoid_range
                (logit (Rclamp p e (1 - e)) + s * (effective_weight w n - n))).
  lra.
Qed.



(** Powers of [exp (-1)], by squaring. *)
Lemma exp_neg_powers :
  (0.1353 <= exp (- (2)) <= 0.13535)%R /\
  (0.0183 <= exp (- (4)) <= 0.01832)%R /\
  (0.000334 <= exp (- (8)) <= 0.000336)%R /\
  (0.000000111 <= exp (- (16)) <= 0.000000113)%R /\
  (0.000000000000012 <= exp (- (32)) <= 0.0000000000000128)%R.
Proof.
  pose proof exp_minus_1_bounds as H1.
  assert (H1' : (0.36787 <= exp (- (1)) <= 0.36789)%R) by lra.
  pose proof (exp_neg_double 1 2 0.36787 0.36789 0.1353 0.13535
                ltac:(lra) ltac:(lra) H1' ltac:(lra) ltac:(lra)) as H2.
  pose proof (exp_neg_double 2 4 0.1353 0.13535 0.0183 0.01832
                ltac:(lra) ltac:(lra) H2 ltac:(lra) ltac:(lra)) as H4.
  pose proof (exp_neg_double 4 8 0.0183 0.01832 0.000334 0.000336
                ltac:(lra) ltac:(lra) H4 ltac:(lra) ltac:(lra)) as H8.
  pose proof (exp_neg_double 8 16 0.000334 0.000336 0.000000111 0.000000113
                ltac:(lra) ltac:(lra) H8 ltac:(lra) ltac:(lra)) as H16.
  pose proof (exp_neg_double 16 32 0.000000111 0.000000113
                0.000000000000012 0.0000000000000128
                ltac:(lra) ltac:(lra) H16 ltac:(lra) ltac:(lra)) as H32.
  repeat split; lra.
Qed.

Lemma exp_minus_20 : (exp (- (20)) <= / 2 ^ 25)%R.
Proof.
  destruct exp_neg_powers as (_ & H4 & _ & H16 & _).
  replace (- (20))%R with (- (16) + - (4))%R by lra. rewrite exp_plus.
  pose proof (exp_pos (- (16))). pose proof (exp_pos (- (4))).
  apply Rle_trans with (0.000000113 * 0.01832)%R.
  - apply Rmult_le_compat; lra.
  - assert (P25 : (2 ^ 25 = 33554432)%R) by (simpl; lra).
    rewrite P25. lra.
Qed.

Lemma exp_minus_25 :
  (0.0000000000136 <= exp (- (25)) <= 0.000000000014)%R.
Proof.
  destruct exp_neg_powers as (_ & _ & H8 & H16 & _).
  pose proof exp_minus_1_bounds as H1.
  replace (- (25))%R with (- (16) + (- (8) + - (1)))%R by lra.
  rewrite !exp_plus.
  pose proof (exp_pos (- (16))). pose proof (exp_pos (- (8))).
  pose proof (exp_pos (- (1))).
  assert (A : (0.000334 * 0.36787 <= exp (- (8)) * exp (- (1))
               <= 0.000336 * 0.36789)%R).
  { split; apply Rmult_le_compat; lra. }
  split.
  - apply Rle_trans with (0.000000111 * (0.000334 * 0.36787))%R; [lra|].
    apply Rmult_le_compat; lra.
  - apply Rle_trans with (0.000000113 * (0.000336 * 0.36789))%R; [|lra].
    apply Rmult_le_compat; try lra.
Qed.


(** A logistic value within [t] of 1. *)
Lemma sigmoid_near_1 (x t : R) :
  (exp (- x) <= t)%R -> (1 - t <= sigmoid x <= 1)%R.
Proof.
  intros H. pose proof (exp_pos (- x)) as P.
  pose proof (sigmoid_range x) as [_ S1]. split; [|lra].
  unfold sigmoid. apply Rle_trans with (1 - exp (- x))%R; [lra|].
  apply Rmult_le_reg_r with (1 + exp (- x))%R; [lra|].
  unfold Rdiv. rewrite Rmult_assoc, Rinv_l by lra. nra.
Qed.

(** A logistic value that the Float32 band holds as 1.0. *)
Lemma round32_sigmoid_one (x : R) :
  (exp (- x) <= / 2 ^ 25)%R -> round32 (Fin (sigmoid x)) = Fin 1.
Proof.
  intros H. destruct (sigmoid_near_1 x _ H) as [L U].
  assert (P25 : (0 < / 2 ^ 25)%R)
    by (apply Rinv_0_lt_compat, pow_lt; lra).
  destruct (round32_unit (sigmoid x)) as [E _]; [lra|].
  rewrite E. f_equal. apply round32_R_near_1. lra.
Qed.

Lemma sigmoid_below_exp (x : R) :
  (x <= 0)%R -> (exp x / 2 <= sigmoid x <= exp x)%R.
Proof.
  intros Hx. unfold sigmoid. rewrite exp_Ropp.
  pose proof (exp_pos x) as P.
  assert (L : (exp x <= 1)%R).
  { rewrite <- exp_0. destruct Hx as [Hx | ->]; [|lra].
    left. now apply exp_increasing. }
  replace (1 / (1 + / exp x))%R with (exp x / (exp x + 1))%R by (field; lra).
  split.
  - apply Rmult_le_reg_r with (2 * (exp x + 1))%R; [lra|].
    replace (exp x / (exp x + 1) * (2 * (exp x + 1)))%R with (2 * exp x)%R
      by (field; lra).
    nra.
  - apply Rmult_le_reg_r with (exp x + 1)%R; [lra|].
    replace (exp x / (exp x + 1) * (exp x + 1))%R with (exp x)%R
      by (field; lra).
    nra.
Qed.

(** The values below half the least positive float32 are stored as 0.0. *)
Lemma round32_R_tiny (x : R) :
  (0 <= x < / 2 ^ 150)%R -> round32_R x = 0%R.
Proof.
  intros [A B]. destruct (Req_dec x 0) as [-> | N]; [apply round32_R_0 |].
  assert (P : (0 < x)%R) by lra.
  assert (E150 : (/ 2 ^ 150)%R = bpow (- (150))).
  { rewrite bpow_opp. f_equal. }
  rewrite E150 in B.
  destruct (mag_spec x P) as [C _].
  assert (M : mag x - 1 < - (150))
    by (apply bpow_lt_inv; apply Rle_lt_trans with (1 := C); exact B).
  rewrite round32_R_nonneg by lra. unfold round32_pos, ulp32.
  replace (Z.max (mag x - 24) (-149)) with (- (149)) by lia.
  pose proof (bpow_pos (- (149))) as U.
  assert (S : (0 <= x / bpow (- (149)) < 1 / 2)%R).
  { split.
    - apply Rmult_le_pos; [lra |]. left. now apply Rinv_0_lt_compat.
    - apply Rmult_lt_reg_r with (bpow (- (149))); [exact U |].
      unfold Rdiv at 1. rewrite Rmult_assoc, Rinv_l, Rmult_1_r by lra.
      replace (1 / 2 * bpow (- (149)))%R with (bpow (- (150))); [exact B |].
      replace (- (150)) with (- (1) + - (149)) by lia.
      rewrite bpow_add. f_equal. unfold bpow. simpl. lra. }
  assert (F : Rfloor (x / bpow (- (149))) = 0) by (apply Rfloor_unique; lra).
  unfold rne. rewrite F.
  destruct (Rlt_dec _ _) as [_ | a]; [lra | exfalso; apply a; lra].
Qed.

Lemma exp_minus_200 : (exp (- (200)) < / 2 ^ 150)%R.
Proof.
  destruct exp_minus_25 as [_ H25].
  pose proof (exp_pos (- (25))) as P25.
  assert (H25' : (0 <= exp (- (25)) <= 0.000000000014)%R) by lra.
  pose proof (exp_neg_double 25 50 0 0.000000000014 0 (2 / 10 ^ 22)
                ltac:(lra) ltac:(lra) H25' ltac:(lra) ltac:(simpl; lra))
    as H50.
  pose proof (exp_neg_double 50 100 0 (2 / 10 ^ 22) 0 (4 / 10 ^ 44)
                ltac:(lra) ltac:(lra) H50 ltac:(lra) ltac:(simpl; lra))
    as H100.
  pose proof (exp_neg_double 100 200 0 (4 / 10 ^ 44) 0 (16 / 10 ^ 88)
                ltac:(lra) ltac:(lra) H100 ltac:(lra) ltac:(simpl; lra))
    as H200.
  apply Rle_lt_trans with (16 / 10 ^ 88)%R; [apply H200 |].
  simpl. lra.
Qed.

(** A logistic value that the Float32 band holds as 0.0. *)
Lemma round32_sigmoid_zero (x : R) :
  (x <= 0)%R -> (exp x < / 2 ^ 150)%R -> round32 (Fin (sigmoid x)) = Fin 0.
Proof.
  intros Hx H. destruct (sigmoid_below_exp x Hx) as [_ U].
  pose proof (sigmoid_range x) as [L _].
  destruct (round32_unit (sigmoid x)) as [E _].
  { pose proof (sigmoid_range x). lra. }
  rewrite E. f_equal. apply round32_R_tiny. lra.
Qed.

(** The blended value of the example cell of base 1/2, for a shift [d] of
    the logit. *)
Lemma example_blend_value (s w : R) :
  (0 < w)%R ->
  blend_cell_fp (Some (Fin (-9999))) (Fin s) (Fin (1 / 2))
                (Fin (1 / 1000000)) (Fin (1 / 2)) (Fin w)
  = round32 (Fin (sigmoid (s * (w - 1 / 2)))).
Proof.
  intros Hw. unfold blend_cell_fp, blend_cell.
  rewrite eq_nodata_fin_false by lra.
  rewrite blend_formula_np_fin by lra. do 2 f_equal.
  unfold blend_formula. rewrite Rclamp_id by lra.
  assert (Hl : logit (1 / 2) = 0%R).
  { unfold logit. replace (1 / 2 / (1 - 1 / 2))%R with 1%R by field.
    apply ln_1. }
  rewrite Hl, Rplus_0_l. unfold effective_weight, Rltb.
  destruct (Rlt_dec 0 w); [reflexivity | contradiction].
Qed.

(** Against C2 as stated.  The cell (1,2) of the example, of base value
    0.5 and weight 1, is not a nodata cell.  With strength 40 and neutral
    value 0.5 the Float32 band holds exactly 1.0 for it: the exact value
    1/(1+exp(-20)) is nearer to 1 than to the float32 below 1.  With
    strength -400 it holds exactly 0.0: the exact value 1/(1+exp(200)) is
    below half the least positive float32. *)
Lemma blend_output_reaches_ends :
  band1 example_base 1 2 = Fin (1 / 2) /\
  eq_nodata (NoDataValue example_base) (band1 example_base 1 2) = false /\
  band1 example_weight 1 2 = Fin 1 /\
  (exists out,
      blend_probabilities_fp example_fs "base.tif" "weight.tif"
                             (Fin 40) (Fin (1 / 2)) (Fin (1 / 1000000))
      = Ok out /\
      band1 out 1 2 = [Fin 1] /\
      ~ (exists v, band1 out 1 2 = [Fin v] /\ (0 < v < 1)%R)) /\
  (exists out,
      blend_probabilities_fp example_fs "base.tif" "weight.tif"
                             (Fin (-400)) (Fin (1 / 2)) (Fin (1 / 1000000))
      = Ok out /\
      band1 out 1 2 = [Fin 0] /\
      ~ (exists v, band1 out 1 2 = [Fin v] /\ (0 < v < 1)%R)).
Proof.
  split; [reflexivity|]. split; [apply eq_nodata_fin_false; lra|].
  split; [reflexivity|].
  assert (Hcell : forall s,
             exists out,
               blend_probabilities_fp example_fs "base.tif" "weight.tif"
                 (Fin s) (Fin (1 / 2)) (Fin (1 / 1000000)) = Ok out /\
               band1 out 1 2
               = [round32 (Fin (sigmoid (s * (1 - 1 / 2))))]).
  { intros s.
    destruct (blend_probabilities_fp_cells _ _ _ _ _
                (Fin s) (Fin (1 / 2)) (Fin (1 / 1000000)) example_blend_inputs)
      as (out_band & Hrun & Hcells).
    eexists. split; [exact Hrun|]. cbn [band1]. rewrite Hcells.
    cbn [example_base example_weight band1 RasterXSize RasterYSize
         NoDataValue in_grid Z.leb Z.ltb Z.compare andb Z.eqb Pos.eqb
         Pos.compare Pos.compare_cont].
    rewrite example_blend_value by lra. reflexivity. }
  split.
  - destruct (Hcell 40%R) as (out & Hrun & E).
    replace (40 * (1 - 1 / 2))%R with 20%R in E by lra.
    rewrite round32_sigmoid_one in E by exact exp_minus_20.
    exists out. split; [exact Hrun|]. split; [exact E|].
    rewrite E. intros (v & [= <-] & Hv). lra.
  - destruct (Hcell (-400)%R) as (out & Hrun & E).
    replace (-400 * (1 - 1 / 2))%R with (- (200))%R in E by lra.
    rewrite round32_sigmoid_zero in E by (lra || exact exp_minus_200).
    exists out. split; [exact Hrun|]. split; [exact E|].
    rewrite E. intros (v & [= <-] & Hv). lra.
Qed.

(** C2, amended.  Every cell of the blend output whose base cell equals
    the base raster's nodata sentinel holds that sentinel as a float32,
    which is the sentinel itself when float32 represents it; every other
    cell holds a value of the closed interval from 0 to 1, the ends
    included, for inputs that are valid: a base cell that is a number, a
    weight cell not above 1, a neutral value in [0,1], a finite strength
    and 0 < eps < 1. *)
Theorem blend_output_contract fs base_path weight_path base_ds weight_ds
  strength neutral_value eps x y :
  blend_inputs fs base_path weight_path base_ds weight_ds ->
  in_grid (RasterXSize base_ds) (RasterYSize base_ds) x y = true ->
  exists out,
    blend_probabilities_fp fs base_path weight_path strength neutral_value eps
    = Ok out /\
    (forall nd,
        NoDataValue base_ds = Some nd ->
        np_eq (band1 base_ds x y) nd = true ->
        band1 out x y = [round32 nd] /\
        (round32 nd = nd -> band1 out x y = [nd])) /\
    (eq_nodata (NoDataValue base_ds) (band1 base_ds x y) = false ->
     band1 base_ds x y <> NaN -> unit_weight (band1 weight_ds x y) ->
     forall s n e,
       strength = Fin s -> neutral_value = Fin n -> eps = Fin e ->
       (0 < e < 1)%R -> (0 <= n <= 1)%R ->
       exists v, band1 out x y = [Fin v] /\ (0 <= v <= 1)%R).
Proof.
  intros Hin Hgrid.
  destruct (blend_probabilities_fp_cells _ _ _ _ _ strength neutral_value eps
              Hin) as (out_band & Hrun & Hcells).
  eexists. split; [exact Hrun|]. cbn [band1].
  rewrite Hcells, Hgrid. unfold blend_cell_fp, blend_cell. split.
  - intros nd Hnd Heq. rewrite Hnd. cbn [eq_nodata nodata_value].
    rewrite Heq. split; [reflexivity|]. intros ->. reflexivity.
  - intros Hnd Hp Hw s n e -> -> -> He Hn. rewrite Hnd.
    assert (Hw' : band1 weight_ds x y <> PInf)
      by (intros E; rewrite E in Hw; exact Hw).
    destruct (blend_formula_np_range s n e _ _ Hp Hw' He) as (v & -> & Hv).
    destruct (round32_unit v) as [E R]; [lra|].
    exists (round32_R v). rewrite E. split; [reflexivity | exact R].
Qed.

Lemma blend_output_contract_witness :
  exists out,
    blend_probabilities_fp example_fs "base.tif" "weight.tif"
                           (Fin 2) (Fin (1 / 2)) (Fin (1 / 1000000))
    = Ok out /\
    band1 out 0 0 = [Fin (-9999)] /\
    exists v, band1 out 3 3 = [Fin v] /\ (0 <= v <= 1)%R.
Proof.
  destruct (blend_output_contract example_fs "base.tif" "weight.tif"
              example_base example_weight
              (Fin 2) (Fin (1 / 2)) (Fin (1 / 1000000)) 0 0
              example_blend_inputs eq_refl)
    as (out & Hrun & Hnodata & _).
  destruct (blend_output_contract example_fs "base.tif" "weight.tif"
              example_base example_weight
              (Fin 2) (Fin (1 / 2)) (Fin (1 / 1000000)) 3 3
              example_blend_inputs eq_refl)
    as (out' & Hrun' & _ & Hrange).
  rewrite Hrun in Hrun'. injection Hrun' as <-.
  exists out. split; [exact Hrun|]. split.
  - apply (Hnodata (Fin (-9999))); [reflexivity | |].
    + apply Reqb_true_iff. reflexivity.
    + apply (round32_IZR (-9999)). cbn. lia.
  - apply (Hrange (eq_nodata_fin_false (-9999) (1 / 2) ltac:(lra))
                  ltac:(discriminate) ltac:(cbn; lra)
                  2%R (1 / 2)%R (1 / 1000000)%R eq_refl eq_refl eq_refl);
      lra.
Defined.

(** ** Monotonicity in the weight *)






(** ** The mask, cell by cell *)

Lemma example_mask_inputs :
  mask_inputs example_mask_fs
              "p_terrain.tif" "slope.tif" "hand.tif" "dist2stream.tif"
              example_prob example_slope example_hand example_dist.
Proof. repeat split; reflexivity. Qed.

Lemma mask_cell_admissible slope_max hand_max dist_max p slp hd dist :
  mask_cell slope_max hand_max dist_max p slp hd dist
  = if admissible slope_max hand_max dist_max p slp hd dist
    then p else Fin 0.
Proof.
  unfold mask_cell, admissible.
  destruct (np_isfinite p), (np_isfinite slp), (np_isfinite hd),
    (np_isfinite dist), (np_le slp slope_max), (np_le hd hand_max),
    (np_le dist dist_max); reflexivity.
Qed.

Lemma Rleb_false (x y : R) : (y < x)%R -> Rleb x y = false.
Proof.
  intros H. unfold Rleb. destruct (Rle_dec x y); [lra | reflexivity].
Qed.

Lemma Rleb_true (x y : R) : (x <= y)%R -> Rleb x y = true.
Proof. apply Rleb_true_iff. Qed.

(** ** The mask as stored *)

Lemma item_mask_block_fp p_band s_band h_band d_band s_dtype h_dtype d_dtype
  slope_max hand_max dist_max col_off row_off win_w win_h i j :
  item (mask_block_fp p_band s_band h_band d_band s_dtype h_dtype d_dtype
                      slope_max hand_max dist_max
                      col_off row_off win_w win_h) i j
  = mask_cell_fp s_dtype h_dtype d_dtype slope_max hand_max dist_max
                 (p_band (col_off + j) (row_off + i))
                 (s_band (col_off + j) (row_off + i))
                 (h_band (col_off + j) (row_off + i))
                 (d_band (col_off + j) (row_off + i)).
Proof. reflexivity. Qed.

Lemma apply_mask_fp_cells fs prob_path slope_path hand_path dist_path
  p_src s_src h_src d_src s_dtype h_dtype d_dtype
  slope_max hand_max dist_max window :
  mask_inputs fs prob_path slope_path hand_path dist_path
              p_src s_src h_src d_src ->
  0 < window ->
  exists dst,
    apply_mask_fp fs prob_path slope_path hand_path dist_path
                  s_dtype h_dtype d_dtype slope_max hand_max dist_max window
    = Ok (mk_Dataset (RasterXSize p_src) (RasterYSize p_src)
                     (GeoTransform p_src) (Projection p_src)
                     (Some (Fin 0)) (512, 512) dst) /\
    forall x y,
      dst x y
      = if in_grid (RasterXSize p_src) (RasterYSize p_src) x y
        then [mask_cell_fp s_dtype h_dtype d_dtype
                           slope_max hand_max dist_max
                           (band1 p_src x y) (band1 s_src x y)
                           (band1 h_src x y) (band1 d_src x y)]
        else [].
Proof.
  intros (Hp & Hs & Hh & Hd & _) Hwin.
  unfold apply_mask_fp, rasterio_open. rewrite Hp, Hs, Hh, Hd. cbn [bind].
  destruct (tiled_loop_cell
              (mask_block_fp (band1 p_src) (band1 s_src) (band1 h_src)
                             (band1 d_src) s_dtype h_dtype d_dtype
                             slope_max hand_max dist_max)
              (fun x y => mask_cell_fp s_dtype h_dtype d_dtype
                                       slope_max hand_max dist_max
                                       (band1 p_src x y) (band1 s_src x y)
                                       (band1 h_src x y) (band1 d_src x y))
              (fun _ _ _ _ => eq_refl) (fun _ _ _ _ => eq_refl)
              (item_mask_block_fp (band1 p_src) (band1 s_src) (band1 h_src)
                                  (band1 d_src) s_dtype h_dtype d_dtype
                                  slope_max hand_max dist_max)
              (RasterXSize p_src) (RasterYSize p_src) window window
              Hwin Hwin empty_band) as (out' & Hrun & Hcells).
  exists out'. split; [|exact Hcells].
  unfold tiled_loop in Hrun. rewrite py_range_pos in Hrun by assumption.
  cbn [bind] in Hrun.
  cbn [band1 RasterXSize RasterYSize GeoTransform Projection NoDataValue
       BlockSize set_band1].
  rewrite py_range_pos by assumption. cbn [bind].
  rewrite Hrun. reflexivity.
Qed.

(** The mask of a cell in the words of the specification, the maxima
    being compared as numpy converts them. *)
Lemma mask_cell_fp_admissible s_dtype h_dtype d_dtype
  slope_max hand_max dist_max p slp hd dist :
  mask_cell_fp s_dtype h_dtype d_dtype slope_max hand_max dist_max
               p slp hd dist
  = if admissible (as_dtype s_dtype slope_max) (as_dtype h_dtype hand_max)
                  (as_dtype d_dtype dist_max) p slp hd dist
    then round32 p else Fin 0.
Proof.
  unfold mask_cell_fp, admissible.
  destruct (np_isfinite p), (np_isfinite slp), (np_isfinite hd),
    (np_isfinite dist), (np_le slp _), (np_le hd _), (np_le dist _);
    reflexivity.
Qed.

Lemma round32_0 : round32 (Fin 0) = Fin 0.
Proof. apply (round32_IZR 0). cbn. lia. Qed.

(** The maxima 10, 15 and 300 of the example are float32 values. *)
Lemma example_maxima (d : dtype) :
  as_dtype d (Fin 10) = Fin 10 /\ as_dtype d (Fin 15) = Fin 15
  /\ as_dtype d (Fin 300) = Fin 300.
Proof.
  destruct d; cbn [as_dtype]; [|repeat split; reflexivity].
  rewrite (round32_IZR 10), (round32_IZR 15), (round32_IZR 300)
    by (cbn; lia).
  repeat split; reflexivity.
Qed.

(** Against C4 as stated.  The cell (0,1) of the example, whose
    covariate rasters are float32, has probability 0 and a slope of 12
    degrees, above the maximum of 10: it is not admissible, and its
    output equals its input probability all the same. *)
Lemma mask_admissibility_counterexample :
  admissible (as_dtype float32 (Fin 10)) (as_dtype float32 (Fin 15))
             (as_dtype float32 (Fin 300))
             (band1 example_prob 0 1) (band1 example_slope 0 1)
             (band1 example_hand 0 1) (band1 example_dist 0 1) = false /\
  exists out,
    apply_mask_fp example_mask_fs
                  "p_terrain.tif" "slope.tif" "hand.tif" "dist2stream.tif"
                  float32 float32 float32
                  (Fin 10) (Fin 15) (Fin 300) 1024 = Ok out /\
    band1 out 0 1 = [band1 example_prob 0 1].
Proof.
  destruct (example_maxima float32) as (E10 & E15 & E300).
  assert (Ha : admissible (as_dtype float32 (Fin 10))
                 (as_dtype float32 (Fin 15)) (as_dtype float32 (Fin 300))
                 (band1 example_prob 0 1) (band1 example_slope 0 1)
                 (band1 example_hand 0 1) (band1 example_dist 0 1) = false).
  { rewrite E10, E15, E300. unfold admissible. cbn.
    rewrite (Rleb_false 12 10) by lra. reflexivity. }
  split; [exact Ha|].
  destruct (apply_mask_fp_cells _ _ _ _ _ _ _ _ _ float32 float32 float32
              (Fin 10) (Fin 15) (Fin 300) 1024 example_mask_inputs
              ltac:(lia))
    as (dst & Hrun & Hcells).
  eexists. split; [exact Hrun|]. cbn [band1].
  rewrite Hcells, mask_cell_fp_admissible, Ha. reflexivity.
Qed.

(** C4, amended.  For every cell of the grid the mask output is the input
    probability p cast to float32 when p, slope, hand and dist are all
    finite and slope, hand and dist are within their maxima, each maximum
    being compared as numpy converts it to the element type of its
    raster; and exactly 0.0 in every other case.  So the output equals p
    if and only if the cell is admissible and p is a float32 value, or
    the cell is not admissible and p is itself 0.0. *)
Theorem mask_admissibility fs prob_path slope_path hand_path dist_path
  p_src s_src h_src d_src s_dtype h_dtype d_dtype
  slope_max hand_max dist_max window x y :
  mask_inputs fs prob_path slope_path hand_path dist_path
              p_src s_src h_src d_src ->
  0 < window ->
  in_grid (RasterXSize p_src) (RasterYSize p_src) x y = true ->
  exists out,
    apply_mask_fp fs prob_path slope_path hand_path dist_path
                  s_dtype h_dtype d_dtype slope_max hand_max dist_max window
    = Ok out /\
    let p := band1 p_src x y in
    let ok := admissible (as_dtype s_dtype slope_max)
                         (as_dtype h_dtype hand_max)
                         (as_dtype d_dtype dist_max)
                         p (band1 s_src x y)
                         (band1 h_src x y) (band1 d_src x y) in
    (ok = true -> band1 out x y = [round32 p]) /\
    (ok = false -> band1 out x y = [Fin 0]) /\
    (band1 out x y = [p]
     <-> (ok = true /\ round32 p = p) \/ (ok = false /\ p = Fin 0)).
Proof.
  intros Hin Hwin Hgrid.
  destruct (apply_mask_fp_cells _ _ _ _ _ _ _ _ _ s_dtype h_dtype d_dtype
              slope_max hand_max dist_max window Hin Hwin)
    as (dst & Hrun & Hcells).
  eexists. split; [exact Hrun|]. cbn [band1].
  rewrite Hcells, Hgrid, mask_cell_fp_admissible.
  destruct (admissible _ _ _ _ _ _ _); cbn zeta.
  - repeat split; auto; try discriminate.
    + intros E. left. split; [reflexivity | congruence].
    + intros [[_ E] | [E _]]; [congruence | discriminate].
  - repeat split; auto; try discriminate.
    + intros E. right. split; [reflexivity | congruence].
    + intros [[E _] | [_ ->]]; [discriminate | reflexivity].
Qed.

Lemma mask_admissibility_witness :
  exists out,
    apply_mask_fp example_mask_fs
                  "p_terrain.tif" "slope.tif" "hand.tif" "dist2stream.tif"
                  float32 float32 float32
                  (Fin 10) (Fin 15) (Fin 300) 1024 = Ok out /\
    band1 out 0 0 = [round32 (Fin (73 / 100))] /\ band1 out 1 0 = [Fin 0].
Proof.
  destruct (mask_admissibility example_mask_fs
              "p_terrain.tif" "slope.tif" "hand.tif" "dist2stream.tif"
              example_prob example_slope example_hand example_dist
              float32 float32 float32
              (Fin 10) (Fin 15) (Fin 300) 1024 0 0
              example_mask_inputs eq_refl eq_refl)
    as (out & Hrun & Hpass & _).
  destruct (mask_admissibility example_mask_fs
              "p_terrain.tif" "slope.tif" "hand.tif" "dist2stream.tif"
              example_prob example_slope example_hand example_dist
              float32 float32 float32
              (Fin 10) (Fin 15) (Fin 300) 1024 1 0
              example_mask_inputs eq_refl eq_refl)
    as (out' & Hrun' & _ & Hfail & _).
  rewrite Hrun in Hrun'. injection Hrun' as <-.
  destruct (example_maxima float32) as (E10 & E15 & E300).
  exists out. split; [exact Hrun|]. split.
  - apply Hpass. rewrite E10, E15, E300. unfold admissible. cbn.
    rewrite (Rleb_true 8 10), (Rleb_true 5 15), (Rleb_true 50 300) by lra.
    reflexivity.
  - apply Hfail. rewrite E10, E15, E300. unfold admissible. cbn.
    rewrite (Rleb_false 12 10) by lra. reflexivity.
Defined.

(** ** The grid check *)

Lemma for_each_raise {S : Type} (P : exn -> Prop)
  (body : S -> Z -> Result S) (l : list Z) (s : S) (e : exn) :
  (forall s i e, body s i = Raise e -> P e) ->
  for_each l body s = Raise e -> P e.
Proof.
  intros Hbody. revert s; induction l as [|i l IH]; intros s; cbn.
  - discriminate.
  - destruct (body s i) as [s'|e'] eqn:E; cbn.
    + apply IH.
    + intros [= <-]. eapply Hbody, E.
Qed.

Lemma py_range_raise start stop step e :
  py_range start stop step = Raise e -> ~ GridMismatch e.
Proof.
  unfold py_range. destruct (step =? 0); [|discriminate].
  intros [= <-] [H | H]; discriminate.
Qed.

(** Once the grid check has passed, no later step raises GridMismatch. *)
Lemma blend_loop_raise (base_band weight_band : band npfloat) nodata
  strength neutral_value eps xsize ysize block_x block_y out e :
  (ys <- py_range 0 ysize block_y ;;
   for_each ys (fun out_band y =>
     let rows := Z.min block_y (ysize - y) in
     xs <- py_range 0 xsize block_x ;;
     for_each xs (fun out_band x =>
       let cols := Z.min block_x (xsize - x) in
       let blended :=
         blend_block base_band weight_band nodata
                     strength neutral_value eps x y cols rows in
       Ok (WriteArray out_band blended x y)) out_band) out) = Raise e ->
  ~ GridMismatch e.
Proof.
  destruct (py_range 0 ysize block_y) as [ys|e'] eqn:Eys; cbn [bind].
  - apply (for_each_raise (fun e => ~ GridMismatch e)). intros s y e1.
    destruct (py_range 0 xsize block_x) as [xs|e2] eqn:Exs; cbn [bind].
    + apply (for_each_raise (fun e => ~ GridMismatch e)).
      intros; discriminate.
    + intros [= <-]. eapply py_range_raise, Exs.
  - intros [= <-]. eapply py_range_raise, Eys.
Qed.

(** C5.  With both rasters on disk, [blend_probabilities] raises the
    grid-mismatch error exactly when the base and weight rasters differ in
    width, in height or in geotransform; when the three are identical, the
    block size is positive and the base raster declares a nodata value, it
    returns a dataset in which every cell of the grid was written. *)
Theorem grid_mismatch_precondition fs base_path weight_path base_ds weight_ds
  strength neutral_value eps :
  fs base_path = Some base_ds ->
  fs weight_path = Some weight_ds ->
  ((exists e,
       blend_probabilities fs base_path weight_path strength neutral_value eps
       = Raise e /\ GridMismatch e)
   <-> (RasterXSize base_ds <> RasterXSize weight_ds
        \/ RasterYSize base_ds <> RasterYSize weight_ds
        \/ GeoTransform base_ds <> GeoTransform weight_ds)) /\
  (RasterXSize base_ds = RasterXSize weight_ds ->
   RasterYSize base_ds = RasterYSize weight_ds ->
   GeoTransform base_ds = GeoTransform weight_ds ->
   0 < fst (BlockSize base_ds) -> 0 < snd (BlockSize base_ds) ->
   NoDataValue base_ds <> None ->
   exists out,
     blend_probabilities fs base_path weight_path strength neutral_value eps
     = Ok out /\
     forall x y,
       in_grid (RasterXSize base_ds) (RasterYSize base_ds) x y = true ->
       List.length (band1 out x y) = 1%nat).
Proof.
  intros Hb Hw. split.
  - unfold blend_probabilities, _open_base_raster. rewrite Hb, Hw.
    cbn [bind].
    destruct (Z.eqb_spec (RasterXSize base_ds) (RasterXSize weight_ds))
      as [EX|NX]; cbn [negb orb].
    2:{ split; [intros _; left; exact NX|].
        intros _. eexists. split; [reflexivity | left; reflexivity]. }
    destruct (Z.eqb_spec (RasterYSize base_ds) (RasterYSize weight_ds))
      as [EY|NY]; cbn [negb orb].
    2:{ split; [intros _; right; left; exact NY|].
        intros _. eexists. split; [reflexivity | left; reflexivity]. }
    destruct (geotransform_eqb (GeoTransform base_ds) (GeoTransform weight_ds))
      eqn:EG; cbn [negb].
    + apply geotransform_eqb_true_iff in EG. split.
      * intros (e & Hrun & Hmis). exfalso.
        destruct (BlockSize base_ds) as [block_x block_y].
        revert Hrun Hmis.
        match goal with
        | |- bind ?m ?k = _ -> _ =>
            destruct m as [ys|e'] eqn:Eys; cbn [bind]
        end.
        -- match goal with
           | |- bind ?m ?k = _ -> _ =>
               destruct m as [ob|e'] eqn:Eob; cbn [bind]
           end; [discriminate|].
           intros [= <-].
           eapply (blend_loop_raise (band1 base_ds) (band1 weight_ds)).
           rewrite Eys. cbn [bind]. exact Eob.
        -- intros [= <-]. eapply py_range_raise, Eys.
      * intros [H | [H | H]]; contradiction.
    + split.
      * intros _. right; right. intros E.
        apply geotransform_eqb_true_iff in E. congruence.
      * intros _. eexists. split; [reflexivity | right; reflexivity].
  - intros HX HY HG Hbx Hby Hnd.
    destruct (blend_probabilities_cells fs base_path weight_path base_ds
                weight_ds strength neutral_value eps)
      as (out_band & Hrun & Hcells).
    { repeat split; assumption. }
    eexists. split; [exact Hrun|]. intros x y Hgrid. cbn [band1].
    rewrite Hcells, Hgrid. reflexivity.
Qed.

Lemma grid_mismatch_precondition_witness :
  exists out,
    blend_probabilities example_fs "base.tif" "weight.tif"
                        (Fin 2) (Fin (1 / 2)) (Fin (1 / 1000000)) = Ok out /\
    forall x y, in_grid 4 4 x y = true -> List.length (band1 out x y) = 1%nat.
Proof.
  destruct (grid_mismatch_precondition example_fs "base.tif" "weight.tif"
              example_base example_weight
              (Fin 2) (Fin (1 / 2)) (Fin (1 / 1000000)) eq_refl eq_refl)
    as [_ Hrun].
  apply Hrun; first [reflexivity | cbn; lia | discriminate].
Defined.

(** ** Normalization of the hotspot attribute *)

Lemma py_min_spec (vals : list R) :
  vals <> [] ->
  exists vmin, py_min vals = Ok vmin /\ In vmin vals
               /\ forall a, In a vals -> (vmin <= a)%R.
Proof.
  destruct vals as [|v vs]; [congruence|]. intros _.
  eexists. split; [reflexivity|].
  assert (H : forall l m,
             let r := fold_left (fun m x => if Rltb x m then x else m) l m in
             (r = m \/ In r l) /\ (r <= m)%R
             /\ forall a, In a l -> (r <= a)%R).
  { induction l as [|x l IH]; intros m; cbn.
    - split; [left; reflexivity|]. split; [lra | tauto].
    - destruct (IH (if Rltb x m then x else m)) as (Hin & Hle & Hall).
      unfold Rltb in *. destruct (Rlt_dec x m).
      + split; [destruct Hin; auto|]. split; [lra|].
        intros a [<- | Ha]; [lra | auto].
      + split; [destruct Hin; auto|]. split; [lra|].
        intros a [<- | Ha]; [lra | auto]. }
  destruct (H vs v) as (Hin & Hle & Hall). split.
  - destruct Hin as [-> | Hin]; [left; reflexivity | right; exact Hin].
  - intros a [<- | Ha]; [exact Hle | apply Hall, Ha].
Qed.

Lemma py_max_spec (vals : list R) :
  vals <> [] ->
  exists vmax, py_max vals = Ok vmax /\ In vmax vals
               /\ forall a, In a vals -> (a <= vmax)%R.
Proof.
  destruct vals as [|v vs]; [congruence|]. intros _.
  eexists. split; [reflexivity|].
  assert (H : forall l m,
             let r := fold_left (fun m x => if Rltb m x then x else m) l m in
             (r = m \/ In r l) /\ (m <= r)%R
             /\ forall a, In a l -> (a <= r)%R).
  { induction l as [|x l IH]; intros m; cbn.
    - split; [left; reflexivity|]. split; [lra | tauto].
    - destruct (IH (if Rltb m x then x else m)) as (Hin & Hle & Hall).
      unfold Rltb in *. destruct (Rlt_dec m x).
      + split; [destruct Hin; auto|]. split; [lra|].
        intros a [<- | Ha]; [lra | auto].
      + split; [destruct Hin; auto|]. split; [lra|].
        intros a [<- | Ha]; [lra | auto]. }
  destruct (H vs v) as (Hin & Hle & Hall). split.
  - destruct Hin as [-> | Hin]; [left; reflexivity | right; exact Hin].
  - intros a [<- | Ha]; [exact Hle | apply Hall, Ha].
Qed.

(** The values collected by the first loop. *)
Lemma collected_values (layer : Layer) (value_field : string) (vals : list R) :
  map (fun feat => GetField feat value_field) layer = map Some vals ->
  flat_map (fun feat => match GetField feat value_field with
                        | Some val => [val]
                        | None => []
                        end) layer = vals.
Proof.
  revert vals; induction layer as [|feat layer IH]; intros [|a vals];
    cbn; try discriminate; [reflexivity|].
  intros [= -> H]. cbn. f_equal. apply IH, H.
Qed.

(** The second loop on a layer without null attributes. *)
Lemma normalize_all (layer : Layer) (value_field : string) (vals : list R)
  (vmin span : R) (body : Feature -> Result Feature) :
  (forall feat,
      body feat
      = (raw_float <- py_float (GetField feat value_field) ;;
         Ok (SetField feat "WNORM" ((raw_float - vmin) / span)%R))) ->
  map (fun feat => GetField feat value_field) layer = map Some vals ->
  exists mem_layer,
    for_features layer body = Ok mem_layer /\
    map (fun feat => GetField feat "WNORM") mem_layer
    = map (fun a => Some ((a - vmin) / span)%R) vals.
Proof.
  intros Hbody.
  revert vals; induction layer as [|feat layer IH]; intros [|a vals] H;
    try discriminate.
  - exists []. split; reflexivity.
  - cbn [map] in H. injection H as Ha H.
    destruct (IH vals H) as (mem & Hrun & Hmem).
    cbn [for_features]. rewrite Hbody, Ha, Hrun. cbn [py_float bind].
    eexists. split; [reflexivity|]. cbn [map]. rewrite Hmem.
    unfold GetField at 1, SetField. rewrite String.eqb_refl. reflexivity.
Qed.

(** The second loop on a layer with a null attribute. *)
Lemma normalize_null (layer : Layer) (value_field : string) (vmin span : R)
  (body : Feature -> Result Feature) :
  (forall feat,
      body feat
      = (raw_float <- py_float (GetField feat value_field) ;;
         Ok (SetField feat "WNORM" ((raw_float - vmin) / span)%R))) ->
  (exists feat, In feat layer /\ GetField feat value_field = None) ->
  for_features layer body = Raise float_of_None.
Proof.
  intros Hbody.
  induction layer as [|feat layer IH]; intros (f & Hin & Hnull).
  - destruct Hin.
  - cbn [for_features]. rewrite Hbody.
    destruct (GetField feat value_field) as [a|] eqn:E; cbn [py_float bind].
    + destruct Hin as [-> | Hin]; [congruence|].
      rewrite IH by (exists f; auto). reflexivity.
    + reflexivity.
Qed.

Lemma span_of_spec (vmin vmax : R) :
  (vmax <> vmin -> span_of vmin vmax = (vmax - vmin)%R) /\
  (vmax = vmin -> span_of vmin vmax = 1%R).
Proof.
  unfold span_of, Reqb. destruct (Req_dec_T vmax vmin); cbn; split;
    intros; congruence.
Qed.

(** [rasterize_hotspots] on a layer none of whose attributes is null. *)
Lemma rasterize_hotspots_values fs vs hotspots_path template_path value_field
  neutral_value base_ds layer vals :
  fs template_path = Some base_ds ->
  vs hotspots_path = Some layer ->
  vals <> [] ->
  map (fun feat => GetField feat value_field) layer = map Some vals ->
  exists vmin vmax mem_layer out_ds,
    (In vmin vals /\ forall a, In a vals -> (vmin <= a)%R) /\
    (In vmax vals /\ forall a, In a vals -> (a <= vmax)%R) /\
    rasterize_hotspots fs vs hotspots_path template_path value_field
                       neutral_value = Ok (mem_layer, out_ds) /\
    map (fun feat => GetField feat "WNORM") mem_layer
    = map (fun a => Some ((a - vmin) / span_of vmin vmax)%R) vals.
Proof.
  intros Hfs Hvs Hne Hvals.
  destruct (py_min_spec vals Hne) as (vmin & Hmin & Hmin_in & Hmin_le).
  destruct (py_max_spec vals Hne) as (vmax & Hmax & Hmax_in & Hmax_le).
  destruct (normalize_all layer value_field vals vmin (span_of vmin vmax) _
              (fun _ => eq_refl) Hvals) as (mem_layer & Hloop & Hnorm).
  exists vmin, vmax, mem_layer. eexists.
  split; [split; assumption|]. split; [split; assumption|].
  split; [|exact Hnorm].
  unfold rasterize_hotspots, _open_base_raster. rewrite Hfs, Hvs.
  cbn [bind]. rewrite (collected_values layer value_field vals Hvals).
  assert (Hlen : (Z.of_nat (List.length layer) =? 0) = false).
  { apply Z.eqb_neq. destruct layer; [|cbn; lia].
    destruct vals; [congruence | discriminate]. }
  rewrite Hlen. destruct vals as [|v vals']; [congruence|].
  rewrite Hmin, Hmax. cbn [bind]. fold (span_of vmin vmax).
  rewrite Hloop. cbn [bind]. reflexivity.
Qed.

(** ** Normalization in Python's floats *)

Lemma overflow64_large : (1024 < overflow64)%R.
Proof.
  unfold overflow64.
  assert (T : (2 ^ 10 <= 2 ^ 1023)%R) by (apply Rle_pow; [lra | lia]).
  revert T. generalize (2 ^ 1023)%R. intros t T.
  assert (P10 : (2 ^ 10 = 1024)%R) by (simpl; lra).
  assert (P53 : (2 ^ 53 = 9007199254740992)%R) by (simpl; lra).
  rewrite P10 in T. rewrite P53. lra.
Qed.

Lemma max_float64_extreme :
  (0 < max_float64)%R /\ (max_float64 < overflow64)%R
  /\ (overflow64 <= 2 * max_float64)%R.
Proof.
  unfold overflow64, max_float64.
  assert (T : (0 < 2 ^ 1023)%R) by (apply pow_lt; lra).
  revert T. generalize (2 ^ 1023)%R. intros t T.
  assert (P52 : (2 ^ 52 = 4503599627370496)%R) by (simpl; lra).
  assert (P53 : (2 ^ 53 = 9007199254740992)%R) by (simpl; lra).
  rewrite P52, P53. repeat split; nra.
Qed.

Lemma float64_of_id (x : R) :
  (- overflow64 < x < overflow64)%R -> float64_of x = Fin x.
Proof.
  intros [L U]. unfold float64_of.
  destruct (Rle_dec overflow64 x); [lra|].
  destruct (Rle_dec x (- overflow64)); [lra | reflexivity].
Qed.

Lemma py_sub_fin (a b : R) : py_sub (Fin a) (Fin b) = float64_of (a - b).
Proof. reflexivity. Qed.

Lemma py_truediv_fin (x y : R) :
  y <> 0%R -> (- overflow64 < x / y < overflow64)%R ->
  py_truediv (Fin x) (Fin y) = Ok (Fin (x / y)).
Proof.
  intros Hy Hq. unfold py_truediv, np_div, Reqb.
  destruct (Req_dec_T y 0); [contradiction|].
  rewrite float64_of_id by exact Hq. reflexivity.
Qed.

(** The second loop on a layer without null attributes, for a body that
    gives the feature of attribute [a] the value [g a]. *)
Lemma normalize_all64 (layer : Layer) (value_field : string) (vals : list R)
  (body : Feature -> Result Feature64) (g : R -> npfloat) :
  (forall feat a,
      GetField feat value_field = Some a -> In a vals ->
      body feat = Ok (SetField64 feat "WNORM" (g a))) ->
  map (fun feat => GetField feat value_field) layer = map Some vals ->
  exists mem_layer,
    for_features64 layer body = Ok mem_layer /\
    map (fun feat => GetField64 feat "WNORM") mem_layer
    = map (fun a => Some (g a)) vals.
Proof.
  revert vals; induction layer as [|feat layer IH]; intros [|a vals] Hbody H;
    try discriminate.
  - exists []. split; reflexivity.
  - cbn [map] in H. injection H as Ha H.
    destruct (IH vals) as (mem & Hrun & Hmem).
    { intros f b Hf Hb. apply Hbody; [exact Hf | right; exact Hb]. }
    { exact H. }
    cbn [for_features64].
    rewrite (Hbody feat a Ha (or_introl eq_refl)), Hrun. cbn [bind].
    eexists. split; [reflexivity|]. cbn [map]. rewrite Hmem.
    unfold GetField64 at 1, SetField64. rewrite String.eqb_refl. reflexivity.
Qed.

(** [rasterize_hotspots_fp] on a layer none of whose attributes is null
    and whose range does not overflow. *)
Lemma rasterize_hotspots_fp_values fs vs hotspots_path template_path
  value_field neutral_value base_ds layer vals :
  fs template_path = Some base_ds ->
  vs hotspots_path = Some layer ->
  vals <> [] ->
  map (fun feat => GetField feat value_field) layer = map Some vals ->
  (forall a b, In a vals -> In b vals -> (a - b < overflow64)%R) ->
  exists vmin vmax mem_layer,
    (In vmin vals /\ forall a, In a vals -> (vmin <= a)%R) /\
    (In vmax vals /\ forall a, In a vals -> (a <= vmax)%R) /\
    rasterize_hotspots_fp fs vs hotspots_path template_path value_field
                          neutral_value
    = Ok (mem_layer,
          Fill (SetNoDataValue
                  (SetProjection
                     (SetGeoTransform
                        (Create (RasterXSize base_ds) (RasterYSize base_ds))
                        (GeoTransform base_ds))
                     (Projection base_ds))
                  (Some (Fin 0)))
               (round32 neutral_value)) /\
    map (fun feat => GetField64 feat "WNORM") mem_layer
    = map (fun a => Some (Fin ((a - vmin) / span_of vmin vmax))%R) vals /\
    (forall a, In a vals -> (0 <= (a - vmin) / span_of vmin vmax <= 1)%R).
Proof.
  intros Hfs Hvs Hne Hvals Hrange.
  destruct (py_min_spec vals Hne) as (vmin & Hmin & Hmin_in & Hmin_le).
  destruct (py_max_spec vals Hne) as (vmax & Hmax & Hmax_in & Hmax_le).
  destruct (span_of_spec vmin vmax) as [Hspan_ne Hspan_eq].
  pose proof overflow64_large as Hbig.
  assert (Hunit : forall a, In a vals ->
                    (0 <= (a - vmin) / span_of vmin vmax <= 1)%R).
  { intros a Ha. pose proof (Hmin_le a Ha). pose proof (Hmax_le a Ha).
    destruct (Req_dec_T vmax vmin) as [E|N].
    + rewrite (Hspan_eq E). lra.
    + rewrite (Hspan_ne N).
      assert (0 < vmax - vmin)%R by (pose proof (Hmin_le vmax Hmax_in); lra).
      split.
      * apply Rmult_le_pos; [lra|]. apply Rlt_le, Rinv_0_lt_compat; lra.
      * apply Rmult_le_reg_r with (vmax - vmin)%R; [lra|].
        unfold Rdiv. rewrite Rmult_assoc, Rinv_l by lra. lra. }
  assert (Hspan0 : span_of vmin vmax <> 0%R).
  { destruct (Req_dec_T vmax vmin) as [E|N].
    + rewrite (Hspan_eq E). lra.
    + rewrite (Hspan_ne N). lra. }
  assert (Hspan : (if negb (Reqb vmax vmin)
                   then py_sub (Fin vmax) (Fin vmin) else Fin 1)
                  = Fin (span_of vmin vmax)).
  { unfold span_of. destruct (negb (Reqb vmax vmin)) eqn:E; [|reflexivity].
    rewrite py_sub_fin. apply float64_of_id.
    pose proof (Hrange vmax vmin Hmax_in Hmin_in).
    pose proof (Hmin_le vmax Hmax_in). lra. }
  destruct (normalize_all64 layer value_field vals
              (fun feat =>
                 raw_float <- py_float (GetField feat value_field) ;;
                 norm <- py_truediv (py_sub (Fin raw_float) (Fin vmin))
                                    (Fin (span_of vmin vmax)) ;;
                 Ok (SetField64 feat "WNORM" norm))
              (fun a => Fin ((a - vmin) / span_of vmin vmax)%R))
    as (mem_layer & Hloop & Hnorm).
  { intros feat a Ha Hin. rewrite Ha. cbn [py_float bind].
    rewrite py_sub_fin, float64_of_id.
    - rewrite py_truediv_fin; [reflexivity | exact Hspan0 |].
      pose proof (Hunit a Hin). lra.
    - pose proof (Hrange a vmin Hin Hmin_in). pose proof (Hmin_le a Hin).
      lra. }
  { exact Hvals. }
  exists vmin, vmax, mem_layer.
  split; [split; assumption|]. split; [split; assumption|].
  split; [|split; [exact Hnorm | exact Hunit]].
  unfold rasterize_hotspots_fp, _open_base_raster. rewrite Hfs, Hvs.
  cbn [bind]. rewrite (collected_values layer value_field vals Hvals).
  assert (Hlen : (Z.of_nat (List.length layer) =? 0) = false).
  { apply Z.eqb_neq. destruct layer; [|cbn; lia].
    destruct vals; [congruence | discriminate]. }
  rewrite Hlen. destruct vals as [|v vals']; [congruence|].
  rewrite Hmin, Hmax. cbn [bind]. rewrite Hspan, Hloop. cbn [bind].
  reflexivity.
Qed.

Lemma GetField_feature_with (field : string) (v : option R) :
  GetField (feature_with field v) field = v.
Proof. unfold GetField, feature_with. now rewrite String.eqb_refl. Qed.

(** Two attribute values [M] and [-M] whose difference overflows: the
    span is infinite, the feature of the greatest value is given NaN. *)
Lemma rasterize_hotspots_fp_overflow fs vs hotspots_path template_path
  value_field neutral_value base_ds (M : R) :
  fs template_path = Some base_ds ->
  vs hotspots_path
  = Some [feature_with value_field (Some M);
          feature_with value_field (Some (- M)%R)] ->
  (0 < M)%R -> (overflow64 <= 2 * M)%R ->
  exists mem_layer out_ds,
    rasterize_hotspots_fp fs vs hotspots_path template_path value_field
                          neutral_value = Ok (mem_layer, out_ds) /\
    map (fun feat => GetField64 feat "WNORM") mem_layer
    = [Some NaN; Some (Fin 0)].
Proof.
  intros Hfs Hvs HM Hover. pose proof overflow64_large as Hbig.
  unfold rasterize_hotspots_fp, _open_base_raster. rewrite Hfs, Hvs.
  cbn [bind List.length Z.of_nat Z.eqb Pos.of_succ_nat Pos.succ flat_map].
  rewrite !GetField_feature_with. cbn [app py_min py_max fold_left bind].
  assert (L1 : Rltb (- M) M = true)
    by (unfold Rltb; destruct (Rlt_dec (- M) M); [reflexivity | lra]).
  assert (L2 : Rltb M (- M) = false)
    by (unfold Rltb; destruct (Rlt_dec M (- M)); [lra | reflexivity]).
  assert (L3 : Reqb M (- M) = false)
    by (unfold Reqb; destruct (Req_dec_T M (- M)); [lra | reflexivity]).
  rewrite L1, L2, L3. cbn [negb].
  assert (S : py_sub (Fin M) (Fin (- M)) = PInf).
  { rewrite py_sub_fin. unfold float64_of.
    destruct (Rle_dec overflow64 (M - - M)); [reflexivity | lra]. }
  assert (Z : py_sub (Fin (- M)) (Fin (- M)) = Fin (- M - - M)).
  { rewrite py_sub_fin. apply float64_of_id. lra. }
  cbn [for_features64]. rewrite !GetField_feature_with.
  cbn [py_float bind]. rewrite S, Z. cbn [py_truediv np_div bind].
  do 2 eexists. split; [reflexivity|].
  cbn [map]. unfold GetField64, SetField64. rewrite String.eqb_refl.
  reflexivity.
Qed.

(** Against C7 as stated.  The layer whose attribute values are the
    largest float64 and its opposite has no null attribute, and the
    feature of the greatest value is given NaN, which is not in [0,1]:
    the difference of the two values overflows, the span is infinite and
    the quotient is infinity over infinity. *)
Lemma normalized_values_counterexample :
  map (fun feat => GetField feat "RVALUE") example_layer_extreme
  = map Some [max_float64; (- max_float64)%R] /\
  exists mem_layer out_ds,
    rasterize_hotspots_fp example_fs example_vs_extreme "extreme.shp"
                          "base.tif" "RVALUE" (Fin (1 / 2))
    = Ok (mem_layer, out_ds) /\
    map (fun feat => GetField64 feat "WNORM") mem_layer
    = [Some NaN; Some (Fin 0)].
Proof.
  split; [reflexivity|].
  destruct max_float64_extreme as (P & _ & O).
  apply (rasterize_hotspots_fp_overflow example_fs example_vs_extreme
           "extreme.shp" "base.tif" "RVALUE" (Fin (1 / 2)) example_base
           max_float64 eq_refl eq_refl P O).
Qed.

(** C7, amended.  On a layer whose features all carry a value and whose
    values differ by less than the float64 overflow threshold, every
    feature receives (a - vmin)/span, with vmin and vmax the least and the
    greatest of the values and span = vmax - vmin when they differ and 1
    otherwise, so that the division never has a zero divisor; every
    normalized value lies in [0,1]; the values 2, 5, 8 give 0, 0.5, 1; and
    values that are all equal give 0 for every feature. *)
Theorem normalized_values fs vs hotspots_path template_path value_field
  neutral_value base_ds layer vals :
  fs template_path = Some base_ds ->
  vs hotspots_path = Some layer ->
  vals <> [] ->
  map (fun feat => GetField feat value_field) layer = map Some vals ->
  (forall a b, In a vals -> In b vals -> (a - b < overflow64)%R) ->
  exists vmin vmax span mem_layer out_ds,
    (In vmin vals /\ forall a, In a vals -> (vmin <= a)%R) /\
    (In vmax vals /\ forall a, In a vals -> (a <= vmax)%R) /\
    (vmax <> vmin -> span = (vmax - vmin)%R) /\
    (vmax = vmin -> span = 1%R) /\
    rasterize_hotspots_fp fs vs hotspots_path template_path value_field
                          neutral_value = Ok (mem_layer, out_ds) /\
    map (fun feat => GetField64 feat "WNORM") mem_layer
    = map (fun a => Some (Fin ((a - vmin) / span))%R) vals /\
    (forall a, In a vals -> (0 <= (a - vmin) / span <= 1)%R) /\
    (vals = [2; 5; 8]%R ->
     map (fun feat => GetField64 feat "WNORM") mem_layer
     = [Some (Fin 0); Some (Fin (1 / 2)); Some (Fin 1)]) /\
    ((forall a b, In a vals -> In b vals -> a = b) ->
     forall feat, In feat mem_layer ->
                  GetField64 feat "WNORM" = Some (Fin 0)).
Proof.
  intros Hfs Hvs Hne Hvals Hrange.
  destruct (rasterize_hotspots_fp_values fs vs hotspots_path template_path
              value_field neutral_value base_ds layer vals
              Hfs Hvs Hne Hvals Hrange)
    as (vmin & vmax & mem_layer & Hmin & Hmax & Hrun & Hnorm & Hunit).
  destruct (span_of_spec vmin vmax) as [Hspan_ne Hspan_eq].
  exists vmin, vmax, (span_of vmin vmax), mem_layer. eexists.
  do 4 (split; [assumption|]). split; [exact Hrun|].
  split; [exact Hnorm|]. split; [exact Hunit|].
  destruct Hmin as [Hmin_in Hmin_le]. destruct Hmax as [Hmax_in Hmax_le].
  split.
  - intros ->. rewrite Hnorm.
    assert (vmin = 2%R).
    { pose proof (Hmin_le 2%R ltac:(cbn; auto)).
      cbn in Hmin_in. destruct Hmin_in as [<- | [<- | [<- | []]]]; lra. }
    assert (vmax = 8%R).
    { pose proof (Hmax_le 8%R ltac:(cbn; auto)).
      cbn in Hmax_in. destruct Hmax_in as [<- | [<- | [<- | []]]]; lra. }
    subst. rewrite Hspan_ne by lra. cbn [map].
    repeat (f_equal; try lra).
  - intros Hall feat Hfeat.
    apply (in_map (fun feat => GetField64 feat "WNORM")) in Hfeat.
    rewrite Hnorm in Hfeat. apply in_map_iff in Hfeat.
    destruct Hfeat as (a & <- & Ha).
    rewrite (Hall a vmin Ha Hmin_in). do 2 f_equal. unfold Rdiv. ring.
Qed.

Lemma normalized_values_witness :
  exists mem_layer out_ds,
    rasterize_hotspots_fp example_fs example_vs "258.shp" "base.tif" "RVALUE"
                          (Fin (1 / 2)) = Ok (mem_layer, out_ds) /\
    map (fun feat => GetField64 feat "WNORM") mem_layer
    = [Some (Fin 0); Some (Fin (1 / 2)); Some (Fin 1)].
Proof.
  assert (Hrange : forall a b : R,
             In a [2; 5; 8]%R -> In b [2; 5; 8]%R -> (a - b < overflow64)%R).
  { pose proof overflow64_large. intros a b Ha Hb. cbn in Ha, Hb.
    destruct Ha as [<- | [<- | [<- | []]]];
      destruct Hb as [<- | [<- | [<- | []]]]; lra. }
  destruct (normalized_values example_fs example_vs "258.shp" "base.tif"
              "RVALUE" (Fin (1 / 2)) example_base example_layer_258
              [2; 5; 8]%R eq_refl eq_refl ltac:(discriminate) eq_refl Hrange)
    as (vmin & vmax & span & mem_layer & out_ds & _ & _ & _ & _ & Hrun & _
        & _ & H258 & _).
  exists mem_layer, out_ds. split; [exact Hrun | exact (H258 eq_refl)].
Defined.

(** C6 at a failing input.  On a layer in which one feature carries a
    value and another has a null attribute, the first loop skips the null
    attribute and the second loop passes it to [float]: normalization
    raises [TypeError]. *)
Theorem normalization_null_attribute fs vs hotspots_path template_path
  value_field neutral_value base_ds layer :
  fs template_path = Some base_ds ->
  vs hotspots_path = Some layer ->
  (exists feat a, In feat layer /\ GetField feat value_field = Some a) ->
  (exists feat, In feat layer /\ GetField feat value_field = None) ->
  rasterize_hotspots fs vs hotspots_path template_path value_field
                     neutral_value = Raise float_of_None.
Proof.
  intros Hfs Hvs (f & a & Hf & Ha) Hnull.
  unfold rasterize_hotspots, _open_base_raster. rewrite Hfs, Hvs.
  cbn [bind].
  assert (Hlen : (Z.of_nat (List.length layer) =? 0) = false).
  { apply Z.eqb_neq. destruct layer; [destruct Hf | cbn; lia]. }
  rewrite Hlen.
  assert (Hin : In a (flat_map (fun feat =>
                                  match GetField feat value_field with
                                  | Some val => [val]
                                  | None => []
                                  end) layer)).
  { apply in_flat_map. exists f. split; [exact Hf|]. rewrite Ha. left.
    reflexivity. }
  destruct (flat_map _ layer) as [|v vals]; [destruct Hin|].
  cbn [py_min py_max bind].
  erewrite normalize_null; [reflexivity | intros; reflexivity | exact Hnull].
Qed.

Lemma normalization_null_attribute_witness :
  rasterize_hotspots example_fs example_vs "null.shp" "base.tif" "RVALUE"
                     (Fin (1 / 2)) = Raise float_of_None.
Proof.
  apply (normalization_null_attribute example_fs example_vs "null.shp"
           "base.tif" "RVALUE" (Fin (1 / 2)) example_base example_layer_null
           eq_refl eq_refl).
  - exists (feature_with "RVALUE" (Some 2%R)), 2%R.
    split; [left; reflexivity | reflexivity].
  - exists (feature_with "RVALUE" None).
    split; [right; left; reflexivity | reflexivity].
Defined.

(** ** Tile sizes and output metadata *)

Lemma example_fs_blocks_inputs (bs : Z * Z) :
  0 < fst bs -> 0 < snd bs ->
  blend_inputs (example_fs_blocks bs) "base.tif" "weight.tif"
               (with_block_size example_base bs) example_weight.
Proof.
  intros Hx Hy. repeat split; first [reflexivity | assumption | discriminate].
Qed.

(** C8.  The blend run on a base raster stored with one positive block
    size and the mask run with one positive window size give, cell for
    cell, the output of any other positive block or window size: each cell
    of the grid is written exactly once, with a value that depends on the
    input cells at its own position only, and no cell outside the grid is
    written. *)
Theorem tiling_invariance
  fs1 fs2 base_path weight_path base_ds weight_ds bs1 bs2
  strength neutral_value eps
  fs prob_path slope_path hand_path dist_path p_src s_src h_src d_src
  slope_max hand_max dist_max window1 window2 :
  blend_inputs fs1 base_path weight_path
               (with_block_size base_ds bs1) weight_ds ->
  blend_inputs fs2 base_path weight_path
               (with_block_size base_ds bs2) weight_ds ->
  mask_inputs fs prob_path slope_path hand_path dist_path
              p_src s_src h_src d_src ->
  0 < window1 -> 0 < window2 ->
  (exists out1 out2,
      blend_probabilities fs1 base_path weight_path
                          strength neutral_value eps = Ok out1 /\
      blend_probabilities fs2 base_path weight_path
                          strength neutral_value eps = Ok out2 /\
      forall x y,
        band1 out1 x y = band1 out2 x y /\
        band1 out1 x y
        = if in_grid (RasterXSize base_ds) (RasterYSize base_ds) x y
          then [blend_cell (NoDataValue base_ds) strength neutral_value eps
                           (band1 base_ds x y) (band1 weight_ds x y)]
          else []) /\
  (exists out1 out2,
      apply_mask fs prob_path slope_path hand_path dist_path
                 slope_max hand_max dist_max window1 = Ok out1 /\
      apply_mask fs prob_path slope_path hand_path dist_path
                 slope_max hand_max dist_max window2 = Ok out2 /\
      forall x y,
        band1 out1 x y = band1 out2 x y /\
        band1 out1 x y
        = if in_grid (RasterXSize p_src) (RasterYSize p_src) x y
          then [mask_cell slope_max hand_max dist_max
                          (band1 p_src x y) (band1 s_src x y)
                          (band1 h_src x y) (band1 d_src x y)]
          else []).
Proof.
  intros Hb1 Hb2 Hm Hw1 Hw2. split.
  - destruct (blend_probabilities_cells _ _ _ _ _ strength neutral_value eps
                Hb1) as (band_1 & Hrun1 & Hcells1).
    destruct (blend_probabilities_cells _ _ _ _ _ strength neutral_value eps
                Hb2) as (band_2 & Hrun2 & Hcells2).
    cbn [with_block_size RasterXSize RasterYSize NoDataValue band1]
      in Hcells1, Hcells2.
    do 2 eexists. split; [exact Hrun1|]. split; [exact Hrun2|].
    intros x y. cbn [band1]. rewrite Hcells1, Hcells2. split; reflexivity.
  - destruct (apply_mask_cells _ _ _ _ _ _ _ _ _ slope_max hand_max dist_max
                window1 Hm Hw1) as (band_1 & Hrun1 & Hcells1).
    destruct (apply_mask_cells _ _ _ _ _ _ _ _ _ slope_max hand_max dist_max
                window2 Hm Hw2) as (band_2 & Hrun2 & Hcells2).
    do 2 eexists. split; [exact Hrun1|]. split; [exact Hrun2|].
    intros x y. cbn [band1]. rewrite Hcells1, Hcells2. split; reflexivity.
Qed.

Lemma tiling_invariance_witness :
  (exists out1 out2,
      blend_probabilities (example_fs_blocks (4, 1)) "base.tif" "weight.tif"
                          (Fin 2) (Fin (1 / 2)) (Fin (1 / 1000000))
      = Ok out1 /\
      blend_probabilities (example_fs_blocks (3, 2)) "base.tif" "weight.tif"
                          (Fin 2) (Fin (1 / 2)) (Fin (1 / 1000000))
      = Ok out2 /\
      forall x y, band1 out1 x y = band1 out2 x y) /\
  (exists out1 out2,
      apply_mask example_mask_fs
                 "p_terrain.tif" "slope.tif" "hand.tif" "dist2stream.tif"
                 (Fin 10) (Fin 15) (Fin 300) 1 = Ok out1 /\
      apply_mask example_mask_fs
                 "p_terrain.tif" "slope.tif" "hand.tif" "dist2stream.tif"
                 (Fin 10) (Fin 15) (Fin 300) 1024 = Ok out2 /\
      forall x y, band1 out1 x y = band1 out2 x y).
Proof.
  destruct (tiling_invariance
              (example_fs_blocks (4, 1)) (example_fs_blocks (3, 2))
              "base.tif" "weight.tif" example_base example_weight
              (4, 1) (3, 2) (Fin 2) (Fin (1 / 2)) (Fin (1 / 1000000))
              example_mask_fs
              "p_terrain.tif" "slope.tif" "hand.tif" "dist2stream.tif"
              example_prob example_slope example_hand example_dist
              (Fin 10) (Fin 15) (Fin 300) 1 1024
              (example_fs_blocks_inputs (4, 1) eq_refl eq_refl)
              (example_fs_blocks_inputs (3, 2) eq_refl eq_refl)
              example_mask_inputs eq_refl eq_refl)
    as [(b1 & b2 & Hb1 & Hb2 & Hb) (m1 & m2 & Hm1 & Hm2 & Hm)].
  split.
  - exists b1, b2. repeat split; try assumption. intros x y. apply Hb.
  - exists m1, m2. repeat split; try assumption. intros x y. apply Hm.
Defined.

(** Whatever [blend_probabilities] returns carries the base raster's
    metadata. *)
Lemma blend_probabilities_metadata fs base_path weight_path base_ds
  strength neutral_value eps out :
  fs base_path = Some base_ds ->
  blend_probabilities fs base_path weight_path strength neutral_value eps
  = Ok out ->
  RasterXSize out = RasterXSize base_ds /\
  RasterYSize out = RasterYSize base_ds /\
  GeoTransform out = GeoTransform base_ds /\
  Projection out = Projection base_ds /\
  NoDataValue out = NoDataValue base_ds.
Proof.
  intros Hb. unfold blend_probabilities, _open_base_raster. rewrite Hb.
  cbn [bind]. destruct (fs weight_path) as [weight_ds|]; [|discriminate].
  cbn [bind].
  destruct (negb _ || negb _); [discriminate|].
  destruct (negb _); [discriminate|].
  destruct (BlockSize base_ds) as [block_x block_y].
  destruct (py_range 0 (RasterYSize base_ds) block_y) as [ys|];
    [|discriminate].
  cbn [bind].
  match goal with
  | |- bind ?m ?k = _ -> _ => destruct m as [ob|]; [|discriminate]
  end.
  cbn [bind]. intros [= <-]. repeat split.
Qed.

(** C10.  The dataset [blend_probabilities] creates has the width, height,
    geotransform, projection and nodata sentinel of the base raster,
    whatever the weight raster is; the weight raster's own projection and
    nodata value are never read. *)
Theorem blend_output_metadata fs base_path weight_path base_ds weight_ds
  strength neutral_value eps :
  blend_inputs fs base_path weight_path base_ds weight_ds ->
  exists out,
    blend_probabilities fs base_path weight_path strength neutral_value eps
    = Ok out /\
    RasterXSize out = RasterXSize base_ds /\
    RasterYSize out = RasterYSize base_ds /\
    GeoTransform out = GeoTransform base_ds /\
    Projection out = Projection base_ds /\
    NoDataValue out = NoDataValue base_ds /\
    forall fs' weight_path' out',
      fs' base_path = Some base_ds ->
      blend_probabilities fs' base_path weight_path'
                          strength neutral_value eps = Ok out' ->
      RasterXSize out' = RasterXSize out /\
      RasterYSize out' = RasterYSize out /\
      GeoTransform out' = GeoTransform out /\
      Projection out' = Projection out /\
      NoDataValue out' = NoDataValue out.
Proof.
  intros Hin.
  destruct (blend_probabilities_cells _ _ _ _ _ strength neutral_value eps Hin)
    as (out_band & Hrun & _).
  eexists. split; [exact Hrun|]. cbn.
  do 5 (split; [reflexivity|]).
  intros fs' weight_path' out' Hb' Hrun'.
  exact (blend_probabilities_metadata _ _ _ _ _ _ _ _ Hb' Hrun').
Qed.

Lemma blend_output_metadata_witness :
  exists out,
    blend_probabilities example_fs "base.tif" "weight.tif"
                        (Fin 2) (Fin (1 / 2)) (Fin (1 / 1000000)) = Ok out /\
    RasterXSize out = 4 /\ RasterYSize out = 4 /\
    GeoTransform out = example_gt /\ Projection out = "EPSG:32629" /\
    NoDataValue out = Some (Fin (-9999)).
Proof.
  destruct (blend_output_metadata example_fs "base.tif" "weight.tif"
              example_base example_weight
              (Fin 2) (Fin (1 / 2)) (Fin (1 / 1000000)) example_blend_inputs)
    as (out & Hrun & HX & HY & HG & HP & HN & _).
  exists out. repeat split; assumption.
Defined.

(** ** The hydrology steps of [main] *)

Section WhiteboxProps.
Variable world : Type.
Variable wbt_call : world -> string -> kwargs -> bool * world.
Variable path_exists : world -> string -> bool.
Variable rasters : world -> filesystem.

Local Abbreviation run_wbt' := (run_wbt world wbt_call).
Local Abbreviation bindM' := (bindM world).

(** One call: the tool is invoked and recorded, and a false value raises
    the error that names the tool and its arguments. *)
Lemma run_wbt_step (tool : string) (kw : kwargs) (s : state world) :
  run_wbt' tool kw s
  = (mk_state (snd (wbt_call (the_world s) tool kw))
              (invoked s ++ [(tool, kw)]),
     if fst (wbt_call (the_world s) tool kw) then Ok tt
     else Raise (RuntimeError_wbt tool kw)).
Proof.
  unfold run_wbt, bindM, call_tool.
  destruct (wbt_call (the_world s) tool kw) as [[|] w']; reflexivity.
Qed.

Lemma all_return_true_cons (w : world) c calls :
  all_return_true wbt_call w (c :: calls) <->
  fst (wbt_call w (fst c) (snd c)) = true /\
  all_return_true wbt_call (snd (wbt_call w (fst c) (snd c))) calls.
Proof.
  unfold all_return_true, returns_true. split.
  - intros H. split.
    + apply (H [] c calls). reflexivity.
    + intros pre c' post ->. apply (H (c :: pre) c' post). reflexivity.
  - intros [H1 H2] [|c0 pre] c' post E; injection E as -> E.
    + exact H1.
    + subst. apply (H2 pre c' post). reflexivity.
Qed.

Lemma run_calls_ok calls (s : state world) :
  all_return_true wbt_call (the_world s) calls ->
  run_calls wbt_call calls s
  = (mk_state (world_after wbt_call (the_world s) calls)
              (invoked s ++ calls), Ok tt).
Proof.
  revert s; induction calls as [|c calls IH]; intros s Hall.
  - cbn. rewrite app_nil_r. destruct s; reflexivity.
  - apply all_return_true_cons in Hall. destruct Hall as [Hc Hall].
    destruct c as [tool kw]. cbn [fst snd] in Hc, Hall.
    cbn [run_calls fst snd]. unfold bindM. rewrite run_wbt_step, Hc.
    rewrite IH by exact Hall. cbn. rewrite <- app_assoc. reflexivity.
Qed.

Lemma run_calls_fail pre c post (s : state world) :
  all_return_true wbt_call (the_world s) pre ->
  returns_true wbt_call (the_world s) pre c = false ->
  run_calls wbt_call (pre ++ c :: post) s
  = (mk_state (world_after wbt_call (the_world s) (pre ++ [c]))
              (invoked s ++ pre ++ [c]),
     Raise (RuntimeError_wbt (fst c) (snd c))).
Proof.
  revert s; induction pre as [|c0 pre IH]; intros s Hall Hc.
  - destruct c as [tool kw].
    cbn [app run_calls fst snd]. unfold bindM. rewrite run_wbt_step.
    unfold returns_true in Hc. cbn in Hc. rewrite Hc. reflexivity.
  - apply all_return_true_cons in Hall. destruct Hall as [Hc0 Hall].
    destruct c0 as [tool0 kw0]. cbn [fst snd] in Hc0, Hall.
    cbn [app run_calls fst snd]. unfold bindM at 1.
    rewrite run_wbt_step, Hc0.
    rewrite IH; [|exact Hall | exact Hc].
    cbn. rewrite <- app_assoc. reflexivity.
Qed.

(** [main] past its two file checks is the seven calls followed by the
    mask. *)
Lemma main_steps (args : Args) (tmpdir : string) (s : state world) :
  path_exists (the_world s) (dem args) = true ->
  path_exists (the_world s) (prob args) = true ->
  main world wbt_call path_exists rasters args tmpdir s
  = match run_calls wbt_call (hydrology_steps args tmpdir) s with
    | (s', Ok _) =>
        (s', apply_mask (rasters (the_world s')) (prob args)
                        (tmpdir ++ "/slope.tif") (tmpdir ++ "/hand.tif")
                        (tmpdir ++ "/dist2stream.tif")
                        (slope_max args) (hand_max args) (dist_max args)
                        1024)
    | (s', Raise e) => (s', Raise e)
    end.
Proof.
  intros Hdem Hprob. unfold main.
  unfold bindM at 1. unfold get_world at 1. rewrite Hdem, Hprob.
  cbn [negb hydrology_steps run_calls fst snd]. unfold bindM, ret, lift,
    get_world.
  repeat match goal with
         | |- context [run_wbt' ?t ?k ?s] => destruct (run_wbt' t k s) as [? [[]|?]]
         end; reflexivity.
Qed.

End WhiteboxProps.

(** ** The return codes of the tools *)

Section WhiteboxCodes.
Variable world : Type.
Variable wbt_tool : world -> string -> kwargs -> Z * world.
Variable path_exists : world -> string -> bool.
Variable rasters : world -> filesystem.

Lemma returns_true_code (w : world) pre c :
  returns_true (wbt_truth wbt_tool) w pre c
  = negb (completed (return_code wbt_tool w pre c)).
Proof.
  unfold returns_true, return_code, wbt_truth, py_bool, completed.
  destruct (wbt_tool _ _ _); reflexivity.
Qed.

(** C9 at a failing input.  The seven steps are written in the order
    fill_depressions, d8_pointer, d8_flow_accumulation, extract_streams,
    euclidean_distance, elevation_above_stream, slope, the first consuming
    the DEM and every later one only outputs of earlier ones.  But
    [run_wbt] raises when the return code of a tool is 0, the code of a
    completed run, and goes on when it is not: the run ends at the first
    tool that completes, with the error that says this tool failed and
    without any later call; and when every tool ends in an error all seven
    are called, none raises, and the mask is applied to whatever rasters
    they left. *)
Theorem hydrology_status_inverted (args : Args) (tmpdir : string)
  (w : world) :
  path_exists w (dem args) = true ->
  path_exists w (prob args) = true ->
  let steps := hydrology_steps args tmpdir in
  let run :=
    main world (wbt_truth wbt_tool) path_exists rasters args tmpdir
         (mk_state w []) in
  map fst steps
  = ["fill_depressions"; "d8_pointer"; "d8_flow_accumulation";
     "extract_streams"; "euclidean_distance"; "elevation_above_stream";
     "slope"] /\
  (forall c, nth_error steps 0 = Some c -> inputs_of c = [PyStr (dem args)]) /\
  (forall i c,
      nth_error steps (S i) = Some c ->
      inputs_of c <> [] /\
      forall v, In v (inputs_of c) ->
                exists j c', (j <= i)%nat /\ nth_error steps j = Some c'
                             /\ output_of c' = Some v) /\
  (forall pre c post,
      steps = pre ++ c :: post ->
      (forall pre' c' post',
          pre = pre' ++ c' :: post' ->
          completed (return_code wbt_tool w pre' c') = false) ->
      completed (return_code wbt_tool w pre c) = true ->
      run = (mk_state (world_after (wbt_truth wbt_tool) w (pre ++ [c]))
                      (pre ++ [c]),
             Raise (RuntimeError_wbt (fst c) (snd c)))) /\
  ((forall pre c post,
       steps = pre ++ c :: post ->
       completed (return_code wbt_tool w pre c) = false) ->
   run = (mk_state (world_after (wbt_truth wbt_tool) w steps) steps,
          apply_mask (rasters (world_after (wbt_truth wbt_tool) w steps))
                     (prob args)
                     (tmpdir ++ "/slope.tif") (tmpdir ++ "/hand.tif")
                     (tmpdir ++ "/dist2stream.tif")
                     (slope_max args) (hand_max args) (dist_max args)
                     1024)).
Proof.
  intros Hdem Hprob steps run.
  assert (Hrun : run
    = match run_calls (wbt_truth wbt_tool) steps (mk_state w []) with
      | (s', Ok _) =>
          (s', apply_mask (rasters (the_world s')) (prob args)
                          (tmpdir ++ "/slope.tif") (tmpdir ++ "/hand.tif")
                          (tmpdir ++ "/dist2stream.tif")
                          (slope_max args) (hand_max args) (dist_max args)
                          1024)
      | (s', Raise e) => (s', Raise e)
      end) by (apply main_steps; assumption).
  split; [reflexivity|]. split; [|split; [|split]].
  - intros c [= <-]. reflexivity.
  - intros i c Hc.
    do 6 (destruct i as [|i];
          [ injection Hc as <-; split; [discriminate|];
            intros v Hv; cbn in Hv;
            repeat (destruct Hv as [<- | Hv]);
            try contradiction;
            first [ exists 0%nat; eexists; split; [lia|];
                    split; reflexivity
                  | exists 2%nat; eexists; split; [lia|];
                    split; reflexivity
                  | exists 3%nat; eexists; split; [lia|];
                    split; reflexivity ]
          | ]).
    destruct i; discriminate.
  - intros pre c post E Hpre Hc. rewrite Hrun, E.
    rewrite (run_calls_fail world (wbt_truth wbt_tool) pre c post
               (mk_state w [])).
    + reflexivity.
    + intros pre' c' post' E'. cbn [the_world].
      rewrite returns_true_code, (Hpre pre' c' post' E'). reflexivity.
    + cbn [the_world]. rewrite returns_true_code, Hc. reflexivity.
  - intros Hall. rewrite Hrun.
    rewrite (run_calls_ok world (wbt_truth wbt_tool) steps (mk_state w [])).
    + reflexivity.
    + intros pre c post E. cbn [the_world].
      rewrite returns_true_code, (Hall pre c post E). reflexivity.
Qed.
End WhiteboxCodes.

Lemma hydrology_status_inverted_witness :
  main nat (wbt_truth example_wbt_completes) (fun _ _ => true)
       (fun _ => example_mask_fs) example_args "/tmp/x" (mk_state 0%nat [])
  = (mk_state 1%nat [("fill_depressions",
                      [("dem", PyStr "dem_utm.tif");
                       ("output", PyStr "/tmp/x/dem_filled.tif")])],
     Raise (RuntimeError_wbt "fill_depressions"
              [("dem", PyStr "dem_utm.tif");
               ("output", PyStr "/tmp/x/dem_filled.tif")])) /\
  invoked
    (fst (main nat (wbt_truth example_wbt_errors) (fun _ _ => true)
               (fun _ => example_mask_fs) example_args "/tmp/x"
               (mk_state 0%nat [])))
  = hydrology_steps example_args "/tmp/x".
Proof.
  split.
  - destruct (hydrology_status_inverted nat example_wbt_completes
                (fun _ _ => true) (fun _ => example_mask_fs)
                example_args "/tmp/x" 0%nat eq_refl eq_refl)
      as (_ & _ & _ & Hstop & _).
    refine (Hstop [] ("fill_depressions",
                      [("dem", PyStr "dem_utm.tif");
                       ("output", PyStr "/tmp/x/dem_filled.tif")])
                  (skipn 1 (hydrology_steps example_args "/tmp/x"))
                  eq_refl _ eq_refl).
    intros [|c0 pre'] c' post' E; discriminate.
  - destruct (hydrology_status_inverted nat example_wbt_errors
                (fun _ _ => true) (fun _ => example_mask_fs)
                example_args "/tmp/x" 0%nat eq_refl eq_refl)
      as (_ & _ & _ & _ & Hall).
    rewrite Hall; [reflexivity|].
    intros pre c post E. reflexivity.
Defined.

(** * Further properties of the code *)

(** ** The blend *)



(** X3.  A base cell that is NaN comes out NaN, whatever the parameters
    and whatever the nodata sentinel: the equality test of the nodata mask
    is false on NaN, also when the sentinel itself is NaN. *)
Theorem blend_nan_base_cell fs base_path weight_path base_ds weight_ds
  strength neutral_value eps x y :
  blend_inputs fs base_path weight_path base_ds weight_ds ->
  in_grid (RasterXSize base_ds) (RasterYSize base_ds) x y = true ->
  band1 base_ds x y = NaN ->
  exists out,
    blend_probabilities fs base_path weight_path strength neutral_value eps
    = Ok out /\
    band1 out x y = [NaN].
Proof.
  intros Hin Hgrid Hp.
  destruct (blend_probabilities_cells _ _ _ _ _ strength neutral_value eps Hin)
    as (out_band & Hrun & Hcells).
  eexists. split; [exact Hrun|]. cbn [band1].
  rewrite Hcells, Hgrid, Hp. unfold blend_cell.
  assert (Hnd : eq_nodata (NoDataValue base_ds) NaN = false)
    by (destruct (NoDataValue base_ds); reflexivity).
  rewrite Hnd. unfold blend_formula_np, np_clip, np_logit, np_sigmoid.
  cbn [np_maximum np_minimum].
  destruct (np_sub (Fin 1) eps); reflexivity.
Qed.

Lemma example_nan_inputs :
  blend_inputs example_fs_nan "base_nan.tif" "weight_zero.tif"
               example_base_nan example_weight_zero.
Proof. repeat split; first [reflexivity | discriminate]. Qed.


Lemma blend_nan_base_cell_witness :
  exists out,
    blend_probabilities example_fs_nan "base_nan.tif" "weight_zero.tif"
                        (Fin 2) (Fin (1 / 2)) (Fin (1 / 1000000)) = Ok out /\
    band1 out 0 0 = [NaN].
Proof.
  apply (blend_nan_base_cell example_fs_nan "base_nan.tif" "weight_zero.tif"
           example_base_nan example_weight_zero
           (Fin 2) (Fin (1 / 2)) (Fin (1 / 1000000)) 0 0
           example_nan_inputs eq_refl eq_refl).
Defined.

Lemma Rclamp_monotone (p1 p2 lo hi : R) :
  (p1 <= p2)%R -> (Rclamp p1 lo hi <= Rclamp p2 lo hi)%R.
Proof.
  intros H. unfold Rclamp, Rmin, Rmax.
  destruct (Rle_dec p1 lo), (Rle_dec p2 lo);
    repeat match goal with
           | |- context [Rle_dec ?a ?b] => destruct (Rle_dec a b)
           end; lra.
Qed.

Lemma logit_increasing (q1 q2 : R) :
  (0 < q1)%R -> (q1 < q2)%R -> (q2 < 1)%R -> (logit q1 < logit q2)%R.
Proof.
  intros H0 H12 H1. unfold logit.
  assert (Hd : (0 < (1 - q1) * (1 - q2))%R)
    by (apply Rmult_lt_0_compat; lra).
  apply ln_increasing.
  - apply Rdiv_lt_0_compat; lra.
  - apply Rmult_lt_reg_r with ((1 - q1) * (1 - q2))%R; [exact Hd|].
    replace (q1 / (1 - q1) * ((1 - q1) * (1 - q2)))%R with (q1 * (1 - q2))%R
      by (field; lra).
    replace (q2 / (1 - q2) * ((1 - q1) * (1 - q2)))%R with (q2 * (1 - q1))%R
      by (field; lra).
    lra.
Qed.

Lemma blend_formula_monotone_in_base (s n e p1 p2 w : R) :
  (0 < e < 1)%R -> (p1 <= p2)%R ->
  (blend_formula s n e p1 w <= blend_formula s n e p2 w)%R /\
  ((e <= p1)%R -> (p1 < p2)%R -> (p2 <= 1 - e)%R ->
   (blend_formula s n e p1 w < blend_formula s n e p2 w)%R).
Proof.
  intros He Hp.
  assert (Hstrict : forall q1 q2,
             (0 < q1)%R -> (q1 < q2)%R -> (q2 < 1)%R ->
             (sigmoid (logit q1 + s * (effective_weight w n - n))
              < sigmoid (logit q2 + s * (effective_weight w n - n)))%R).
  { intros q1 q2 H0 H12 H1. apply sigmoid_increasing.
    apply Rplus_lt_compat_r, logit_increasing; assumption. }
  pose proof (Rclamp_range p1 e He) as [Hq1 _].
  pose proof (Rclamp_range p2 e He) as [_ Hq2].
  unfold blend_formula. split.
  - destruct (Rclamp_monotone p1 p2 e (1 - e) Hp) as [Hlt | Heq].
    + left. apply Hstrict; assumption.
    + right. rewrite Heq. reflexivity.
  - intros H1 H12 H2. rewrite !Rclamp_id by lra. apply Hstrict; lra.
Qed.

(** X4.  The blend keeps the order of base values: of two cells with one
    weight, the one with the smaller (finite, non-nodata) base value never
    gets the larger stored value, for a weight not above 1 and a neutral
    value in [0,1]. *)
Theorem blend_monotone_in_base fs base_path weight_path base_ds weight_ds
  s n e p1 p2 w x1 y1 x2 y2 :
  blend_inputs fs base_path weight_path base_ds weight_ds ->
  in_grid (RasterXSize base_ds) (RasterYSize base_ds) x1 y1 = true ->
  in_grid (RasterXSize base_ds) (RasterYSize base_ds) x2 y2 = true ->
  band1 base_ds x1 y1 = Fin p1 -> band1 base_ds x2 y2 = Fin p2 ->
  eq_nodata (NoDataValue base_ds) (Fin p1) = false ->
  eq_nodata (NoDataValue base_ds) (Fin p2) = false ->
  band1 weight_ds x1 y1 = Fin w -> band1 weight_ds x2 y2 = Fin w ->
  (0 < e < 1)%R -> (0 <= n <= 1)%R -> (w <= 1)%R -> (p1 <= p2)%R ->
  exists out v1 v2,
    blend_probabilities_fp fs base_path weight_path (Fin s) (Fin n) (Fin e)
    = Ok out /\
    band1 out x1 y1 = [Fin v1] /\ band1 out x2 y2 = [Fin v2] /\
    (v1 <= v2)%R.
Proof.
  intros Hin Hg1 Hg2 Hp1 Hp2 Hnd1 Hnd2 Hw1 Hw2 He Hn Hw Hp.
  destruct (blend_probabilities_fp_cells _ _ _ _ _ (Fin s) (Fin n) (Fin e)
              Hin) as (out_band & Hrun & Hcells).
  destruct (blend_cell_fp_fin (NoDataValue base_ds) s n e p1 w Hnd1 He)
    as [E1 _].
  destruct (blend_cell_fp_fin (NoDataValue base_ds) s n e p2 w Hnd2 He)
    as [E2 _].
  eexists. exists (round32_R (blend_formula s n e p1 w)),
    (round32_R (blend_formula s n e p2 w)).
  split; [exact Hrun|]. cbn [band1].
  rewrite !Hcells, Hg1, Hg2, Hp1, Hp2, Hw1, Hw2, E1, E2.
  split; [reflexivity|]. split; [reflexivity|].
  apply round32_R_le. apply blend_formula_monotone_in_base; assumption.
Qed.

Lemma blend_monotone_in_base_witness :
  exists out v1 v2,
    blend_probabilities_fp example_fs_nan "base_nan.tif" "weight_zero.tif"
                           (Fin 2) (Fin (1 / 2)) (Fin (1 / 1000000))
    = Ok out /\
    band1 out 3 0 = [Fin v1] /\ band1 out 3 1 = [Fin v2] /\ (v1 <= v2)%R.
Proof.
  apply (blend_monotone_in_base example_fs_nan
           "base_nan.tif" "weight_zero.tif"
           example_base_nan example_weight_zero
           2 (1 / 2) (1 / 1000000) (1 / 4) (3 / 4) (1 / 2) 3 0 3 1
           example_nan_inputs eq_refl eq_refl eq_refl eq_refl
           eq_refl eq_refl eq_refl eq_refl);
    lra.
Defined.

(** ** The mask *)




Lemma np_le_trans (a b c : npfloat) :
  np_le a b = true -> np_le b c = true -> np_le a c = true.
Proof.
  destruct a as [| | |a], b as [| | |b], c as [| | |c]; cbn;
    try discriminate; try reflexivity.
  rewrite !Rleb_true_iff. lra.
Qed.

Lemma admissible_loosen smax hmax dmax smax' hmax' dmax' p slp hd dist :
  np_le smax smax' = true -> np_le hmax hmax' = true ->
  np_le dmax dmax' = true ->
  admissible smax hmax dmax p slp hd dist = true ->
  admissible smax' hmax' dmax' p slp hd dist = true.
Proof.
  intros Hs Hh Hd. unfold admissible. rewrite !andb_true_iff.
  intros [[[[[[Hp Hfs] Hfh] Hfd] Hls] Hlh] Hld].
  repeat split; try assumption; eapply np_le_trans; eassumption.
Qed.

(** X6.  Loosening the thresholds never excludes a cell: when each maximum
    is raised (or kept), every cell that came out non-zero under the
    tighter maxima comes out with the same value under the looser ones. *)
Theorem mask_thresholds_monotone fs prob_path slope_path hand_path dist_path
  p_src s_src h_src d_src smax hmax dmax smax' hmax' dmax' window x y :
  mask_inputs fs prob_path slope_path hand_path dist_path
              p_src s_src h_src d_src ->
  0 < window ->
  in_grid (RasterXSize p_src) (RasterYSize p_src) x y = true ->
  np_le smax smax' = true -> np_le hmax hmax' = true ->
  np_le dmax dmax' = true ->
  exists out out',
    apply_mask fs prob_path slope_path hand_path dist_path
               smax hmax dmax window = Ok out /\
    apply_mask fs prob_path slope_path hand_path dist_path
               smax' hmax' dmax' window = Ok out' /\
    (band1 out x y <> [Fin 0] -> band1 out' x y = band1 out x y).
Proof.
  intros Hin Hwin Hgrid Hs Hh Hd.
  destruct (apply_mask_cells _ _ _ _ _ _ _ _ _ smax hmax dmax
              window Hin Hwin) as (dst & Hrun & Hcells).
  destruct (apply_mask_cells _ _ _ _ _ _ _ _ _ smax' hmax' dmax'
              window Hin Hwin) as (dst' & Hrun' & Hcells').
  do 2 eexists. split; [exact Hrun|]. split; [exact Hrun'|]. cbn [band1].
  rewrite Hcells, Hcells', Hgrid, !mask_cell_admissible.
  destruct (admissible smax hmax dmax _ _ _ _) eqn:Ha.
  - intros _. rewrite (admissible_loosen _ _ _ _ _ _ _ _ _ _ Hs Hh Hd Ha).
    reflexivity.
  - intros H. exfalso. apply H. reflexivity.
Qed.

Lemma mask_thresholds_monotone_witness :
  exists out out',
    apply_mask example_mask_fs
               "p_terrain.tif" "slope.tif" "hand.tif" "dist2stream.tif"
               (Fin 10) (Fin 15) (Fin 300) 1024 = Ok out /\
    apply_mask example_mask_fs
               "p_terrain.tif" "slope.tif" "hand.tif" "dist2stream.tif"
               (Fin 20) (Fin 15) PInf 1024 = Ok out' /\
    (band1 out 0 0 <> [Fin 0] -> band1 out' 0 0 = band1 out 0 0).
Proof.
  apply (mask_thresholds_monotone example_mask_fs
           "p_terrain.tif" "slope.tif" "hand.tif" "dist2stream.tif"
           example_prob example_slope example_hand example_dist
           (Fin 10) (Fin 15) (Fin 300) (Fin 20) (Fin 15) PInf 1024 0 0
           example_mask_inputs eq_refl eq_refl).
  - apply Rleb_true. lra.
  - apply Rleb_true. lra.
  - reflexivity.
Defined.

Lemma fs_write_other (fs : filesystem) (path other : string)
  (ds : Dataset npfloat) :
  path <> other -> fs_write fs path ds other = fs other.
Proof.
  intros H. unfold fs_write.
  destruct (String.eqb_spec other path); [congruence | reflexivity].
Qed.

Lemma fs_write_same (fs : filesystem) (path : string) (ds : Dataset npfloat) :
  fs_write fs path ds path = Some ds.
Proof. unfold fs_write. rewrite String.eqb_refl. reflexivity. Qed.

Lemma admissible_isfinite smax hmax dmax p p' slp hd dist :
  np_isfinite p = np_isfinite p' ->
  admissible smax hmax dmax p slp hd dist
  = admissible smax hmax dmax p' slp hd dist.
Proof. intros H. unfold admissible. rewrite H. reflexivity. Qed.

Lemma mask_cell_fp_idempotent s_dtype h_dtype d_dtype
  slope_max hand_max dist_max p slp hd dist :
  (np_isfinite p = true -> np_isfinite (round32 p) = true) ->
  mask_cell_fp s_dtype h_dtype d_dtype slope_max hand_max dist_max
               (mask_cell_fp s_dtype h_dtype d_dtype
                             slope_max hand_max dist_max p slp hd dist)
               slp hd dist
  = mask_cell_fp s_dtype h_dtype d_dtype slope_max hand_max dist_max
                 p slp hd dist.
Proof.
  intros Hrange. rewrite !mask_cell_fp_admissible.
  destruct (admissible _ _ _ p slp hd dist) eqn:Ha.
  - assert (Hp : np_isfinite p = true).
    { unfold admissible in Ha. destruct (np_isfinite p); [reflexivity|].
      discriminate. }
    rewrite (admissible_isfinite _ _ _ (round32 p) p)
      by (rewrite Hp; apply Hrange, Hp).
    rewrite Ha. apply round32_idem.
  - destruct (admissible _ _ _ (Fin 0) _ _ _); [apply round32_0 | reflexivity].
Qed.

(** X7.  Masking is idempotent on a probability raster whose finite
    values are within the range of float32: masking the written output
    again, with the same covariate rasters and maxima and any positive
    window, gives the same cells, provided the output was not written
    over a covariate raster. *)
Theorem mask_idempotent fs prob_path slope_path hand_path dist_path out_path
  p_src s_src h_src d_src s_dtype h_dtype d_dtype
  slope_max hand_max dist_max window window' :
  mask_inputs fs prob_path slope_path hand_path dist_path
              p_src s_src h_src d_src ->
  0 < window -> 0 < window' ->
  out_path <> slope_path -> out_path <> hand_path -> out_path <> dist_path ->
  (forall x y, np_isfinite (band1 p_src x y) = true ->
               np_isfinite (round32 (band1 p_src x y)) = true) ->
  exists out1 out2,
    apply_mask_fp fs prob_path slope_path hand_path dist_path
                  s_dtype h_dtype d_dtype slope_max hand_max dist_max window
    = Ok out1 /\
    apply_mask_fp (fs_write fs out_path (stored out1))
                  out_path slope_path hand_path dist_path
                  s_dtype h_dtype d_dtype slope_max hand_max dist_max window'
    = Ok out2 /\
    forall x y, band1 out2 x y = band1 out1 x y.
Proof.
  intros Hin Hwin Hwin' Hs Hh Hd Hrange.
  destruct (apply_mask_fp_cells _ _ _ _ _ _ _ _ _ s_dtype h_dtype d_dtype
              slope_max hand_max dist_max window Hin Hwin)
    as (dst & Hrun & Hcells).
  destruct Hin as (Hfp & Hfs & Hfh & Hfd & Hss & Hsh & Hsd).
  set (out1 := mk_Dataset (RasterXSize p_src) (RasterYSize p_src)
                          (GeoTransform p_src) (Projection p_src)
                          (Some (Fin 0)) (512, 512) dst) in *.
  assert (Hin2 : mask_inputs (fs_write fs out_path (stored out1))
                   out_path slope_path hand_path dist_path
                   (stored out1) s_src h_src d_src).
  { unfold mask_inputs. rewrite fs_write_same, !fs_write_other by assumption.
    cbn [stored set_band1 out1 RasterXSize RasterYSize].
    repeat split; first [reflexivity | tauto]. }
  destruct (apply_mask_fp_cells _ _ _ _ _ _ _ _ _ s_dtype h_dtype d_dtype
              slope_max hand_max dist_max window' Hin2 Hwin')
    as (dst2 & Hrun2 & Hcells2).
  do 2 eexists. split; [exact Hrun|]. split; [exact Hrun2|].
  intros x y. cbn [band1]. rewrite Hcells2.
  cbn [stored set_band1 out1 RasterXSize RasterYSize band1].
  rewrite !Hcells.
  destruct (in_grid _ _ x y); [|reflexivity].
  cbn [last]. rewrite mask_cell_fp_idempotent by apply Hrange. reflexivity.
Qed.

(** The cells of the example probability raster are within the range of
    float32. *)
Lemma example_prob_in_range (x y : Z) :
  np_isfinite (band1 example_prob x y) = true ->
  np_isfinite (round32 (band1 example_prob x y)) = true.
Proof.
  intros _.
  assert (H : forall v, (0 <= v <= 1)%R -> np_isfinite (round32 (Fin v)) = true).
  { intros v Hv. destruct (round32_unit v Hv) as [-> _]. reflexivity. }
  cbn [example_prob example_raster band1].
  destruct ((x =? 0) && (y =? 1)); [apply H; lra|].
  destruct ((x =? 1) && (y =? 1)); apply H; lra.
Qed.

Lemma mask_idempotent_witness :
  exists out1 out2,
    apply_mask_fp example_mask_fs
                  "p_terrain.tif" "slope.tif" "hand.tif" "dist2stream.tif"
                  float32 float32 float32
                  (Fin 10) (Fin 15) (Fin 300) 1024 = Ok out1 /\
    apply_mask_fp (fs_write example_mask_fs "masked.tif" (stored out1))
                  "masked.tif" "slope.tif" "hand.tif" "dist2stream.tif"
                  float32 float32 float32
                  (Fin 10) (Fin 15) (Fin 300) 1 = Ok out2 /\
    forall x y, band1 out2 x y = band1 out1 x y.
Proof.
  apply (mask_idempotent example_mask_fs
           "p_terrain.tif" "slope.tif" "hand.tif" "dist2stream.tif"
           "masked.tif"
           example_prob example_slope example_hand example_dist
           float32 float32 float32
           (Fin 10) (Fin 15) (Fin 300) 1024 1
           example_mask_inputs eq_refl eq_refl);
    first [discriminate | exact example_prob_in_range].
Defined.

Lemma np_le_nan_r (a : npfloat) : np_le a NaN = false.
Proof. destruct a; reflexivity. Qed.

Lemma np_le_pinf_r (a : npfloat) : np_isfinite a = true -> np_le a PInf = true.
Proof. destruct a; try discriminate. reflexivity. Qed.

(** X8.  Special thresholds.  A threshold that is NaN excludes every cell
    of the grid; with the three thresholds at +inf a cell passes exactly
    when its four values are finite. *)
Theorem mask_special_thresholds fs prob_path slope_path hand_path dist_path
  p_src s_src h_src d_src slope_max hand_max dist_max window x y :
  mask_inputs fs prob_path slope_path hand_path dist_path
              p_src s_src h_src d_src ->
  0 < window ->
  in_grid (RasterXSize p_src) (RasterYSize p_src) x y = true ->
  exists out,
    apply_mask fs prob_path slope_path hand_path dist_path
               slope_max hand_max dist_max window = Ok out /\
    (slope_max = NaN \/ hand_max = NaN \/ dist_max = NaN ->
     band1 out x y = [Fin 0]) /\
    (slope_max = PInf -> hand_max = PInf -> dist_max = PInf ->
     band1 out x y
     = [if np_isfinite (band1 p_src x y) && np_isfinite (band1 s_src x y)
           && np_isfinite (band1 h_src x y) && np_isfinite (band1 d_src x y)
        then band1 p_src x y else Fin 0]).
Proof.
  intros Hin Hwin Hgrid.
  destruct (apply_mask_cells _ _ _ _ _ _ _ _ _ slope_max hand_max dist_max
              window Hin Hwin) as (dst & Hrun & Hcells).
  eexists. split; [exact Hrun|]. cbn [band1].
  rewrite Hcells, Hgrid, mask_cell_admissible. unfold admissible. split.
  - intros [-> | [-> | ->]]; rewrite np_le_nan_r, ?andb_false_r;
      reflexivity.
  - intros -> -> ->.
    destruct (np_isfinite (band1 p_src x y)); [|reflexivity].
    destruct (np_isfinite (band1 s_src x y)) eqn:Hs; [|reflexivity].
    destruct (np_isfinite (band1 h_src x y)) eqn:Hh; [|reflexivity].
    destruct (np_isfinite (band1 d_src x y)) eqn:Hd; [|reflexivity].
    rewrite !np_le_pinf_r by assumption. reflexivity.
Qed.

Lemma mask_special_thresholds_witness :
  exists out,
    apply_mask example_mask_fs
               "p_terrain.tif" "slope.tif" "hand.tif" "dist2stream.tif"
               PInf PInf PInf 1024 = Ok out /\
    band1 out 1 0 = [Fin (73 / 100)] /\ band1 out 1 1 = [Fin 0].
Proof.
  destruct (mask_special_thresholds example_mask_fs
              "p_terrain.tif" "slope.tif" "hand.tif" "dist2stream.tif"
              example_prob example_slope example_hand example_dist
              PInf PInf PInf 1024 1 0 example_mask_inputs eq_refl eq_refl)
    as (out & Hrun & _ & H10).
  destruct (mask_special_thresholds example_mask_fs
              "p_terrain.tif" "slope.tif" "hand.tif" "dist2stream.tif"
              example_prob example_slope example_hand example_dist
              PInf PInf PInf 1024 1 1 example_mask_inputs eq_refl eq_refl)
    as (out' & Hrun' & _ & H11).
  rewrite Hrun in Hrun'. injection Hrun' as <-.
  exists out. split; [exact Hrun|]. split.
  - exact (H10 eq_refl eq_refl eq_refl).
  - exact (H11 eq_refl eq_refl eq_refl).
Defined.

Lemma py_range_neg (stop step : Z) :
  step < 0 -> 0 <= stop -> py_range 0 stop step = Ok [].
Proof.
  intros Hstep Hstop. unfold py_range.
  destruct (Z.eqb_spec step 0); [lia|].
  destruct (Z.ltb_spec 0 step); [lia|].
  assert (Hn : (0 - stop - step - 1) / - step <= 0).
  { apply Z.lt_succ_r. apply Z.div_lt_upper_bound; lia. }
  replace (Z.to_nat ((0 - stop - step - 1) / - step)) with 0%nat by lia.
  reflexivity.
Qed.

(** X9.  The window size at its bounds.  With a window of 0 [apply_mask]
    raises the [ValueError] of [range]; with a negative window (and a
    raster of non-negative height) it returns normally and has written no
    cell at all. *)
Theorem apply_mask_nonpositive_window fs prob_path slope_path hand_path
  dist_path p_src s_src h_src d_src slope_max hand_max dist_max window :
  mask_inputs fs prob_path slope_path hand_path dist_path
              p_src s_src h_src d_src ->
  (window = 0 ->
   apply_mask fs prob_path slope_path hand_path dist_path
              slope_max hand_max dist_max window
   = Raise (ValueError "range() arg 3 must not be zero")) /\
  (window < 0 -> 0 <= RasterYSize p_src ->
   exists out,
     apply_mask fs prob_path slope_path hand_path dist_path
                slope_max hand_max dist_max window = Ok out /\
     forall x y, band1 out x y = []).
Proof.
  intros (Hp & Hs & Hh & Hd & _).
  unfold apply_mask, rasterio_open. rewrite Hp, Hs, Hh, Hd. cbn [bind].
  split.
  - intros ->. reflexivity.
  - intros Hneg Hheight. rewrite py_range_neg by assumption.
    cbn [bind for_each]. eexists. split; [reflexivity|].
    intros x y. reflexivity.
Qed.

Lemma apply_mask_nonpositive_window_witness :
  apply_mask example_mask_fs
             "p_terrain.tif" "slope.tif" "hand.tif" "dist2stream.tif"
             (Fin 10) (Fin 15) (Fin 300) 0
  = Raise (ValueError "range() arg 3 must not be zero") /\
  exists out,
    apply_mask example_mask_fs
               "p_terrain.tif" "slope.tif" "hand.tif" "dist2stream.tif"
               (Fin 10) (Fin 15) (Fin 300) (-512) = Ok out /\
    forall x y, band1 out x y = [].
Proof.
  split.
  - apply (apply_mask_nonpositive_window example_mask_fs
             "p_terrain.tif" "slope.tif" "hand.tif" "dist2stream.tif"
             example_prob example_slope example_hand example_dist
             (Fin 10) (Fin 15) (Fin 300) 0 example_mask_inputs).
    reflexivity.
  - apply (apply_mask_nonpositive_window example_mask_fs
             "p_terrain.tif" "slope.tif" "hand.tif" "dist2stream.tif"
             example_prob example_slope example_hand example_dist
             (Fin 10) (Fin 15) (Fin 300) (-512) example_mask_inputs).
    + reflexivity.
    + discriminate.
Defined.

Lemma apply_mask_result_metadata fs prob_path slope_path hand_path dist_path
  p_src slope_max hand_max dist_max window out :
  fs prob_path = Some p_src ->
  apply_mask fs prob_path slope_path hand_path dist_path
             slope_max hand_max dist_max window = Ok out ->
  RasterXSize out = RasterXSize p_src /\
  RasterYSize out = RasterYSize p_src /\
  GeoTransform out = GeoTransform p_src /\
  Projection out = Projection p_src /\
  NoDataValue out = Some (Fin 0) /\
  BlockSize out = (512, 512).
Proof.
  intros Hp. unfold apply_mask, rasterio_open. rewrite Hp. cbn [bind].
  destruct (fs slope_path); [|discriminate]. cbn [bind].
  destruct (fs hand_path); [|discriminate]. cbn [bind].
  destruct (fs dist_path); [|discriminate]. cbn [bind].
  destruct (py_range 0 (RasterYSize p_src) window); [|discriminate].
  cbn [bind].
  match goal with
  | |- bind ?m ?k = _ -> _ => destruct m as [ob|]; [|discriminate]
  end.
  cbn [bind]. intros [= <-]. repeat split.
Qed.

(** X10.  The masked raster takes its width, height, geotransform and
    projection from the probability raster, declares 0.0 as its nodata
    value and is tiled in blocks of 512 by 512, whatever the covariate
    rasters, the maxima and the window are. *)
Theorem apply_mask_metadata fs prob_path slope_path hand_path dist_path
  p_src s_src h_src d_src slope_max hand_max dist_max window :
  mask_inputs fs prob_path slope_path hand_path dist_path
              p_src s_src h_src d_src ->
  0 < window ->
  exists out,
    apply_mask fs prob_path slope_path hand_path dist_path
               slope_max hand_max dist_max window = Ok out /\
    RasterXSize out = RasterXSize p_src /\
    RasterYSize out = RasterYSize p_src /\
    GeoTransform out = GeoTransform p_src /\
    Projection out = Projection p_src /\
    NoDataValue out = Some (Fin 0) /\
    BlockSize out = (512, 512) /\
    forall slope_path' hand_path' dist_path' smax hmax dmax window' out',
      apply_mask fs prob_path slope_path' hand_path' dist_path'
                 smax hmax dmax window' = Ok out' ->
      RasterXSize out' = RasterXSize out /\
      RasterYSize out' = RasterYSize out /\
      GeoTransform out' = GeoTransform out /\
      Projection out' = Projection out /\
      NoDataValue out' = NoDataValue out /\
      BlockSize out' = BlockSize out.
Proof.
  intros Hin Hwin.
  destruct (apply_mask_cells _ _ _ _ _ _ _ _ _ slope_max hand_max dist_max
              window Hin Hwin) as (dst & Hrun & _).
  eexists. split; [exact Hrun|]. cbn.
  do 6 (split; [reflexivity|]).
  intros slope_path' hand_path' dist_path' smax hmax dmax window' out' Hrun'.
  destruct Hin as (Hp & _).
  exact (apply_mask_result_metadata _ _ _ _ _ _ _ _ _ _ _ Hp Hrun').
Qed.

Lemma apply_mask_metadata_witness :
  exists out,
    apply_mask example_mask_fs
               "p_terrain.tif" "slope.tif" "hand.tif" "dist2stream.tif"
               (Fin 10) (Fin 15) (Fin 300) 1024 = Ok out /\
    RasterXSize out = 2 /\ RasterYSize out = 2 /\
    NoDataValue out = Some (Fin 0).
Proof.
  destruct (apply_mask_metadata example_mask_fs
              "p_terrain.tif" "slope.tif" "hand.tif" "dist2stream.tif"
              example_prob example_slope example_hand example_dist
              (Fin 10) (Fin 15) (Fin 300) 1024 example_mask_inputs eq_refl)
    as (out & Hrun & HX & HY & _ & _ & HN & _).
  exists out. repeat split; assumption.
Defined.

(** ** [main] of build_p_terrain_masked_from_dem.py *)

Lemma py_range_not_FileNotFound start stop step e :
  py_range start stop step = Raise e -> is_FileNotFoundError e = false.
Proof.
  unfold py_range. destruct (step =? 0); [|discriminate].
  intros [= <-]. reflexivity.
Qed.

Lemma apply_mask_not_FileNotFound fs prob_path slope_path hand_path dist_path
  slope_max hand_max dist_max window e :
  apply_mask fs prob_path slope_path hand_path dist_path
             slope_max hand_max dist_max window = Raise e ->
  is_FileNotFoundError e = false.
Proof.
  unfold apply_mask, rasterio_open.
  destruct (fs prob_path) as [p_src|]; cbn [bind];
    [|intros [= <-]; reflexivity].
  destruct (fs slope_path) as [s_src|]; cbn [bind];
    [|intros [= <-]; reflexivity].
  destruct (fs hand_path) as [h_src|]; cbn [bind];
    [|intros [= <-]; reflexivity].
  destruct (fs dist_path) as [d_src|]; cbn [bind];
    [|intros [= <-]; reflexivity].
  destruct (py_range 0 (RasterYSize p_src) window) as [rows|e1] eqn:Erows;
    cbn [bind]; [|intros [= <-]; eapply py_range_not_FileNotFound, Erows].
  match goal with
  | |- bind ?m ?k = _ -> _ => destruct m as [ob|e2] eqn:Eloop
  end; cbn [bind]; [discriminate|]. intros [= <-].
  revert Eloop.
  apply (for_each_raise (fun e => is_FileNotFoundError e = false)).
  intros s row_off e3.
  destruct (py_range 0 (RasterXSize p_src) window) as [cols|e4] eqn:Ecols;
    cbn [bind]; [|intros [= <-]; eapply py_range_not_FileNotFound, Ecols].
  apply (for_each_raise (fun e => is_FileNotFoundError e = false)).
  intros; discriminate.
Qed.

Section WhiteboxMain.
Variable world : Type.
Variable wbt_call : world -> string -> kwargs -> bool * world.
Variable path_exists : world -> string -> bool.
Variable rasters : world -> filesystem.

Lemma run_calls_not_FileNotFound calls (s s' : state world) e :
  run_calls wbt_call calls s = (s', Raise e) ->
  is_FileNotFoundError e = false.
Proof.
  revert s; induction calls as [|[tool kw] calls IH]; intros s.
  - discriminate.
  - cbn [run_calls fst snd]. unfold bindM. rewrite run_wbt_step.
    destruct (fst (wbt_call (the_world s) tool kw)).
    + apply IH.
    + intros [= _ <-]. reflexivity.
Qed.

(** X11.  The two input files are checked before anything else: [main]
    raises [FileNotFoundError] exactly when the DEM or the probability
    raster is missing, naming the DEM first; no tool has then been invoked
    and the world is as it was. *)
Theorem main_file_checks (args : Args) (tmpdir : string) (s : state world) :
  let run := main world wbt_call path_exists rasters args tmpdir s in
  ((exists e, snd run = Raise e /\ is_FileNotFoundError e = true)
   <-> (path_exists (the_world s) (dem args) = false
        \/ path_exists (the_world s) (prob args) = false)) /\
  (path_exists (the_world s) (dem args) = false ->
   run = (s, Raise (FileNotFoundError ("DEM not found: " ++ dem args)))) /\
  (path_exists (the_world s) (dem args) = true ->
   path_exists (the_world s) (prob args) = false ->
   run = (s, Raise (FileNotFoundError
                      ("Probability raster not found: " ++ prob args)))).
Proof.
  intros run.
  assert (Hdem : path_exists (the_world s) (dem args) = false ->
                 run = (s, Raise (FileNotFoundError
                                    ("DEM not found: " ++ dem args)))).
  { intros H. unfold run, main. unfold bindM at 1, get_world at 1.
    rewrite H. reflexivity. }
  assert (Hprob : path_exists (the_world s) (dem args) = true ->
                  path_exists (the_world s) (prob args) = false ->
                  run = (s, Raise (FileNotFoundError
                                     ("Probability raster not found: "
                                      ++ prob args)))).
  { intros H1 H2. unfold run, main. unfold bindM at 1, get_world at 1.
    rewrite H1, H2. reflexivity. }
  split; [|split; assumption].
  destruct (path_exists (the_world s) (dem args)) eqn:Ed.
  - destruct (path_exists (the_world s) (prob args)) eqn:Ep.
    + split; [|intros [H | H]; discriminate].
      intros (e & Hrun & He). exfalso.
      unfold run in Hrun. rewrite main_steps in Hrun by assumption.
      destruct (run_calls wbt_call (hydrology_steps args tmpdir) s)
        as [s' [[]|e']] eqn:Ecalls; cbn [snd] in Hrun.
      * apply apply_mask_not_FileNotFound in Hrun. congruence.
      * injection Hrun as ->.
        apply run_calls_not_FileNotFound in Ecalls. congruence.
    + split; [intros _; right; reflexivity|]. intros _.
      rewrite (Hprob eq_refl eq_refl). eexists. split; reflexivity.
  - split; [intros _; left; reflexivity|]. intros _.
    rewrite (Hdem eq_refl). eexists. split; reflexivity.
Qed.

End WhiteboxMain.

(** ** [rasterize_hotspots] *)

Lemma collected_values_null (layer : Layer) (value_field : string) :
  (forall feat, In feat layer -> GetField feat value_field = None) ->
  flat_map (fun feat => match GetField feat value_field with
                        | Some val => [val]
                        | None => []
                        end) layer = [].
Proof.
  induction layer as [|feat layer IH]; intros H; cbn; [reflexivity|].
  rewrite (H feat) by (left; reflexivity). cbn.
  apply IH. intros f Hf. apply H. right. exact Hf.
Qed.

Lemma all_values (layer : Layer) (value_field : string) :
  (forall feat, In feat layer -> GetField feat value_field <> None) ->
  exists vals,
    map (fun feat => GetField feat value_field) layer = map Some vals.
Proof.
  induction layer as [|feat layer IH]; intros H.
  - exists []. reflexivity.
  - destruct IH as (vals & Hvals).
    { intros f Hf. apply H. right. exact Hf. }
    destruct (GetField feat value_field) as [a|] eqn:E.
    + exists (a :: vals). cbn. rewrite E, Hvals. reflexivity.
    + exfalso. apply (H feat); [left; reflexivity | exact E].
Qed.

(** X13.  The outcomes of [rasterize_hotspots], in the order the code
    decides them: a template raster that does not open; a hotspot file
    that does not open; an empty layer; a layer whose attribute is null on
    every feature; a layer with values and a null attribute, on which
    [float] raises [TypeError]; and a non-empty layer without null
    attributes, the only case in which the function returns. *)
Theorem rasterize_hotspots_outcomes fs vs hotspots_path template_path
  value_field neutral_value :
  let run := rasterize_hotspots fs vs hotspots_path template_path
                                value_field neutral_value in
  (fs template_path = None ->
   run = Raise (RuntimeError ("Could not open raster: " ++ template_path))) /\
  (fs template_path <> None -> vs hotspots_path = None ->
   run = Raise (RuntimeError ("Could not open hotspots: " ++ hotspots_path))) /\
  (forall layer,
      fs template_path <> None -> vs hotspots_path = Some layer ->
      (layer = [] -> run = Raise (RuntimeError "Hotspots layer is empty.")) /\
      (layer <> [] ->
       (forall feat, In feat layer -> GetField feat value_field = None) ->
       run = Raise (RuntimeError
                      ("No values found in field " ++ value_field ++ "."))) /\
      ((exists feat, In feat layer /\ GetField feat value_field <> None) ->
       (exists feat, In feat layer /\ GetField feat value_field = None) ->
       run = Raise float_of_None) /\
      (layer <> [] ->
       (forall feat, In feat layer -> GetField feat value_field <> None) ->
       exists mem_layer out_ds, run = Ok (mem_layer, out_ds))).
Proof.
  intros run. subst run. split; [|split].
  - intros H. unfold rasterize_hotspots, _open_base_raster. rewrite H.
    reflexivity.
  - intros Hfs Hvs. destruct (fs template_path) eqn:E; [|congruence].
    unfold rasterize_hotspots, _open_base_raster. rewrite E, Hvs.
    reflexivity.
  - intros layer Hfs Hvs.
    destruct (fs template_path) as [base_ds|] eqn:E; [|congruence].
    assert (Hlen : layer <> [] ->
                   (Z.of_nat (List.length layer) =? 0) = false).
    { intros Hne. apply Z.eqb_neq. destruct layer; [congruence | cbn; lia]. }
    split; [|split; [|split]].
    + intros ->. unfold rasterize_hotspots, _open_base_raster.
      rewrite E, Hvs. reflexivity.
    + intros Hne Hnull. unfold rasterize_hotspots, _open_base_raster.
      rewrite E, Hvs. cbn [bind].
      rewrite (Hlen Hne), collected_values_null by exact Hnull.
      reflexivity.
    + intros (f & Hf & Ha) Hnull.
      unfold rasterize_hotspots, _open_base_raster.
      rewrite E, Hvs. cbn [bind].
      rewrite Hlen by (destruct layer; [destruct Hf | discriminate]).
      destruct (GetField f value_field) as [a|] eqn:Efa; [|congruence].
      assert (Hin : In a (flat_map (fun feat =>
                                      match GetField feat value_field with
                                      | Some val => [val]
                                      | None => []
                                      end) layer)).
      { apply in_flat_map. exists f. split; [exact Hf|]. rewrite Efa.
        left. reflexivity. }
      destruct (flat_map _ layer) as [|v vals]; [destruct Hin|].
      cbn [py_min py_max bind].
      erewrite normalize_null;
        [reflexivity | intros; reflexivity | exact Hnull].
    + intros Hne Hall.
      destruct (all_values layer value_field Hall) as (vals & Hv).
      assert (Hvne : vals <> [])
        by (destruct vals; [destruct layer; [congruence | discriminate]
                           | discriminate]).
      destruct (rasterize_hotspots_values fs vs hotspots_path template_path
                  value_field neutral_value base_ds layer vals
                  E Hvs Hvne Hv)
        as (vmin & vmax & mem & out_ds & _ & _ & Hrun & _).
      exists mem, out_ds. exact Hrun.
Qed.

(** X14.  When the range of the values does not overflow, the normalized
    values reach both ends of the scale: a feature of the least value is
    given 0, and when the values are not all equal a feature of the
    greatest value is given 1. *)
Theorem normalized_extremes fs vs hotspots_path template_path value_field
  neutral_value base_ds layer vals :
  fs template_path = Some base_ds ->
  vs hotspots_path = Some layer ->
  vals <> [] ->
  map (fun feat => GetField feat value_field) layer = map Some vals ->
  (forall a b, In a vals -> In b vals -> (a - b < overflow64)%R) ->
  exists mem_layer out_ds,
    rasterize_hotspots_fp fs vs hotspots_path template_path value_field
                          neutral_value = Ok (mem_layer, out_ds) /\
    (exists feat, In feat mem_layer
                  /\ GetField64 feat "WNORM" = Some (Fin 0)) /\
    ((exists a b, In a vals /\ In b vals /\ a <> b) ->
     exists feat, In feat mem_layer
                  /\ GetField64 feat "WNORM" = Some (Fin 1)).
Proof.
  intros Hfs Hvs Hne Hvals Hrange.
  destruct (rasterize_hotspots_fp_values fs vs hotspots_path template_path
              value_field neutral_value base_ds layer vals
              Hfs Hvs Hne Hvals Hrange)
    as (vmin & vmax & mem_layer
        & [Hmin_in Hmin_le] & [Hmax_in Hmax_le] & Hrun & Hnorm & _).
  exists mem_layer. eexists. split; [exact Hrun|].
  assert (Hhas : forall a,
             In a vals ->
             exists feat, In feat mem_layer
                          /\ GetField64 feat "WNORM"
                             = Some (Fin ((a - vmin) / span_of vmin vmax)%R)).
  { intros a Ha.
    apply (in_map (fun a => Some (Fin ((a - vmin) / span_of vmin vmax)%R)))
      in Ha.
    rewrite <- Hnorm in Ha. apply in_map_iff in Ha.
    destruct Ha as (feat & Hfeat & Hin). exists feat. split; assumption. }
  split.
  - destruct (Hhas vmin Hmin_in) as (feat & Hin & Hw).
    exists feat. split; [exact Hin|]. rewrite Hw. do 2 f_equal.
    unfold Rdiv. ring.
  - intros (a & b & Ha & Hb & Hab).
    assert (Hdiff : vmax <> vmin).
    { pose proof (Hmin_le a Ha). pose proof (Hmax_le a Ha).
      pose proof (Hmin_le b Hb). pose proof (Hmax_le b Hb). lra. }
    destruct (Hhas vmax Hmax_in) as (feat & Hin & Hw).
    exists feat. split; [exact Hin|]. rewrite Hw. do 2 f_equal.
    destruct (span_of_spec vmin vmax) as [Hspan _].
    rewrite (Hspan Hdiff). field. lra.
Qed.

Lemma example_258_range (a b : R) :
  In a [2; 5; 8]%R -> In b [2; 5; 8]%R -> (a - b < overflow64)%R.
Proof.
  pose proof overflow64_large. intros Ha Hb. cbn in Ha, Hb.
  destruct Ha as [<- | [<- | [<- | []]]];
    destruct Hb as [<- | [<- | [<- | []]]]; lra.
Qed.

Lemma normalized_extremes_witness :
  exists mem_layer out_ds,
    rasterize_hotspots_fp example_fs example_vs "258.shp" "base.tif" "RVALUE"
                          (Fin (1 / 2)) = Ok (mem_layer, out_ds) /\
    (exists feat, In feat mem_layer
                  /\ GetField64 feat "WNORM" = Some (Fin 0)) /\
    (exists feat, In feat mem_layer
                  /\ GetField64 feat "WNORM" = Some (Fin 1)).
Proof.
  destruct (normalized_extremes example_fs example_vs "258.shp" "base.tif"
              "RVALUE" (Fin (1 / 2)) example_base example_layer_258
              [2; 5; 8]%R eq_refl eq_refl ltac:(discriminate) eq_refl
              example_258_range)
    as (mem_layer & out_ds & Hrun & H0 & H1).
  exists mem_layer, out_ds. split; [exact Hrun|]. split; [exact H0|].
  apply H1. exists 2%R, 5%R. cbn. repeat split; auto. lra.
Defined.

(** What a returned [rasterize_hotspots] went through. *)
Lemma rasterize_hotspots_inv fs vs hotspots_path template_path value_field
  neutral_value mem_layer out_ds :
  rasterize_hotspots fs vs hotspots_path template_path value_field
                     neutral_value = Ok (mem_layer, out_ds) ->
  exists base_ds layer vmin vmax,
    fs template_path = Some base_ds /\
    vs hotspots_path = Some layer /\
    for_features layer (fun feat =>
      raw_float <- py_float (GetField feat value_field) ;;
      Ok (SetField feat "WNORM"
                   ((raw_float - vmin) / span_of vmin vmax)%R)) = Ok mem_layer /\
    out_ds = mk_Dataset (RasterXSize base_ds) (RasterYSize base_ds)
               (GeoTransform base_ds) (Projection base_ds)
               (Some (Fin 0)) (256, 256)
               (fun x y =>
                  if in_grid (RasterXSize base_ds) (RasterYSize base_ds) x y
                  then [neutral_value] else []).
Proof.
  unfold rasterize_hotspots, _open_base_raster.
  destruct (fs template_path) as [base_ds|]; [|discriminate]. cbn [bind].
  destruct (vs hotspots_path) as [layer|]; [|discriminate]. cbn [bind].
  destruct (Z.of_nat (List.length layer) =? 0); [discriminate|].
  destruct (flat_map _ layer) as [|v vals]; [discriminate|].
  cbn [py_min py_max bind].
  set (vmin := fold_left _ vals v). set (vmax := fold_left _ vals v).
  fold (span_of vmin vmax).
  match goal with
  | |- bind ?m ?k = _ -> _ => destruct m as [mem|] eqn:Eloop; [|discriminate]
  end.
  cbn [bind]. intros [= <- <-].
  exists base_ds, layer, vmin, vmax. repeat split. exact Eloop.
Qed.

Lemma for_features_Forall2 (P : Feature -> Feature -> Prop) (layer : Layer)
  (body : Feature -> Result Feature) (mem_layer : Layer) :
  (forall feat feat', body feat = Ok feat' -> P feat feat') ->
  for_features layer body = Ok mem_layer ->
  Forall2 P layer mem_layer.
Proof.
  intros Hbody. revert mem_layer.
  induction layer as [|feat layer IH]; intros mem_layer; cbn [for_features].
  - intros [= <-]. constructor.
  - destruct (body feat) as [feat'|] eqn:Ef; [|discriminate]. cbn [bind].
    destruct (for_features layer body) as [rest|]; [|discriminate].
    cbn [bind]. intros [= <-]. constructor; [apply Hbody, Ef | apply IH].
    reflexivity.
Qed.

(** X16.  Normalization only adds the field WNORM: whenever
    [rasterize_hotspots] returns, the in-memory layer has the features of
    the hotspot layer, in the same order, and every field other than WNORM
    reads as in the source feature. *)
Theorem normalization_keeps_fields fs vs hotspots_path template_path
  value_field neutral_value mem_layer out_ds :
  rasterize_hotspots fs vs hotspots_path template_path value_field
                     neutral_value = Ok (mem_layer, out_ds) ->
  exists layer,
    vs hotspots_path = Some layer /\
    Forall2 (fun feat feat' =>
               GetField feat' "WNORM" <> None /\
               forall name, name <> "WNORM" ->
                            GetField feat' name = GetField feat name)
            layer mem_layer.
Proof.
  intros Hrun.
  destruct (rasterize_hotspots_inv _ _ _ _ _ _ _ _ Hrun)
    as (base_ds & layer & vmin & vmax & _ & Hvs & Hloop & _).
  exists layer. split; [exact Hvs|].
  eapply for_features_Forall2; [|exact Hloop].
  intros feat feat'. cbn beta.
  destruct (GetField feat value_field) as [a|]; [|discriminate].
  cbn [py_float bind]. intros [= <-]. split.
  - unfold GetField, SetField. rewrite String.eqb_refl. discriminate.
  - intros name Hname. unfold GetField, SetField.
    destruct (String.eqb_spec name "WNORM"); [contradiction | reflexivity].
Qed.

Lemma normalization_keeps_fields_witness :
  exists mem_layer out_ds,
    rasterize_hotspots example_fs example_vs "258.shp" "base.tif" "RVALUE"
                       (Fin (1 / 2)) = Ok (mem_layer, out_ds) /\
    Forall2 (fun feat feat' =>
               GetField feat' "RVALUE" = GetField feat "RVALUE")
            example_layer_258 mem_layer.
Proof.
  destruct (rasterize_hotspots_values example_fs example_vs "258.shp"
              "base.tif" "RVALUE" (Fin (1 / 2)) example_base
              example_layer_258 [2; 5; 8]%R eq_refl eq_refl
              ltac:(discriminate) eq_refl)
    as (vmin & vmax & mem_layer & out_ds & _ & _ & Hrun & _).
  destruct (normalization_keeps_fields _ _ _ _ _ _ _ _ Hrun)
    as (layer & Hvs & Hfields).
  injection Hvs as <-.
  exists mem_layer, out_ds. split; [exact Hrun|].
  eapply Forall2_impl; [|exact Hfields].
  intros feat feat' [_ H]. apply H. discriminate.
Defined.

(** ** [main] of blend_wuhan_weights.py *)




Section BlendMain.
Variable RasterizeLayer : Dataset (list npfloat) -> Layer -> band (list npfloat).


End BlendMain.


Lemma rasterize_hotspots_fp_inv fs vs hotspots_path template_path value_field
  neutral_value mem_layer out_ds :
  rasterize_hotspots_fp fs vs hotspots_path template_path value_field
                        neutral_value = Ok (mem_layer, out_ds) ->
  exists base_ds,
    fs template_path = Some base_ds /\
    out_ds = mk_Dataset (RasterXSize base_ds) (RasterYSize base_ds)
               (GeoTransform base_ds) (Projection base_ds)
               (Some (Fin 0)) (256, 256)
               (fun x y =>
                  if in_grid (RasterXSize base_ds) (RasterYSize base_ds) x y
                  then [round32 neutral_value] else []).
Proof.
  unfold rasterize_hotspots_fp, _open_base_raster.
  destruct (fs template_path) as [base_ds|]; [|discriminate]. cbn [bind].
  destruct (vs hotspots_path) as [layer|]; [|discriminate]. cbn [bind].
  destruct (Z.of_nat (List.length layer) =? 0); [discriminate|].
  destruct (flat_map _ layer) as [|v vals]; [discriminate|].
  cbn [py_min py_max bind].
  match goal with
  | |- bind ?m ?k = _ -> _ => destruct m as [mem|] eqn:Eloop; [|discriminate]
  end.
  cbn [bind]. intros [= <- <-].
  exists base_ds. split; reflexivity.
Qed.

Section BlendMainFP.
Variable RasterizeLayer64 :
  Dataset (list npfloat) -> Layer64 -> band (list npfloat).


(** X19.  Whenever [rasterize_hotspots] returns, the raster it has written
    at [out_path] is on the grid of the template (width, height,
    geotransform, projection), declares 0.0 as its nodata value, holds in
    every cell that the burn left untouched the neutral value as a
    float32, and no other file has changed. *)
Theorem rasterize_hotspots_to_file_grid (fs fs1 : filesystem)
  (vs : vector_store)
  (hotspots_path template_path out_path value_field : string)
  (neutral_value : npfloat) :
  rasterize_hotspots_to_file_fp RasterizeLayer64 fs vs hotspots_path
                                template_path out_path value_field
                                neutral_value = Ok fs1 ->
  exists base_ds weight_ds mem_layer prepared,
    fs template_path = Some base_ds /\
    fs1 out_path = Some weight_ds /\
    rasterize_hotspots_fp fs vs hotspots_path template_path value_field
                          neutral_value = Ok (mem_layer, prepared) /\
    RasterXSize weight_ds = RasterXSize base_ds /\
    RasterYSize weight_ds = RasterYSize base_ds /\
    GeoTransform weight_ds = GeoTransform base_ds /\
    Projection weight_ds = Projection base_ds /\
    NoDataValue weight_ds = Some (Fin 0) /\
    (forall x y,
        in_grid (RasterXSize base_ds) (RasterYSize base_ds) x y = true ->
        RasterizeLayer64 prepared mem_layer x y = band1 prepared x y ->
        band1 weight_ds x y = round32 neutral_value) /\
    (forall path, path <> out_path -> fs1 path = fs path).
Proof.
  unfold rasterize_hotspots_to_file_fp.
  destruct (rasterize_hotspots_fp fs vs hotspots_path template_path
              value_field neutral_value)
    as [[mem_layer out_ds]|e0] eqn:Er; cbn [bind]; [|discriminate].
  intros [= <-].
  destruct (rasterize_hotspots_fp_inv _ _ _ _ _ _ _ _ Er)
    as (base_ds & Hfs & Hout).
  exists base_ds. eexists. exists mem_layer, out_ds.
  split; [exact Hfs|]. split; [apply fs_write_same|].
  split; [reflexivity|]. subst out_ds. cbn.
  do 5 (split; [reflexivity|]). split.
  - intros x y Hgrid ->. rewrite Hgrid. reflexivity.
  - intros path Hpath. apply fs_write_other. congruence.
Qed.
End BlendMainFP.

Lemma round32_half : round32 (Fin (1 / 2)) = Fin (1 / 2).
Proof.
  replace (1 / 2)%R with (IZR 1 / 2 ^ Z.to_nat 1)%R by (simpl; lra).
  apply round32_dyadic; lia.
Qed.


Lemma rasterize_hotspots_to_file_grid_witness :
  exists fs1 weight_ds,
    rasterize_hotspots_to_file_fp example_burn64 example_fs example_vs
                                  "258.shp" "base.tif" "weight_out.tif"
                                  "RVALUE" (Fin (1 / 2)) = Ok fs1 /\
    fs1 "weight_out.tif" = Some weight_ds /\
    RasterXSize weight_ds = 4 /\ RasterYSize weight_ds = 4 /\
    band1 weight_ds 3 3 = Fin (1 / 2) /\
    fs1 "base.tif" = Some example_base.
Proof.
  destruct (rasterize_hotspots_fp_values example_fs example_vs "258.shp"
              "base.tif" "RVALUE" (Fin (1 / 2)) example_base
              example_layer_258 [2; 5; 8]%R eq_refl eq_refl
              ltac:(discriminate) eq_refl example_258_range)
    as (vmin & vmax & mem_layer & _ & _ & Hprep & _).
  match type of Hprep with _ = Ok (_, ?d) => set (out_ds := d) in * end.
  assert (Hrun : rasterize_hotspots_to_file_fp example_burn64 example_fs
                   example_vs "258.shp" "base.tif" "weight_out.tif" "RVALUE"
                   (Fin (1 / 2))
                 = Ok (fs_write example_fs "weight_out.tif"
                         (stored (set_band1 out_ds
                                    (example_burn64 out_ds mem_layer))))).
  { unfold rasterize_hotspots_to_file_fp. rewrite Hprep. reflexivity. }
  destruct (rasterize_hotspots_to_file_grid example_burn64 _ _ _ _ _ _ _ _
              Hrun)
    as (base_ds & weight_ds & mem' & prep' & Hfs & Hw & Hprep' & HX & HY & _
        & _ & _ & Hcell & Hother).
  injection Hfs as <-. rewrite Hprep in Hprep'. injection Hprep' as <- <-.
  eexists. exists weight_ds. split; [exact Hrun|]. split; [exact Hw|].
  split; [exact HX|]. split; [exact HY|]. split.
  - rewrite <- round32_half. apply Hcell; reflexivity.
  - rewrite Hother by discriminate. reflexivity.
Defined.
